(** * Club 19 Sales OS: the legacy data ingestion pipeline

    A shallow embedding of [scripts/legacy-data-pipeline.py], the
    properties its specification states about it, and further properties of
    the code.

    Conventions of the embedding.
    - A Python [str] is a [string]; the methods [lower], [capitalize],
      [strip] and [split] follow Python on the ASCII range (letters [A-Z] and
      [a-z], the white space characters 9-13, 28-31 and 32); bytes above 127
      are carried through unchanged, but for the character U+0149 in
      [capitalize]. What is stated of the case of letters beyond the words
      of the code is stated of ASCII text.
    - A Python [float] is a [spec_float] of the IEEE-754 binary64 format.
    - A [dict] keeps its insertion order: it is an association list that is
      updated in place; a [set] is a [gset].
    - A call that can raise returns an [outcome]; [try]/[except] is a match
      on it. *)

From Stdlib Require Import ZArith String Ascii List SpecFloat.
From stdpp Require Import gmap strings list sorting pretty.

Open Scope string_scope.

(** * The embedding *)

(** ** Exceptions *)

Inductive exn : Set := ValueError | OverflowError | IndexError | KeyError.

Inductive outcome (A : Type) : Type :=
  | Return (a : A)
  | Raise (e : exn).
Arguments Return {A} a.
Arguments Raise {A} e.

#[global] Instance outcome_ret : MRet outcome := fun A a => Return a.
#[global] Instance outcome_bind : MBind outcome := fun A B f m =>
  match m with
  | Return a => f a
  | Raise e => Raise e
  end.

#[global] Instance outcome_fmap : FMap outcome := fun A B f m =>
  match m with
  | Return a => Return (f a)
  | Raise e => Raise e
  end.

Definition returns {A} (m : outcome A) : Prop := ∃ a, m = Return a.

(** ** Python string methods *)

Module Str.

(** [str.isspace] on one character. *)
Definition is_space (c : ascii) : bool :=
  let n := N_of_ascii c in
  ((9 <=? n) && (n <=? 13) || (28 <=? n) && (n <=? 32))%N.

Definition lower_char (c : ascii) : ascii :=
  let n := N_of_ascii c in
  if ((65 <=? n) && (n <=? 90))%N then ascii_of_N (n + 32) else c.

Definition upper_char (c : ascii) : ascii :=
  let n := N_of_ascii c in
  if ((97 <=? n) && (n <=? 122))%N then ascii_of_N (n - 32) else c.

Fixpoint lower (s : string) : string :=
  match s with
  | "" => ""
  | String c s' => String (lower_char c) (lower s')
  end.

Fixpoint lstrip (s : string) : string :=
  match s with
  | "" => ""
  | String c s' => if is_space c then lstrip s' else s
  end.

Fixpoint rstrip (s : string) : string :=
  match s with
  | "" => ""
  | String c s' =>
      match rstrip s' with
      | "" => if is_space c then "" else String c ""
      | r => String c r
      end
  end.

Definition strip (s : string) : string := rstrip (lstrip s).

(** [s.split()]: the maximal runs of characters that are not white space. *)
Fixpoint split (s : string) : list string :=
  match s with
  | "" => []
  | String c s' =>
      if is_space c then split s'
      else match s' with
           | "" => [String c ""]
           | String c' _ =>
               if is_space c' then String c "" :: split s'
               else match split s' with
                    | w :: ws => String c w :: ws
                    | [] => [String c ""]
                    end
           end
  end.

(** [sep.join(ws)] *)
Definition join (sep : string) (ws : list string) : string :=
  String.concat sep ws.

(** [w.capitalize()]: the first character in upper case, the others in
    lower case. Python goes by characters and the model by bytes, which is
    the same on ASCII text. Of the characters beyond, the model has U+0149,
    the small n preceded by an apostrophe, which Python capitalizes to a
    modifier apostrophe and a capital N: it is the one character whose
    capitalized form changes when it is capitalized again. *)
Definition capitalize (w : string) : string :=
  match w with
  | "" => ""
  | String c r =>
      match r with
      | String c' r' =>
          if bool_decide (String c (String c' "") = "ŉ") then "ʼN" +:+ lower r'
          else String (upper_char c) (lower r)
      | "" => String (upper_char c) ""
      end
  end.

(** [s.replace(old, new)] for a non-empty [old]: occurrences are replaced
    from the left and do not overlap; [skip] counts the characters of a
    match still to be dropped. *)
Fixpoint replace_go (old new : string) (skip : nat) (s : string) : string :=
  match s with
  | "" => ""
  | String c s' =>
      match skip with
      | S k => replace_go old new k s'
      | O =>
          if String.prefix old s
          then new +:+ replace_go old new (String.length old - 1) s'
          else String c (replace_go old new 0 s')
      end
  end.

Definition replace (old new s : string) : string := replace_go old new 0 s.

(** Left padding with zeros, as in the [%02d] and [%04d] of a date. *)
Fixpoint zeros (n : nat) : string :=
  match n with
  | O => ""
  | S k => String "0" (zeros k)
  end.

Definition zpad (width : nat) (s : string) : string :=
  zeros (width - String.length s) +:+ s.

End Str.

(** ** Python values and floats *)

Definition float : Set := spec_float.

Definition prec : Z := 53.
Definition emax : Z := 1024.

Definition float_zero : float := S754_zero false.

(** [float(n)] for an [int]: the nearest double, [OverflowError] beyond the
    largest one. *)
Definition float_of_int (n : Z) : outcome float :=
  match binary_normalize prec emax n 0 false with
  | S754_infinity _ => Raise OverflowError
  | f => Return f
  end.

(** [int(f)] for a [float]: truncation toward zero. *)
Definition int_of_float (f : float) : outcome Z :=
  match f with
  | S754_zero _ => Return 0%Z
  | S754_nan => Raise ValueError
  | S754_infinity _ => Raise OverflowError
  | S754_finite s m e =>
      let a := if (0 <=? e)%Z then (Z.pos m * 2 ^ e)%Z else (Z.pos m / 2 ^ (- e))%Z in
      Return (if s then (- a)%Z else a)
  end.

Definition float_is_zero (f : float) : bool :=
  match f with
  | S754_zero _ => true
  | _ => false
  end.

Definition float_sub (x y : float) : float := SFsub prec emax x y.

(** [f < 0.0] *)
Definition float_negative (f : float) : bool := SFltb f float_zero.

(** ** Calendar dates, after CPython's [datetime] *)

Record datetime : Set := {
  year : Z; month : Z; day : Z;
  hour : Z; minute : Z; second : Z; microsecond : Z
}.

Module Calendar.
Open Scope Z_scope.

Definition MAXORDINAL : Z := 3652059.
Definition MINYEAR : Z := 1.
Definition MAXYEAR : Z := 9999.

Definition DAYS_IN_MONTH : list Z :=
  [-1; 31; 28; 31; 30; 31; 30; 31; 31; 30; 31; 30; 31].
Definition DAYS_BEFORE_MONTH : list Z :=
  [-1; 0; 31; 59; 90; 120; 151; 181; 212; 243; 273; 304; 334].

Definition is_leap (y : Z) : bool :=
  (y mod 4 =? 0) && (negb (y mod 100 =? 0) || (y mod 400 =? 0)).

Definition days_before_year (y : Z) : Z :=
  let y := y - 1 in y * 365 + y / 4 - y / 100 + y / 400.

Definition days_in_month (y m : Z) : Z :=
  if (m =? 2) && is_leap y then 29 else nth (Z.to_nat m) DAYS_IN_MONTH 0.

Definition days_before_month (y m : Z) : Z :=
  nth (Z.to_nat m) DAYS_BEFORE_MONTH 0 + (if (2 <? m) && is_leap y then 1 else 0).

Definition ymd2ord (y m d : Z) : Z :=
  days_before_year y + days_before_month y m + d.

Definition DI400Y : Z := 146097.
Definition DI100Y : Z := 36524.
Definition DI4Y : Z := 1461.

Definition ord2ymd (n : Z) : Z * Z * Z :=
  let n := n - 1 in
  let n400 := n / DI400Y in let n := n mod DI400Y in
  let y := n400 * 400 + 1 in
  let n100 := n / DI100Y in let n := n mod DI100Y in
  let n4 := n / DI4Y in let n := n mod DI4Y in
  let n1 := n / 365 in let n := n mod 365 in
  let y := y + n100 * 100 + n4 * 4 + n1 in
  if (n1 =? 4) || (n100 =? 4) then (y - 1, 12, 31)
  else
    let leapyear := (n1 =? 3) && (negb (n4 =? 24) || (n100 =? 3)) in
    let m := Z.shiftr (n + 50) 5 in
    let preceding :=
      nth (Z.to_nat m) DAYS_BEFORE_MONTH 0 + (if (2 <? m) && leapyear then 1 else 0) in
    if n <? preceding then
      let m := m - 1 in
      let preceding :=
        preceding - (nth (Z.to_nat m) DAYS_IN_MONTH 0
                     + (if (m =? 2) && leapyear then 1 else 0)) in
      (y, m, n - preceding + 1)
    else (y, m, n - preceding + 1).

(** [datetime(y, m, d)]: [ValueError] unless the date exists. *)
Definition make_date (y m d : Z) : outcome datetime :=
  if (MINYEAR <=? y) && (y <=? MAXYEAR) && (1 <=? m) && (m <=? 12)
     && (1 <=? d) && (d <=? days_in_month y m)
  then Return {| year := y; month := m; day := d;
                 hour := 0; minute := 0; second := 0; microsecond := 0 |}
  else Raise ValueError.

Definition toordinal (dt : datetime) : Z := ymd2ord (year dt) (month dt) (day dt).

(** [timedelta(days=n)] *)
Definition timedelta_days (n : Z) : outcome Z :=
  if Z.abs n <=? 999999999 then Return n else Raise OverflowError.

(** [dt + timedelta(days=n)] *)
Definition add_days (dt : datetime) (n : Z) : outcome datetime :=
  let o := toordinal dt + n in
  if (0 <? o) && (o <=? MAXORDINAL) then
    let '(y, m, d) := ord2ymd o in
    Return {| year := y; month := m; day := d;
              hour := hour dt; minute := minute dt; second := second dt;
              microsecond := microsecond dt |}
  else Raise OverflowError.

Definition num (width : nat) (n : Z) : string := Str.zpad width (pretty n).

(** [dt.strftime("%Y-%m-%d")]. The year is written with four digits, as the
    documentation of the library gives it. For years below 1000 the text
    depends on the C library: glibc leaves out the leading zeros. The text of
    a year from 1000 on is the same everywhere, and what is stated of the
    order of these texts is stated of such years. *)
Definition strftime_Ymd (dt : datetime) : string :=
  num 4 (year dt) +:+ "-" +:+ num 2 (month dt) +:+ "-" +:+ num 2 (day dt).

(** [str(dt)] *)
Definition isoformat_space (dt : datetime) : string :=
  strftime_Ymd dt +:+ " " +:+ num 2 (hour dt) +:+ ":" +:+ num 2 (minute dt)
    +:+ ":" +:+ num 2 (second dt)
    +:+ (if microsecond dt =? 0 then "" else "." +:+ num 6 (microsecond dt)).

(** [datetime(1899, 12, 30)] *)
Definition excel_epoch : datetime :=
  {| year := 1899; month := 12; day := 30;
     hour := 0; minute := 0; second := 0; microsecond := 0 |}.

End Calendar.

(** ** [datetime.strptime] on the formats of the pipeline

    CPython turns a format into a regular expression with one group per
    directive and matches it at the start of the text; the match, if any, has
    to reach the end of the text. *)

Module Strptime.

(** Regular expressions without repetition; [rmatch] lists the ways a
    prefix of the text matches, in the order a backtracking matcher tries
    them, as pairs of the matched text and the rest. *)
Inductive re : Type :=
  | Chr (p : ascii → bool)
  | Seq (r1 r2 : re)
  | Alt (r1 r2 : re).

Fixpoint rmatch (r : re) (s : string) : list (string * string) :=
  match r with
  | Chr p =>
      match s with
      | String c s' => if p c then [(String c "", s')] else []
      | "" => []
      end
  | Seq r1 r2 =>
      '(t1, s1) ← rmatch r1 s;
      '(t2, s2) ← rmatch r2 s1;
      [(t1 +:+ t2, s2)]
  | Alt r1 r2 => rmatch r1 s ++ rmatch r2 s
  end.

Definition between (lo hi : ascii) : ascii → bool :=
  fun c => ((N_of_ascii lo <=? N_of_ascii c) && (N_of_ascii c <=? N_of_ascii hi))%N.
Definition only (a : ascii) : ascii → bool := fun c => bool_decide (c = a).
Definition digit : re := Chr (between "0" "9").

Inductive directive : Set := Dd | Dm | DY | Dy | Lit (c : ascii).

(** The groups of [_strptime.TimeRE]. *)
Definition regex_of (d : directive) : re :=
  match d with
  | Dd => (* 3[0-1]|[1-2]\d|0[1-9]|[1-9]| [1-9] *)
      Alt (Seq (Chr (only "3")) (Chr (between "0" "1")))
     (Alt (Seq (Chr (between "1" "2")) digit)
     (Alt (Seq (Chr (only "0")) (Chr (between "1" "9")))
     (Alt (Chr (between "1" "9"))
          (Seq (Chr (only " ")) (Chr (between "1" "9"))))))
  | Dm => (* 1[0-2]|0[1-9]|[1-9] *)
      Alt (Seq (Chr (only "1")) (Chr (between "0" "2")))
     (Alt (Seq (Chr (only "0")) (Chr (between "1" "9")))
          (Chr (between "1" "9")))
  | DY => Seq digit (Seq digit (Seq digit digit))
  | Dy => Seq digit digit
  | Lit c => Chr (only c)
  end.

Record fields : Set := {
  f_d : option string; f_m : option string;
  f_Y : option string; f_y : option string
}.

Definition no_fields : fields :=
  {| f_d := None; f_m := None; f_Y := None; f_y := None |}.

Definition store (d : directive) (t : string) (f : fields) : fields :=
  match d with
  | Dd => {| f_d := Some t; f_m := f_m f; f_Y := f_Y f; f_y := f_y f |}
  | Dm => {| f_d := f_d f; f_m := Some t; f_Y := f_Y f; f_y := f_y f |}
  | DY => {| f_d := f_d f; f_m := f_m f; f_Y := Some t; f_y := f_y f |}
  | Dy => {| f_d := f_d f; f_m := f_m f; f_Y := f_Y f; f_y := Some t |}
  | Lit _ => f
  end.

Fixpoint match_format (fmt : list directive) (s : string) (f : fields)
  : list (fields * string) :=
  match fmt with
  | [] => [(f, s)]
  | d :: fmt' =>
      '(t, s') ← rmatch (regex_of d) s;
      match_format fmt' s' (store d t f)
  end.

(** [int(t)] on the text of a group: decimal digits, after an optional
    blank. *)
Definition digit_value (c : ascii) : Z := Z.of_N (N_of_ascii c) - 48.

Fixpoint int_go (acc : Z) (t : string) : Z :=
  match t with
  | "" => acc
  | String c t' => if Str.is_space c then int_go acc t' else int_go (10 * acc + digit_value c) t'
  end.

Definition int_of_text (t : string) : Z := int_go 0 t.

Definition year_of (f : fields) : Z :=
  match f_Y f, f_y f with
  | Some t, _ => int_of_text t
  | None, Some t =>
      let y := int_of_text t in
      if (y <=? 68)%Z then (y + 2000)%Z else (y + 1900)%Z
  | None, None => 1900
  end.

Definition strptime (data_string : string) (fmt : list directive) : outcome datetime :=
  match match_format fmt data_string no_fields with
  | [] => Raise ValueError
  | (f, rest) :: _ =>
      if bool_decide (rest = "") then
        Calendar.make_date (year_of f)
          (from_option int_of_text 1%Z (f_m f))
          (from_option int_of_text 1%Z (f_d f))
      else Raise ValueError
  end.

(** ["%d/%m/%Y"], ["%d/%m/%y"], ["%Y-%m-%d"], ["%m/%d/%Y"] *)
Definition fmt_dmY : list directive := [Dd; Lit "/"; Dm; Lit "/"; DY].
Definition fmt_dmy : list directive := [Dd; Lit "/"; Dm; Lit "/"; Dy].
Definition fmt_Ymd : list directive := [DY; Lit "-"; Dm; Lit "-"; Dd].
Definition fmt_mdY : list directive := [Dm; Lit "/"; Dd; Lit "/"; DY].

End Strptime.

(** ** Cell values

    The values [openpyxl] hands out for a cell: [None], a [bool], an [int], a
    [float], a [str], a [datetime], or another object (a time of day, a
    duration), of which only the truth value and the text [str] gives matter
    here. *)

Inductive pyval : Type :=
  | VNone
  | VBool (b : bool)
  | VInt (n : Z)
  | VFloat (f : float)
  | VStr (s : string)
  | VDatetime (dt : datetime)
  | VOther (truth : bool) (text : string).

(** [bool(v)] *)
Definition truthy (v : pyval) : bool :=
  match v with
  | VNone => false
  | VBool b => b
  | VInt n => negb (n =? 0)%Z
  | VFloat f => negb (float_is_zero f)
  | VStr s => negb (bool_decide (s = ""))
  | VDatetime _ => true
  | VOther t _ => t
  end.

(** [value is None or value == ""] *)
Definition none_or_empty (v : pyval) : bool :=
  match v with
  | VNone => true
  | VStr s => bool_decide (s = "")
  | _ => false
  end.

(** [int(value)] for a value of type [int] or [float]. *)
Definition py_int (v : pyval) : outcome Z :=
  match v with
  | VBool b => Return (if b then 1 else 0)%Z
  | VInt n => Return n
  | VFloat f => int_of_float f
  | _ => Raise ValueError
  end.

(** [float(value)] for a value of type [int] or [float]. *)
Definition py_float (v : pyval) : outcome float :=
  match v with
  | VBool b => float_of_int (if b then 1 else 0)
  | VInt n => float_of_int n
  | VFloat f => Return f
  | _ => Raise ValueError
  end.

(** ** Value parsers *)

(** [value.strip().replace("£", "").replace("$", "").replace(",", "")] *)
Definition price_text (value : string) : string :=
  Str.replace "," "" (Str.replace "$" "" (Str.replace "£" "" (Str.strip value))).

Section Parsers.

(** [float(s)] on a text: the number it reads, [None] where it raises
    [ValueError]. *)
Variable float_of_str : string → option float.

(** [str(f)] on a float. *)
Variable str_of_float : float → string.

Definition py_str (v : pyval) : string :=
  match v with
  | VNone => "None"
  | VBool b => if b then "True" else "False"
  | VInt n => pretty n
  | VFloat f => str_of_float f
  | VStr s => s
  | VDatetime dt => Calendar.isoformat_space dt
  | VOther _ text => text
  end.

(** The loop over the formats: the first that parses wins, a [ValueError]
    moves on to the next. *)
Fixpoint try_formats (text : string) (fmts : list (list Strptime.directive))
  : option string :=
  match fmts with
  | [] => None
  | fmt :: rest =>
      match Strptime.strptime text fmt with
      | Return date_obj => Some (Calendar.strftime_Ymd date_obj)
      | Raise _ => try_formats text rest
      end
  end.

Definition date_formats : list (list Strptime.directive) :=
  [Strptime.fmt_dmY; Strptime.fmt_dmy; Strptime.fmt_Ymd; Strptime.fmt_mdY].

Definition parse_excel_date (value : pyval) : outcome (option string) :=
  if none_or_empty value then Return None
  else
    match value with
    | VDatetime dt => Return (Some (Calendar.strftime_Ymd dt))
    | VBool _ | VInt _ | VFloat _ =>
        let attempt :=
          n ← py_int value;
          delta ← Calendar.timedelta_days n;
          date_obj ← Calendar.add_days Calendar.excel_epoch delta;
          Return (Calendar.strftime_Ymd date_obj) in
        match attempt with
        | Return s => Return (Some s)
        | Raise _ => Return None
        end
    | VStr s => Return (try_formats (Str.strip s) date_formats)
    | _ => Return None
    end.

Definition parse_price (value : pyval) : outcome float :=
  if none_or_empty value then Return float_zero
  else
    match value with
    | VBool _ | VInt _ | VFloat _ => py_float value
    | VStr s =>
        let clean := price_text s in
        match float_of_str clean with
        | Some f => Return f
        | None => Return float_zero
        end
    | _ => Return float_zero
    end.

Definition clean_text (value : pyval) : string :=
  if none_or_empty value then "" else Str.strip (py_str value).

Definition title_case (value : string) : string :=
  if bool_decide (value = "") then ""
  else Str.join " " (Str.capitalize <$> Str.split value).

(** ** Row ingestor *)

Record RawRow : Type := {
  date : option string;
  invoice_number : string;
  client_raw : string;
  client_status_raw : string;
  supplier_raw : string;
  item_raw : string;
  brand_raw : string;
  category_raw : string;
  buy_price_raw : float;
  sell_price_raw : float;
  margin_raw : float;
  source : string;
  row_number : nat
}.

(** [f(row[i]) if len(row) > i else default] *)
Definition cell {A} (row : list pyval) (i : nat) (f : pyval → A) (default : A) : A :=
  match row !! i with
  | Some v => f v
  | None => default
  end.

Definition row_dict (source : string) (idx : nat) (row : list pyval) : outcome RawRow :=
  d ← cell row 0 parse_excel_date (Return None);
  buy ← cell row 8 parse_price (Return float_zero);
  sell ← cell row 9 parse_price (Return float_zero);
  margin ← cell row 10 parse_price (Return float_zero);
  Return {| date := d;
            invoice_number := cell row 1 clean_text "";
            client_raw := cell row 2 clean_text "";
            client_status_raw := cell row 3 clean_text "";
            supplier_raw := cell row 4 clean_text "";
            item_raw := cell row 5 clean_text "";
            brand_raw := cell row 6 clean_text "";
            category_raw := cell row 7 clean_text "";
            buy_price_raw := buy;
            sell_price_raw := sell;
            margin_raw := margin;
            source := source;
            row_number := idx |}.

(** The loop of [load_hope_sheet] and [load_mc_sheet] over
    [enumerate(ws.iter_rows(values_only=True), 1)], from position [idx]
    on. Row 1 is the header, which is only printed. *)
Fixpoint load_rows (source : string) (idx : nat) (sheet : list (list pyval))
  : outcome (list RawRow) :=
  match sheet with
  | [] => Return []
  | row :: rest =>
      if (idx =? 1)%nat then load_rows source (S idx) rest
      else if negb (existsb truthy row) then load_rows source (S idx) rest
      else
        r ← row_dict source idx row;
        rows ← load_rows source (S idx) rest;
        Return (r :: rows)
  end.

Definition load_sheet (source : string) (sheet : list (list pyval)) : outcome (list RawRow) :=
  load_rows source 1 sheet.

Definition load_hope_sheet : list (list pyval) → outcome (list RawRow) := load_sheet "Hope".
Definition load_mc_sheet : list (list pyval) → outcome (list RawRow) := load_sheet "MC".

End Parsers.

(** ** Dictionaries in insertion order *)

Section dict.
Context {V : Type}.

(** [d.get(k)] *)
Fixpoint od_get (k : string) (d : list (string * V)) : option V :=
  match d with
  | [] => None
  | (k', v) :: d' => if decide (k = k') then Some v else od_get k d'
  end.

(** [d[k] = v]: a known key keeps its place, a new one goes last. *)
Fixpoint od_set (k : string) (v : V) (d : list (string * V)) : list (string * V) :=
  match d with
  | [] => [(k, v)]
  | (k', v') :: d' =>
      if decide (k = k') then (k, v) :: d' else (k', v') :: od_set k v d'
  end.

(** An update in place of the object stored under [k]. *)
Fixpoint od_alter (f : V → V) (k : string) (d : list (string * V)) : list (string * V) :=
  match d with
  | [] => []
  | (k', v) :: d' =>
      if decide (k = k') then (k', f v) :: d' else (k', v) :: od_alter f k d'
  end.

(** [d.values()] *)
Definition od_values (d : list (string * V)) : list V := snd <$> d.

Definition od_keys (d : list (string * V)) : list string := fst <$> d.
End dict.

Abbreviation dict V := (list (string * V)) (only parsing).

(** [sorted(list(s))] for a set of strings. *)
Definition sorted (s : gset string) : list string := merge_sort String.le (elements s).

(** The truth value of an optional text ([None] and [""] are false). *)
Definition some_text (o : option string) : bool :=
  match o with
  | Some s => negb (bool_decide (s = ""))
  | None => false
  end.

(** ** Supplier normalizer *)

Definition SUPPLIER_AUTO_MERGE : gmap string string :=
  list_to_map [
    ("Galaxy", "Galaxy VIC");
    ("Galaxy Vic", "Galaxy VIC");
    ("Galaxy VIC", "Galaxy VIC");
    ("STOCK", "Stock (Internal)");
    ("Stock", "Stock (Internal)");
    ("In Stock", "Stock (Internal)");
    ("Bags by Appointment", "Bags by Appointment");
    ("Bags By Appointment", "Bags by Appointment");
    ("BagsbyAppointment", "Bags by Appointment")
  ].

Definition SUPPLIER_REQUIRES_REVIEW : list string := ["L19 STOCK"; "LOCAL"; "TSUM"].

(** The dictionary [normalize_supplier] returns; the key ["reason"] is
    optional. *)
Record NormalizationResult : Set := {
  nr_clean : string;
  nr_requires_review : bool;
  nr_reason : option string
}.

(** [raw_supplier] is a text or [None]. *)
Definition normalize_supplier (raw_supplier : option string) : NormalizationResult :=
  match raw_supplier with
  | None | Some "" =>
      {| nr_clean := "Unknown"; nr_requires_review := true;
         nr_reason := Some "Empty supplier" |}
  | Some raw =>
      match SUPPLIER_AUTO_MERGE !! raw with
      | Some merged =>
          {| nr_clean := merged; nr_requires_review := false; nr_reason := None |}
      | None =>
          if bool_decide (raw ∈ SUPPLIER_REQUIRES_REVIEW) then
            {| nr_clean := raw; nr_requires_review := true;
               nr_reason := Some "Ambiguous supplier name" |}
          else
            {| nr_clean := raw; nr_requires_review := false; nr_reason := None |}
      end
  end.

(** ** Entity aggregation

    The audit entries are dictionaries whose set-valued fields are replaced
    by sorted lists after the loop: the records take the type [S] of those
    fields as a parameter, [gset string] in the loop and [list string] once
    emitted. *)

Module SupplierAudit.
Record t (S : Type) : Type := {
  clean_name : string;
  raw_variants : S;
  sources : S;
  rows : list nat;
  requires_review : bool;
  reason : string
}.
Arguments clean_name {S} _.
Arguments raw_variants {S} _.
Arguments sources {S} _.
Arguments rows {S} _.
Arguments requires_review {S} _.
Arguments reason {S} _.
End SupplierAudit.

Module ClientAudit.
Record t (S : Type) : Type := {
  client_clean : string;
  raw_variants : S;
  client_statuses : S;
  sources : S;
  first_seen : option string;
  last_seen : option string;
  trade_count : nat;
  requires_review : bool;
  reason : option string
}.
Arguments client_clean {S} _.
Arguments raw_variants {S} _.
Arguments client_statuses {S} _.
Arguments sources {S} _.
Arguments first_seen {S} _.
Arguments last_seen {S} _.
Arguments trade_count {S} _.
Arguments requires_review {S} _.
Arguments reason {S} _.
End ClientAudit.

(** [raw = row["supplier_raw"]; if not raw: raw = "Unknown"] *)
Definition supplier_raw_or_unknown (row : RawRow) : string :=
  if bool_decide (supplier_raw row = "") then "Unknown" else supplier_raw row.

(** One round of the loop of [build_supplier_data]. *)
Definition supplier_step
    (st : dict NormalizationResult * dict (SupplierAudit.t (gset string)))
    (row : RawRow)
  : dict NormalizationResult * dict (SupplierAudit.t (gset string)) :=
  let '(supplier_map, supplier_audit) := st in
  let raw := supplier_raw_or_unknown row in
  let norm := normalize_supplier (Some raw) in
  let clean := nr_clean norm in
  let supplier_map := od_set raw norm supplier_map in
  let supplier_audit :=
    match od_get clean supplier_audit with
    | Some _ => supplier_audit
    | None =>
        od_set clean
          {| SupplierAudit.clean_name := clean;
             SupplierAudit.raw_variants := ∅;
             SupplierAudit.sources := ∅;
             SupplierAudit.rows := [];
             SupplierAudit.requires_review := nr_requires_review norm;
             SupplierAudit.reason := default "" (nr_reason norm) |}
          supplier_audit
    end in
  let supplier_audit :=
    od_alter (fun e =>
      {| SupplierAudit.clean_name := SupplierAudit.clean_name e;
         SupplierAudit.raw_variants := {[raw]} ∪ SupplierAudit.raw_variants e;
         SupplierAudit.sources := {[source row]} ∪ SupplierAudit.sources e;
         SupplierAudit.rows := SupplierAudit.rows e ++ [row_number row];
         SupplierAudit.requires_review := SupplierAudit.requires_review e;
         SupplierAudit.reason := SupplierAudit.reason e |}) clean supplier_audit in
  (supplier_map, supplier_audit).

(** The conversion of the sets to sorted lists. *)
Definition supplier_emit (e : SupplierAudit.t (gset string)) : SupplierAudit.t (list string) :=
  {| SupplierAudit.clean_name := SupplierAudit.clean_name e;
     SupplierAudit.raw_variants := sorted (SupplierAudit.raw_variants e);
     SupplierAudit.sources := sorted (SupplierAudit.sources e);
     SupplierAudit.rows := SupplierAudit.rows e;
     SupplierAudit.requires_review := SupplierAudit.requires_review e;
     SupplierAudit.reason := SupplierAudit.reason e |}.

Definition build_supplier_data (all_rows : list RawRow)
  : dict NormalizationResult * dict (SupplierAudit.t (list string)) :=
  let '(supplier_map, supplier_audit) := foldl supplier_step ([], []) all_rows in
  (supplier_map, prod_map id supplier_emit <$> supplier_audit).

(** [raw = row["client_raw"]; if not raw: raw = "Unknown"] *)
Definition client_raw_or_unknown (row : RawRow) : string :=
  if bool_decide (client_raw row = "") then "Unknown" else client_raw row.

(** The key of the aggregation: [raw.lower().strip()]. *)
Definition client_key (row : RawRow) : string :=
  Str.strip (Str.lower (client_raw_or_unknown row)).

(** [if d: if not seen or d before seen: seen = d], with [<] or [>] for
    [before]. *)
Definition track_date (before : string → string → bool) (d seen : option string)
  : option string :=
  match d with
  | Some d' =>
      if some_text d then
        if negb (some_text seen) || from_option (before d') true seen then Some d' else seen
      else seen
  | None => seen
  end.

(** One round of the loop of [build_client_data]. *)
Definition client_step (client_audit : dict (ClientAudit.t (gset string))) (row : RawRow)
  : dict (ClientAudit.t (gset string)) :=
  let raw := client_raw_or_unknown row in
  let clean := Str.strip (Str.lower raw) in
  let status := client_status_raw row in
  let client_audit :=
    match od_get clean client_audit with
    | Some _ => client_audit
    | None =>
        od_set clean
          {| ClientAudit.client_clean := clean;
             ClientAudit.raw_variants := ∅;
             ClientAudit.client_statuses := ∅;
             ClientAudit.sources := ∅;
             ClientAudit.first_seen := None;
             ClientAudit.last_seen := None;
             ClientAudit.trade_count := 0;
             ClientAudit.requires_review := false;
             ClientAudit.reason := None |}
          client_audit
    end in
  od_alter (fun e =>
    {| ClientAudit.client_clean := ClientAudit.client_clean e;
       ClientAudit.raw_variants := {[raw]} ∪ ClientAudit.raw_variants e;
       ClientAudit.client_statuses := {[status]} ∪ ClientAudit.client_statuses e;
       ClientAudit.sources := {[source row]} ∪ ClientAudit.sources e;
       ClientAudit.first_seen :=
         track_date String.ltb (date row) (ClientAudit.first_seen e);
       ClientAudit.last_seen :=
         track_date (fun d o => String.ltb o d) (date row) (ClientAudit.last_seen e);
       ClientAudit.trade_count := ClientAudit.trade_count e + 1;
       ClientAudit.requires_review := ClientAudit.requires_review e;
       ClientAudit.reason := ClientAudit.reason e |}) clean client_audit.

(** The second loop: the sets become sorted lists and a client seen with
    several statuses is marked. *)
Definition client_emit (e : ClientAudit.t (gset string)) : ClientAudit.t (list string) :=
  let statuses := sorted (ClientAudit.client_statuses e) in
  let conflict := bool_decide (1 < length statuses) in
  {| ClientAudit.client_clean := ClientAudit.client_clean e;
     ClientAudit.raw_variants := sorted (ClientAudit.raw_variants e);
     ClientAudit.client_statuses := statuses;
     ClientAudit.sources := sorted (ClientAudit.sources e);
     ClientAudit.first_seen := ClientAudit.first_seen e;
     ClientAudit.last_seen := ClientAudit.last_seen e;
     ClientAudit.trade_count := ClientAudit.trade_count e;
     ClientAudit.requires_review :=
       if conflict then true else ClientAudit.requires_review e;
     ClientAudit.reason :=
       if conflict then Some ("Multiple statuses: " +:+ Str.join ", " statuses)
       else ClientAudit.reason e |}.

Definition build_client_data (all_rows : list RawRow) : dict (ClientAudit.t (list string)) :=
  prod_map id client_emit <$> foldl client_step [] all_rows.

(** ** Table assembler *)

Module LegacySupplier.
Record t : Type := {
  id : string;
  supplier_clean : string;
  raw_variants : list string;
  requires_review : bool;
  reason : string;
  first_seen : option string;
  last_seen : option string;
  trade_count : nat
}.
End LegacySupplier.

Module LegacyClient.
Record t : Type := {
  id : string;
  client_clean : string;
  raw_variants : list string;
  client_status : string;
  first_seen : option string;
  last_seen : option string;
  trade_count : nat;
  requires_review : bool
}.
End LegacyClient.

(** [raw_row] is [json.dumps(row)] in the source, a text that depends only
    on the row: the row itself stands for it. *)
Module LegacyTrade.
Record t : Type := {
  id : string;
  invoice_number : string;
  trade_date : option string;
  raw_client : string;
  raw_supplier : string;
  client_id : string;
  supplier_id : string;
  item : string;
  brand : string;
  category : string;
  buy_price : float;
  sell_price : float;
  margin : float;
  source : string;
  raw_row : RawRow
}.
End LegacyTrade.

Module LiveSupplier.
Record t : Type := {
  id : string;
  supplier_name : string;
  raw_variants : list string;
  requires_review : bool;
  is_legacy : bool;
  created_from : string;
  default_currency : string;
  supplier_type : option string;
  notes : option string;
  first_seen : option string;
  last_seen : option string;
  trade_count : nat
}.
End LiveSupplier.

(** [min(l)] and [max(l)] on a list of texts, [None] for the empty list
    (the source guards the call with [if dates]). *)
Definition py_min (l : list string) : option string :=
  match l with
  | [] => None
  | x :: l' => Some (foldl (fun m y => if String.ltb y m then y else m) x l')
  end.

Definition py_max (l : list string) : option string :=
  match l with
  | [] => None
  | x :: l' => Some (foldl (fun m y => if String.ltb m y then y else m) x l')
  end.

(** [d[k]] *)
Definition od_index {V} (k : string) (d : dict V) : outcome V :=
  match od_get k d with
  | Some v => Return v
  | None => Raise KeyError
  end.

(** [l[0]] *)
Definition first_item {A} (l : list A) : outcome A :=
  match l with
  | x :: _ => Return x
  | [] => Raise IndexError
  end.

Fixpoint for_each {A B} (f : A → outcome B) (l : list A) : outcome (list B) :=
  match l with
  | [] => Return []
  | x :: l' => y ← f x; ys ← for_each f l'; Return (y :: ys)
  end.

(** The date of a row if it has one: [r["date"] for r in rows if r["date"]]
    is [omap dated rows]. *)
Definition dated (row : RawRow) : option string :=
  if some_text (date row) then date row else None.

(** The canonical client key of the join. *)
Definition trade_client_key (row : RawRow) : string :=
  if bool_decide (client_raw row = "") then "unknown"
  else Str.strip (Str.lower (client_raw row)).

(** The canonical supplier name of the join. *)
Definition trade_supplier_key (row : RawRow) : string :=
  nr_clean (normalize_supplier (Some (supplier_raw row))).

(** The category before the last [title_case]. *)
Definition infer_category (row : RawRow) : outcome string :=
  if bool_decide (category_raw row = "") then
    if negb (bool_decide (brand_raw row = "")) then Return (title_case (brand_raw row))
    else if negb (bool_decide (item_raw row = "")) then
      word ← (if negb (bool_decide (item_raw row = ""))
              then first_item (Str.split (item_raw row)) else Return "");
      Return (title_case word)
    else Return (category_raw row)
  else Return (category_raw row).

Definition live_supplier (supplier : LegacySupplier.t) : LiveSupplier.t :=
  {| LiveSupplier.id := LegacySupplier.id supplier;
     LiveSupplier.supplier_name := LegacySupplier.supplier_clean supplier;
     LiveSupplier.raw_variants := LegacySupplier.raw_variants supplier;
     LiveSupplier.requires_review := LegacySupplier.requires_review supplier;
     LiveSupplier.is_legacy := true;
     LiveSupplier.created_from := "legacy-import-v1";
     LiveSupplier.default_currency := "GBP";
     LiveSupplier.supplier_type := None;
     LiveSupplier.notes := None;
     LiveSupplier.first_seen := LegacySupplier.first_seen supplier;
     LiveSupplier.last_seen := LegacySupplier.last_seen supplier;
     LiveSupplier.trade_count := LegacySupplier.trade_count supplier |}.

Definition build_live_supplier_seed (legacy_suppliers : list LegacySupplier.t)
  : list LiveSupplier.t :=
  live_supplier <$> legacy_suppliers.

Section Assembler.

(** The tokens [str(uuid.uuid4())] gives, in the order of the calls. *)
Variable uuid4 : nat → string.

(** [{key(e): str(uuid.uuid4()) for e in entries}], [n] tokens being used
    already. *)
Definition assign_ids (keys : list string) (n : nat) : dict string :=
  fst (foldl (fun '(m, i) k => (od_set k (uuid4 i) m, S i)) ([], n) keys).

Definition legacy_supplier (all_rows : list RawRow) (supplier_id_map : dict string)
    (supplier : SupplierAudit.t (list string)) : outcome LegacySupplier.t :=
  let clean := SupplierAudit.clean_name supplier in
  supplier_id ← od_index clean supplier_id_map;
  let supplier_rows :=
    filter (fun r => trade_supplier_key r = clean) all_rows in
  let dates := omap dated supplier_rows in
  Return {| LegacySupplier.id := supplier_id;
            LegacySupplier.supplier_clean := clean;
            LegacySupplier.raw_variants := SupplierAudit.raw_variants supplier;
            LegacySupplier.requires_review := SupplierAudit.requires_review supplier;
            LegacySupplier.reason := SupplierAudit.reason supplier;
            LegacySupplier.first_seen := py_min dates;
            LegacySupplier.last_seen := py_max dates;
            LegacySupplier.trade_count := length supplier_rows |}.

Definition legacy_client (client_id_map : dict string)
    (client : ClientAudit.t (list string)) : outcome LegacyClient.t :=
  let clean := ClientAudit.client_clean client in
  client_id ← od_index clean client_id_map;
  Return {| LegacyClient.id := client_id;
            LegacyClient.client_clean := clean;
            LegacyClient.raw_variants := ClientAudit.raw_variants client;
            LegacyClient.client_status := Str.join ", " (ClientAudit.client_statuses client);
            LegacyClient.first_seen := ClientAudit.first_seen client;
            LegacyClient.last_seen := ClientAudit.last_seen client;
            LegacyClient.trade_count := ClientAudit.trade_count client;
            LegacyClient.requires_review := ClientAudit.requires_review client |}.

Definition legacy_trade (supplier_id_map client_id_map : dict string)
    (row : RawRow) (n : nat) : outcome LegacyTrade.t :=
  let supplier_clean := trade_supplier_key row in
  let client_clean := trade_client_key row in
  let supplier_id := default "" (od_get supplier_clean supplier_id_map) in
  let client_id := default "" (od_get client_clean client_id_map) in
  let margin :=
    if float_is_zero (margin_raw row)
    then float_sub (sell_price_raw row) (buy_price_raw row)
    else margin_raw row in
  category ← infer_category row;
  Return {| LegacyTrade.id := uuid4 n;
            LegacyTrade.invoice_number := invoice_number row;
            LegacyTrade.trade_date := date row;
            LegacyTrade.raw_client := client_raw row;
            LegacyTrade.raw_supplier := supplier_raw row;
            LegacyTrade.client_id := client_id;
            LegacyTrade.supplier_id := supplier_id;
            LegacyTrade.item := item_raw row;
            LegacyTrade.brand := brand_raw row;
            LegacyTrade.category := title_case category;
            LegacyTrade.buy_price := buy_price_raw row;
            LegacyTrade.sell_price := sell_price_raw row;
            LegacyTrade.margin := margin;
            LegacyTrade.source := source row;
            LegacyTrade.raw_row := row |}.

(** The loop over the rows, the [n]-th token being the next one. *)
Fixpoint legacy_trades (supplier_id_map client_id_map : dict string)
    (all_rows : list RawRow) (n : nat) : outcome (list LegacyTrade.t) :=
  match all_rows with
  | [] => Return []
  | row :: rest =>
      t ← legacy_trade supplier_id_map client_id_map row n;
      ts ← legacy_trades supplier_id_map client_id_map rest (S n);
      Return (t :: ts)
  end.

Definition build_legacy_tables (all_rows : list RawRow)
    (supplier_map : dict NormalizationResult)
    (supplier_audit : dict (SupplierAudit.t (list string)))
    (client_audit : dict (ClientAudit.t (list string)))
  : outcome (list LegacySupplier.t * list LegacyClient.t * list LegacyTrade.t) :=
  let suppliers := od_values supplier_audit in
  let clients := od_values client_audit in
  let supplier_id_map := assign_ids (SupplierAudit.clean_name <$> suppliers) 0 in
  let client_id_map :=
    assign_ids (ClientAudit.client_clean <$> clients) (length suppliers) in
  legacy_suppliers ← for_each (legacy_supplier all_rows supplier_id_map) suppliers;
  legacy_clients ← for_each (legacy_client client_id_map) clients;
  trades ← legacy_trades supplier_id_map client_id_map all_rows
              (length suppliers + length clients);
  Return (legacy_suppliers, legacy_clients, trades).

(** The pipeline of [main] from the loaded rows on. *)
Definition pipeline (all_rows : list RawRow) :=
  let '(supplier_map, supplier_audit) := build_supplier_data all_rows in
  let client_audit := build_client_data all_rows in
  build_legacy_tables all_rows supplier_map supplier_audit client_audit.

End Assembler.

(** ** The run of [main]

    The cells of the two workbooks are the input. Steps 1 to 5 ingest the
    sheets and build the six collections, step 6 writes them, one file each,
    and step 7 prints the summary, whose last line gives the range of the
    dates. The model gives the collections that were written, none when an
    earlier step raised, together with the outcome of the summary; the
    failures of the file system are left out. *)

(** [min(xs)] and [max(xs)] of a sequence of texts without a guard:
    [ValueError] on an empty one. *)
Definition min_of (l : list string) : outcome string :=
  match py_min l with
  | Some m => Return m
  | None => Raise ValueError
  end.

Definition max_of (l : list string) : outcome string :=
  match py_max l with
  | Some m => Return m
  | None => Raise ValueError
  end.

Module Outputs.
Record t : Type := {
  supplier_normalisation_map : dict NormalizationResult;
  supplier_audit_table : list (SupplierAudit.t (list string));
  legacy_suppliers : list LegacySupplier.t;
  legacy_clients : list LegacyClient.t;
  legacy_trades : list LegacyTrade.t;
  suppliers_live_seed : list LiveSupplier.t
}.
End Outputs.

Module Summary.
Record t : Type := {
  total_trades : nat;
  total_suppliers : nat;
  suppliers_requiring_review : nat;
  total_clients : nat;
  clients_requiring_review : nat;
  hope_trades : nat;
  mc_trades : nat;
  date_range : string * string
}.
End Summary.

Section Main.

Variable float_of_str : string → option float.
Variable str_of_float : float → string.
Variable uuid4 : nat → string.

(** Steps 1 to 5: the rows of the two sheets and the collections. *)
Definition build_outputs (hope_sheet mc_sheet : list (list pyval))
  : outcome (list RawRow * list RawRow * Outputs.t) :=
  hope_rows ← load_hope_sheet float_of_str str_of_float hope_sheet;
  mc_rows ← load_mc_sheet float_of_str str_of_float mc_sheet;
  let all_rows := (hope_rows ++ mc_rows)%list in
  let '(supplier_map, supplier_audit) := build_supplier_data all_rows in
  let client_audit := build_client_data all_rows in
  '(legacy_suppliers, legacy_clients, legacy_trades) ←
    build_legacy_tables uuid4 all_rows supplier_map supplier_audit client_audit;
  let suppliers_live := build_live_supplier_seed legacy_suppliers in
  Return (hope_rows, mc_rows,
          {| Outputs.supplier_normalisation_map := supplier_map;
             Outputs.supplier_audit_table := od_values supplier_audit;
             Outputs.legacy_suppliers := legacy_suppliers;
             Outputs.legacy_clients := legacy_clients;
             Outputs.legacy_trades := legacy_trades;
             Outputs.suppliers_live_seed := suppliers_live |}).

(** Step 7: the figures of the summary report. *)
Definition summary (hope_rows mc_rows : list RawRow) (out : Outputs.t)
  : outcome Summary.t :=
  let all_rows := (hope_rows ++ mc_rows)%list in
  first ← min_of (omap dated all_rows);
  last ← max_of (omap dated all_rows);
  Return {| Summary.total_trades := length (Outputs.legacy_trades out);
            Summary.total_suppliers := length (Outputs.legacy_suppliers out);
            Summary.suppliers_requiring_review :=
              length (filter (fun s => LegacySupplier.requires_review s = true)
                        (Outputs.legacy_suppliers out));
            Summary.total_clients := length (Outputs.legacy_clients out);
            Summary.clients_requiring_review :=
              length (filter (fun c => LegacyClient.requires_review c = true)
                        (Outputs.legacy_clients out));
            Summary.hope_trades := length hope_rows;
            Summary.mc_trades := length mc_rows;
            Summary.date_range := (first, last) |}.

Definition main (hope_sheet mc_sheet : list (list pyval))
  : option Outputs.t * outcome Summary.t :=
  match build_outputs hope_sheet mc_sheet with
  | Return (hope_rows, mc_rows, out) => (Some out, summary hope_rows mc_rows out)
  | Raise e => (None, Raise e)
  end.

End Main.

(** * Notions used in the statements *)

(** ** The aggregation loops as a grouping

    Both loops file each row under a key: a key met for the first time gets
    a fresh entry, then the entry of the key is updated from the row. *)

Section group.
Context {R E : Type} (key : R → string) (init : R → E) (upd : R → E → E).

Definition group_step (d : dict E) (r : R) : dict E :=
  let d :=
    match od_get (key r) d with
    | Some _ => d
    | None => od_set (key r) (init r) d
    end in
  od_alter (upd r) (key r) d.

(** The rows filed under [k]. *)
Definition group_of (k : string) (rows : list R) : list R :=
  filter (fun r => key r = k) rows.

End group.

(** The key, the fresh entry and the update of [build_supplier_data]. *)
Definition supplier_key (row : RawRow) : string :=
  nr_clean (normalize_supplier (Some (supplier_raw_or_unknown row))).

Definition supplier_init (row : RawRow) : SupplierAudit.t (gset string) :=
  let norm := normalize_supplier (Some (supplier_raw_or_unknown row)) in
  {| SupplierAudit.clean_name := nr_clean norm;
     SupplierAudit.raw_variants := ∅;
     SupplierAudit.sources := ∅;
     SupplierAudit.rows := [];
     SupplierAudit.requires_review := nr_requires_review norm;
     SupplierAudit.reason := default "" (nr_reason norm) |}.

Definition supplier_upd (row : RawRow) (e : SupplierAudit.t (gset string))
  : SupplierAudit.t (gset string) :=
  {| SupplierAudit.clean_name := SupplierAudit.clean_name e;
     SupplierAudit.raw_variants := {[supplier_raw_or_unknown row]} ∪ SupplierAudit.raw_variants e;
     SupplierAudit.sources := {[source row]} ∪ SupplierAudit.sources e;
     SupplierAudit.rows := SupplierAudit.rows e ++ [row_number row];
     SupplierAudit.requires_review := SupplierAudit.requires_review e;
     SupplierAudit.reason := SupplierAudit.reason e |}.

Definition supplier_map_step (m : dict NormalizationResult) (row : RawRow)
  : dict NormalizationResult :=
  od_set (supplier_raw_or_unknown row)
    (normalize_supplier (Some (supplier_raw_or_unknown row))) m.

(** The fresh entry and the update of [build_client_data]; the key is
    [client_key]. *)
Definition client_init (row : RawRow) : ClientAudit.t (gset string) :=
  {| ClientAudit.client_clean := client_key row;
     ClientAudit.raw_variants := ∅;
     ClientAudit.client_statuses := ∅;
     ClientAudit.sources := ∅;
     ClientAudit.first_seen := None;
     ClientAudit.last_seen := None;
     ClientAudit.trade_count := 0;
     ClientAudit.requires_review := false;
     ClientAudit.reason := None |}.

Definition client_upd (row : RawRow) (e : ClientAudit.t (gset string))
  : ClientAudit.t (gset string) :=
  {| ClientAudit.client_clean := ClientAudit.client_clean e;
     ClientAudit.raw_variants := {[client_raw_or_unknown row]} ∪ ClientAudit.raw_variants e;
     ClientAudit.client_statuses := {[client_status_raw row]} ∪ ClientAudit.client_statuses e;
     ClientAudit.sources := {[source row]} ∪ ClientAudit.sources e;
     ClientAudit.first_seen :=
       track_date String.ltb (date row) (ClientAudit.first_seen e);
     ClientAudit.last_seen :=
       track_date (fun d o => String.ltb o d) (date row) (ClientAudit.last_seen e);
     ClientAudit.trade_count := ClientAudit.trade_count e + 1;
     ClientAudit.requires_review := ClientAudit.requires_review e;
     ClientAudit.reason := ClientAudit.reason e |}.

(** A row with the given client, status and supplier labels, source and
    position, and nothing else filled in; the concrete inputs below are
    built from it. *)
Definition sample_row (client status supplier src : string) (n : nat) : RawRow :=
  {| date := None; invoice_number := ""; client_raw := client;
     client_status_raw := status; supplier_raw := supplier;
     item_raw := ""; brand_raw := ""; category_raw := "";
     buy_price_raw := float_zero; sell_price_raw := float_zero;
     margin_raw := float_zero; source := src; row_number := n |}.

(** What the loop of [build_client_data] holds for a key before the
    second loop. *)
Definition client_group_entry (k : string) (g : list RawRow) : ClientAudit.t (gset string) :=
  {| ClientAudit.client_clean := k;
     ClientAudit.raw_variants := list_to_set (client_raw_or_unknown <$> g);
     ClientAudit.client_statuses := list_to_set (client_status_raw <$> g);
     ClientAudit.sources := list_to_set (source <$> g);
     ClientAudit.first_seen := foldl (fun s r => track_date String.ltb (date r) s) None g;
     ClientAudit.last_seen :=
       foldl (fun s r => track_date (fun d o => String.ltb o d) (date r) s) None g;
     ClientAudit.trade_count := length g;
     ClientAudit.requires_review := false;
     ClientAudit.reason := None |}.

(** A word: a text that is not empty and has no white space, as [split]
    yields them. *)
Fixpoint no_space (w : string) : bool :=
  match w with
  | "" => true
  | String c w' => negb (Str.is_space c) && no_space w'
  end.

Definition is_word (w : string) : bool :=
  match w with
  | "" => false
  | _ => no_space w
  end.

(** A text of ASCII characters only. *)
Fixpoint ascii_text (s : string) : bool :=
  match s with
  | "" => true
  | String c s' => (N_of_ascii c <? 128)%N && ascii_text s'
  end.

(** A text without white space at either end, as [clean_text] returns
    them. *)
Definition trimmed (s : string) : Prop := Str.strip s = s.

(** The text fields of a row are trimmed: so the row ingestor builds
    them. *)
Definition row_trimmed (row : RawRow) : Prop :=
  trimmed (invoice_number row) ∧ trimmed (client_raw row) ∧
  trimmed (client_status_raw row) ∧ trimmed (supplier_raw row) ∧
  trimmed (item_raw row) ∧ trimmed (brand_raw row) ∧ trimmed (category_raw row).

(** A row with the given category, brand and item texts. *)
Definition item_row (cat br it : string) : RawRow :=
  {| date := None; invoice_number := ""; client_raw := "";
     client_status_raw := ""; supplier_raw := "";
     item_raw := it; brand_raw := br; category_raw := cat;
     buy_price_raw := float_zero; sell_price_raw := float_zero;
     margin_raw := float_zero; source := "Hope"; row_number := 2 |}.

(** The cells [parse_price] answers with zero: a column the row does not
    have, [None], the empty text, a text [float] rejects once the currency
    signs and commas are taken out, and an object that is neither a number
    nor a text. *)
Definition price_defaults (float_of_str : string → option float) (c : option pyval) : Prop :=
  match c with
  | None | Some VNone | Some (VDatetime _) | Some (VOther _ _) => True
  | Some (VStr s) => s = "" ∨ float_of_str (price_text s) = None
  | Some (VBool _) | Some (VInt _) | Some (VFloat _) => False
  end.

(** The rows of a sheet with their positions, [idx] being the position of
    the first. *)
Definition numbered (idx : nat) (sheet : list (list pyval)) : list (nat * list pyval) :=
  zip (seq idx (length sheet)) sheet.

(** The rows the ingestor keeps: not the header, and some cell is true. *)
Definition kept (p : nat * list pyval) : bool :=
  negb (p.1 =? 1)%nat && existsb truthy p.2.

(** A sheet with a header and one row whose only filled cell, the buy
    price, holds [v]. *)
Definition price_row (v : pyval) : list pyval :=
  [VNone; VNone; VNone; VNone; VNone; VNone; VNone; VNone; v; VNone; VNone].

Definition price_sheet (v : pyval) : list (list pyval) :=
  [[VStr "Date"; VStr "Invoice"; VStr "Client"]; price_row v].

(** The calendar date with the proleptic Gregorian ordinal [o], written
    as [YYYY-MM-DD]; none outside the years 1 to 9999. *)
Definition date_of_ordinal (o : Z) : option string :=
  if ((1 <=? o) && (o <=? Calendar.MAXORDINAL))%Z then
    let '(y, m, d) := Calendar.ord2ymd o in
    Some (Calendar.num 4 y +:+ "-" +:+ Calendar.num 2 m +:+ "-" +:+ Calendar.num 2 d)
  else None.

(** The ordinal of 1899-12-30. *)
Definition epoch_ordinal : Z := Calendar.ymd2ord 1899 12 30.

(** The identifier maps of a run of the assembler on the audits of
    [all_rows]. *)
Definition supplier_ids (uuid4 : nat → string) (all_rows : list RawRow) : dict string :=
  assign_ids uuid4 (od_keys (build_supplier_data all_rows).2) 0.

Definition client_ids (uuid4 : nat → string) (all_rows : list RawRow) : dict string :=
  assign_ids uuid4 (od_keys (build_client_data all_rows))
    (length (od_values (build_supplier_data all_rows).2)).

(** The least member of a list of texts for an order, none for the empty
    list. *)
Definition least (R : relation string) (l : list string) (o : option string) : Prop :=
  match o with
  | None => l = []
  | Some m => m ∈ l ∧ ∀ x, x ∈ l → R m x
  end.

(** A supplier audit entry without its trail of row numbers. *)
Definition without_rows (e : SupplierAudit.t (list string)) : SupplierAudit.t (list string) :=
  {| SupplierAudit.clean_name := SupplierAudit.clean_name e;
     SupplierAudit.raw_variants := SupplierAudit.raw_variants e;
     SupplierAudit.sources := SupplierAudit.sources e;
     SupplierAudit.rows := [];
     SupplierAudit.requires_review := SupplierAudit.requires_review e;
     SupplierAudit.reason := SupplierAudit.reason e |}.

(** The records of the legacy tables without their generated
    identifiers. *)
Definition supplier_without_id (s : LegacySupplier.t) : LegacySupplier.t :=
  {| LegacySupplier.id := "";
     LegacySupplier.supplier_clean := LegacySupplier.supplier_clean s;
     LegacySupplier.raw_variants := LegacySupplier.raw_variants s;
     LegacySupplier.requires_review := LegacySupplier.requires_review s;
     LegacySupplier.reason := LegacySupplier.reason s;
     LegacySupplier.first_seen := LegacySupplier.first_seen s;
     LegacySupplier.last_seen := LegacySupplier.last_seen s;
     LegacySupplier.trade_count := LegacySupplier.trade_count s |}.

Definition live_without_id (s : LiveSupplier.t) : LiveSupplier.t :=
  {| LiveSupplier.id := "";
     LiveSupplier.supplier_name := LiveSupplier.supplier_name s;
     LiveSupplier.raw_variants := LiveSupplier.raw_variants s;
     LiveSupplier.requires_review := LiveSupplier.requires_review s;
     LiveSupplier.is_legacy := LiveSupplier.is_legacy s;
     LiveSupplier.created_from := LiveSupplier.created_from s;
     LiveSupplier.default_currency := LiveSupplier.default_currency s;
     LiveSupplier.supplier_type := LiveSupplier.supplier_type s;
     LiveSupplier.notes := LiveSupplier.notes s;
     LiveSupplier.first_seen := LiveSupplier.first_seen s;
     LiveSupplier.last_seen := LiveSupplier.last_seen s;
     LiveSupplier.trade_count := LiveSupplier.trade_count s |}.

Definition client_without_id (c : LegacyClient.t) : LegacyClient.t :=
  {| LegacyClient.id := "";
     LegacyClient.client_clean := LegacyClient.client_clean c;
     LegacyClient.raw_variants := LegacyClient.raw_variants c;
     LegacyClient.client_status := LegacyClient.client_status c;
     LegacyClient.first_seen := LegacyClient.first_seen c;
     LegacyClient.last_seen := LegacyClient.last_seen c;
     LegacyClient.trade_count := LegacyClient.trade_count c;
     LegacyClient.requires_review := LegacyClient.requires_review c |}.

Definition trade_without_ids (t : LegacyTrade.t) : LegacyTrade.t :=
  {| LegacyTrade.id := "";
     LegacyTrade.invoice_number := LegacyTrade.invoice_number t;
     LegacyTrade.trade_date := LegacyTrade.trade_date t;
     LegacyTrade.raw_client := LegacyTrade.raw_client t;
     LegacyTrade.raw_supplier := LegacyTrade.raw_supplier t;
     LegacyTrade.client_id := "";
     LegacyTrade.supplier_id := "";
     LegacyTrade.item := LegacyTrade.item t;
     LegacyTrade.brand := LegacyTrade.brand t;
     LegacyTrade.category := LegacyTrade.category t;
     LegacyTrade.buy_price := LegacyTrade.buy_price t;
     LegacyTrade.sell_price := LegacyTrade.sell_price t;
     LegacyTrade.margin := LegacyTrade.margin t;
     LegacyTrade.source := LegacyTrade.source t;
     LegacyTrade.raw_row := LegacyTrade.raw_row t |}.

(** What the assembler emits for an audit entry or a row, the generated
    identifiers left out (the empty text stands in their place). *)
Definition supplier_record (all_rows : list RawRow) (supplier : SupplierAudit.t (list string))
  : LegacySupplier.t :=
  let clean := SupplierAudit.clean_name supplier in
  let supplier_rows := filter (fun r => trade_supplier_key r = clean) all_rows in
  let dates := omap dated supplier_rows in
  {| LegacySupplier.id := "";
     LegacySupplier.supplier_clean := clean;
     LegacySupplier.raw_variants := SupplierAudit.raw_variants supplier;
     LegacySupplier.requires_review := SupplierAudit.requires_review supplier;
     LegacySupplier.reason := SupplierAudit.reason supplier;
     LegacySupplier.first_seen := py_min dates;
     LegacySupplier.last_seen := py_max dates;
     LegacySupplier.trade_count := length supplier_rows |}.

Definition client_record (client : ClientAudit.t (list string)) : LegacyClient.t :=
  {| LegacyClient.id := "";
     LegacyClient.client_clean := ClientAudit.client_clean client;
     LegacyClient.raw_variants := ClientAudit.raw_variants client;
     LegacyClient.client_status := Str.join ", " (ClientAudit.client_statuses client);
     LegacyClient.first_seen := ClientAudit.first_seen client;
     LegacyClient.last_seen := ClientAudit.last_seen client;
     LegacyClient.trade_count := ClientAudit.trade_count client;
     LegacyClient.requires_review := ClientAudit.requires_review client |}.

Definition trade_record (row : RawRow) : option LegacyTrade.t :=
  match infer_category row with
  | Return category =>
      Some {| LegacyTrade.id := "";
              LegacyTrade.invoice_number := invoice_number row;
              LegacyTrade.trade_date := date row;
              LegacyTrade.raw_client := client_raw row;
              LegacyTrade.raw_supplier := supplier_raw row;
              LegacyTrade.client_id := "";
              LegacyTrade.supplier_id := "";
              LegacyTrade.item := item_raw row;
              LegacyTrade.brand := brand_raw row;
              LegacyTrade.category := title_case category;
              LegacyTrade.buy_price := buy_price_raw row;
              LegacyTrade.sell_price := sell_price_raw row;
              LegacyTrade.margin :=
                if float_is_zero (margin_raw row)
                then float_sub (sell_price_raw row) (buy_price_raw row)
                else margin_raw row;
              LegacyTrade.source := source row;
              LegacyTrade.raw_row := row |}
  | Raise _ => None
  end.

(** The text [YYYY-MM-DD] of a date. *)
Definition iso_date (y m d : Z) : string :=
  Calendar.num 4 y +:+ "-" +:+ Calendar.num 2 m +:+ "-" +:+ Calendar.num 2 d.

(** The parser answers with the date [s]. *)
Definition gives (o : outcome (option string)) (s : string) : bool :=
  match o with
  | Return (Some s') => String.eqb s' s
  | _ => false
  end.

(** The count of days from 1899-12-30 to the date and the text of the date
    are both read as the date. *)
Definition serial_agrees (y m d : Z) : bool :=
  gives (parse_excel_date (VInt (Calendar.ymd2ord y m d - epoch_ordinal))) (iso_date y m d)
  && gives (parse_excel_date (VStr (iso_date y m d))) (iso_date y m d).

(** A row filled up with empty cells to the eleven columns the ingestor
    reads. *)
Definition pad_row (row : list pyval) : list pyval :=
  (row ++ replicate (11 - length row) VNone)%list.

(** The text without the characters that satisfy [p]. *)
Fixpoint without_chars (p : ascii → bool) (s : string) : string :=
  match s with
  | "" => ""
  | String c s' => if p c then without_chars p s' else String c (without_chars p s')
  end.

(** The character [c] occurs in the text. *)
Fixpoint occurs (c : ascii) (s : string) : bool :=
  match s with
  | "" => false
  | String c' s' => bool_decide (c' = c) || occurs c s'
  end.

(** A sheet with a header and one row whose only filled cells are the
    three prices. *)
Definition prices_sheet (buy sell margin : pyval) : list (list pyval) :=
  [[VStr "Date"; VStr "Invoice"; VStr "Client"];
   [VNone; VNone; VNone; VNone; VNone; VNone; VNone; VNone; buy; sell; margin]].

(** A date whose text has the fixed width of [YYYY-MM-DD]: the fields are
    in the ranges of the calendar. *)
Definition valid_date (dt : datetime) : Prop :=
  (1 ≤ year dt ≤ 9999 ∧ 1 ≤ month dt ≤ 12 ∧ 1 ≤ day dt ≤ 31)%Z.

(** A cell as [openpyxl] hands it out: a [datetime] in it is a date of the
    calendar. *)
Definition valid_cell (v : pyval) : Prop :=
  match v with
  | VDatetime dt => valid_date dt
  | _ => True
  end.

(** The first date is earlier in the calendar than the second. *)
Definition date_before (d1 d2 : datetime) : bool :=
  ((year d1 <? year d2)
   || (year d1 =? year d2)
      && ((month d1 <? month d2) || (month d1 =? month d2) && (day d1 <? day d2)))%Z.

(** The numbers from [lo] on, [len] of them, written with [width] digits:
    each text is below the text of the next number, and each has the
    width. *)
Definition ascending (width : nat) (lo len : Z) : bool :=
  forallb (fun n =>
    match String.compare (Calendar.num width n) (Calendar.num width (n + 1)) with
    | Lt => true
    | _ => false
    end) (seqZ lo len).

Definition of_width (width : nat) (lo len : Z) : bool :=
  forallb (fun n => (String.length (Calendar.num width n) =? width)%nat) (seqZ lo len).

(** The members of a list in the order in which they first occur. *)
Fixpoint first_occurrences (l : list string) : list string :=
  match l with
  | [] => []
  | x :: l' => x :: filter (fun y => y ≠ x) (first_occurrences l')
  end.

(** A row without its position in the sheet. *)
Definition without_number (r : RawRow) : RawRow :=
  {| date := date r; invoice_number := invoice_number r; client_raw := client_raw r;
     client_status_raw := client_status_raw r; supplier_raw := supplier_raw r;
     item_raw := item_raw r; brand_raw := brand_raw r; category_raw := category_raw r;
     buy_price_raw := buy_price_raw r; sell_price_raw := sell_price_raw r;
     margin_raw := margin_raw r; source := source r; row_number := 0 |}.

(** A trade without the position of its row. *)
Definition trade_without_number (t : LegacyTrade.t) : LegacyTrade.t :=
  {| LegacyTrade.id := LegacyTrade.id t;
     LegacyTrade.invoice_number := LegacyTrade.invoice_number t;
     LegacyTrade.trade_date := LegacyTrade.trade_date t;
     LegacyTrade.raw_client := LegacyTrade.raw_client t;
     LegacyTrade.raw_supplier := LegacyTrade.raw_supplier t;
     LegacyTrade.client_id := LegacyTrade.client_id t;
     LegacyTrade.supplier_id := LegacyTrade.supplier_id t;
     LegacyTrade.item := LegacyTrade.item t;
     LegacyTrade.brand := LegacyTrade.brand t;
     LegacyTrade.category := LegacyTrade.category t;
     LegacyTrade.buy_price := LegacyTrade.buy_price t;
     LegacyTrade.sell_price := LegacyTrade.sell_price t;
     LegacyTrade.margin := LegacyTrade.margin t;
     LegacyTrade.source := LegacyTrade.source t;
     LegacyTrade.raw_row := without_number (LegacyTrade.raw_row t) |}.

(** * Properties *)

(** ** The model on small inputs *)

Example strip_ex : Str.strip "  Acme Ltd  " = "Acme Ltd".
Proof. reflexivity. Qed.

Example split_ex : Str.split " leather  tote bag " = ["leather"; "tote"; "bag"].
Proof. reflexivity. Qed.

Example lower_ex : Str.lower "ACME Ltd" = "acme ltd".
Proof. reflexivity. Qed.

Example replace_ex : Str.replace "," "" "1,234,5" = "12345".
Proof. reflexivity. Qed.

Example epoch_ordinal_ex : Calendar.toordinal Calendar.excel_epoch = 693594%Z.
Proof. reflexivity. Qed.

Example ord2ymd_ex : Calendar.ord2ymd 737791 = (2021, 1, 1)%Z.
Proof. reflexivity. Qed.

Example ord2ymd_leap : Calendar.ord2ymd (Calendar.ymd2ord 2024 2 29) = (2024, 2, 29)%Z.
Proof. reflexivity. Qed.

Example ord2ymd_last : Calendar.ord2ymd Calendar.MAXORDINAL = (9999, 12, 31)%Z.
Proof. reflexivity. Qed.

Example strftime_ex :
  Calendar.strftime_Ymd {| year := 1987; month := 3; day := 9;
                           hour := 0; minute := 0; second := 0; microsecond := 0 |}
  = "1987-03-09".
Proof. reflexivity. Qed.

Example strptime_iso :
  Calendar.strftime_Ymd <$> Strptime.strptime "2021-01-01" Strptime.fmt_Ymd
  = Return "2021-01-01".
Proof. reflexivity. Qed.

Example strptime_short_year :
  Calendar.strftime_Ymd <$> Strptime.strptime "5/3/69" Strptime.fmt_dmy
  = Return "1969-03-05".
Proof. reflexivity. Qed.

Example strptime_no_such_day :
  Strptime.strptime "31/02/2021" Strptime.fmt_dmY = Raise ValueError.
Proof. reflexivity. Qed.

Example strptime_trailing :
  Strptime.strptime "2021-01-123" Strptime.fmt_Ymd = Raise ValueError.
Proof. reflexivity. Qed.

Example parse_date_serial :
  parse_excel_date (VInt 44197) = Return (Some "2021-01-01").
Proof. reflexivity. Qed.

Example price_text_ex : price_text " £1,234.50 " = "1234.50".
Proof. reflexivity. Qed.

Example title_case_ex : title_case "leather  TOTE bag" = "Leather Tote Bag".
Proof. reflexivity. Qed.

Example normalize_merge :
  normalize_supplier (Some "Galaxy Vic")
  = {| nr_clean := "Galaxy VIC"; nr_requires_review := false; nr_reason := None |}.
Proof. reflexivity. Qed.

Example normalize_review :
  normalize_supplier (Some "TSUM")
  = {| nr_clean := "TSUM"; nr_requires_review := true;
       nr_reason := Some "Ambiguous supplier name" |}.
Proof. reflexivity. Qed.

Example normalize_space_sensitive :
  normalize_supplier (Some "Galaxy ")
  = {| nr_clean := "Galaxy "; nr_requires_review := false; nr_reason := None |}.
Proof. reflexivity. Qed.

Example normalize_case_sensitive :
  normalize_supplier (Some "galaxy")
  = {| nr_clean := "galaxy"; nr_requires_review := false; nr_reason := None |}.
Proof. reflexivity. Qed.

(** ** Supplier normalizer *)

Lemma merge_table_empty : SUPPLIER_AUTO_MERGE !! "" = None.
Proof. reflexivity. Qed.

Lemma normalize_supplier_text (c : ascii) (s : string) :
  normalize_supplier (Some (String c s)) =
  match SUPPLIER_AUTO_MERGE !! String c s with
  | Some merged =>
      {| nr_clean := merged; nr_requires_review := false; nr_reason := None |}
  | None =>
      if bool_decide (String c s ∈ SUPPLIER_REQUIRES_REVIEW) then
        {| nr_clean := String c s; nr_requires_review := true;
           nr_reason := Some "Ambiguous supplier name" |}
      else
        {| nr_clean := String c s; nr_requires_review := false; nr_reason := None |}
  end.
Proof. reflexivity. Qed.

(** C1. [normalize_supplier] applies its four rules in priority order: an
    empty or null label gives ["Unknown"], flagged, with the reason
    ["Empty supplier"]; otherwise an exact hit in the merge table gives the
    mapped name, not flagged; otherwise an exact hit in the review list gives
    the label unchanged, flagged, with the reason ["Ambiguous supplier name"];
    otherwise the label is returned unchanged and not flagged. *)
Theorem normalize_supplier_rules (raw : option string) :
  (raw = None ∨ raw = Some "" →
     normalize_supplier raw =
     {| nr_clean := "Unknown"; nr_requires_review := true;
        nr_reason := Some "Empty supplier" |}) ∧
  (∀ s merged, raw = Some s → SUPPLIER_AUTO_MERGE !! s = Some merged →
     normalize_supplier raw =
     {| nr_clean := merged; nr_requires_review := false; nr_reason := None |}) ∧
  (∀ s, raw = Some s → SUPPLIER_AUTO_MERGE !! s = None →
     s ∈ SUPPLIER_REQUIRES_REVIEW →
     normalize_supplier raw =
     {| nr_clean := s; nr_requires_review := true;
        nr_reason := Some "Ambiguous supplier name" |}) ∧
  (∀ s, raw = Some s → s ≠ "" → SUPPLIER_AUTO_MERGE !! s = None →
     s ∉ SUPPLIER_REQUIRES_REVIEW →
     normalize_supplier raw =
     {| nr_clean := s; nr_requires_review := false; nr_reason := None |}).
Proof.
  split; [|split; [|split]].
  - intros [-> | ->]; reflexivity.
  - intros s merged -> Hm. destruct s as [|c s].
    + rewrite merge_table_empty in Hm. discriminate.
    + rewrite normalize_supplier_text, Hm. reflexivity.
  - intros s -> Hm Hr. destruct s as [|c s].
    + exfalso. revert Hr. unfold SUPPLIER_REQUIRES_REVIEW.
      rewrite !elem_of_cons, elem_of_nil. intros [?|[?|[?|[]]]]; discriminate.
    + rewrite normalize_supplier_text, Hm, bool_decide_true by done. reflexivity.
  - intros s -> Hne Hm Hr. destruct s as [|c s]; [done|].
    rewrite normalize_supplier_text, Hm, bool_decide_false by done. reflexivity.
Qed.

Lemma normalize_supplier_rules_witness :
  normalize_supplier None =
    {| nr_clean := "Unknown"; nr_requires_review := true;
       nr_reason := Some "Empty supplier" |} ∧
  normalize_supplier (Some "In Stock") =
    {| nr_clean := "Stock (Internal)"; nr_requires_review := false; nr_reason := None |} ∧
  normalize_supplier (Some "LOCAL") =
    {| nr_clean := "LOCAL"; nr_requires_review := true;
       nr_reason := Some "Ambiguous supplier name" |} ∧
  normalize_supplier (Some "in stock") =
    {| nr_clean := "in stock"; nr_requires_review := false; nr_reason := None |}.
Proof.
  split; [|split; [|split]].
  - apply (normalize_supplier_rules None). left. reflexivity.
  - apply (normalize_supplier_rules (Some "In Stock")) with (s := "In Stock");
      reflexivity.
  - apply (normalize_supplier_rules (Some "LOCAL")); [reflexivity..|].
    apply (bool_decide_unpack _). vm_compute. exact I.
  - apply (normalize_supplier_rules (Some "in stock")); [reflexivity| |reflexivity|].
    + discriminate.
    + apply (bool_decide_unpack _). vm_compute. exact I.
Defined.

(** ** Dictionaries *)

Section dict_facts.
Context {V : Type}.
Implicit Types (d : dict V) (k : string) (v : V).

Lemma od_get_None d k : od_get k d = None ↔ k ∉ od_keys d.
Proof.
  induction d as [|[k' v'] d IH]; simpl.
  - split; [intros _; apply not_elem_of_nil | done].
  - rewrite not_elem_of_cons. destruct (decide (k = k')) as [->|Hne].
    + split; [done|]. intros [? _]. done.
    + rewrite IH. split; [done|]. by intros [_ ?].
Qed.

Lemma od_get_Some_elem d k v : od_get k d = Some v → (k, v) ∈ d.
Proof.
  induction d as [|[k' v'] d IH]; simpl; [done|].
  destruct (decide (k = k')) as [->|]; intros ?; simplify_eq.
  - apply list_elem_of_here.
  - apply list_elem_of_further; auto.
Qed.

Lemma od_elem_get d k v : NoDup (od_keys d) → (k, v) ∈ d → od_get k d = Some v.
Proof.
  induction d as [|[k' v'] d IH]; simpl.
  - intros _ H. by apply elem_of_nil in H.
  - rewrite NoDup_cons. intros [Hk Hd] [?|Hin]%elem_of_cons; simplify_eq.
    + by rewrite decide_True.
    + rewrite decide_False; [auto|]. intros ->. apply Hk.
      apply list_elem_of_fmap. by exists (k', v).
Qed.

Lemma od_get_set d k k' v :
  od_get k (od_set k' v d) = if decide (k = k') then Some v else od_get k d.
Proof.
  induction d as [|[k'' v''] d IH]; simpl.
  - destruct (decide (k = k')); done.
  - destruct (decide (k' = k'')) as [->|]; simpl.
    + destruct (decide (k = k'')); done.
    + destruct (decide (k = k'')) as [->|]; [by rewrite decide_False|done].
Qed.

Lemma od_get_alter (f : V → V) d k k' :
  od_get k (od_alter f k' d) = if decide (k = k') then f <$> od_get k d else od_get k d.
Proof.
  induction d as [|[k'' v''] d IH]; simpl.
  - destruct (decide (k = k')); done.
  - destruct (decide (k' = k'')) as [->|]; simpl.
    + destruct (decide (k = k'')); done.
    + destruct (decide (k = k'')) as [->|]; [by rewrite decide_False|done].
Qed.

Lemma od_keys_alter (f : V → V) d k : od_keys (od_alter f k d) = od_keys d.
Proof.
  unfold od_keys. induction d as [|[k' v'] d IH]; simpl; [done|].
  destruct (decide (k = k')); csimpl; [done|]. by rewrite IH.
Qed.

Lemma od_keys_set_new d k v : od_get k d = None → od_keys (od_set k v d) = (od_keys d ++ [k])%list.
Proof.
  unfold od_keys. induction d as [|[k' v'] d IH]; simpl; [done|].
  destruct (decide (k = k')); [done|]. intros H. csimpl. by rewrite IH.
Qed.

Lemma od_keys_set_old d k v : is_Some (od_get k d) → od_keys (od_set k v d) = od_keys d.
Proof.
  unfold od_keys. induction d as [|[k' v'] d IH]; simpl; [by intros [? ?]|].
  destruct (decide (k = k')) as [->|]; [done|]. intros H. csimpl. by rewrite IH.
Qed.

Lemma od_keys_set_NoDup d k v : NoDup (od_keys d) → NoDup (od_keys (od_set k v d)).
Proof.
  intros Hd. destruct (od_get k d) as [v'|] eqn:Hk.
  - by rewrite od_keys_set_old.
  - rewrite od_keys_set_new by done. apply NoDup_app. split; [done|]. split.
    + intros x Hx ->%list_elem_of_singleton. by apply od_get_None in Hk.
    + apply NoDup_singleton.
Qed.

Lemma od_get_fmap {W} (f : V → W) d k :
  od_get k (prod_map id f <$> d) = f <$> od_get k d.
Proof.
  induction d as [|[k' v'] d IH]; simpl; [done|].
  destruct (decide (k = k')); done.
Qed.

Lemma od_keys_fmap {W} (f : V → W) d : od_keys (prod_map id f <$> d) = od_keys d.
Proof.
  unfold od_keys. rewrite <- list_fmap_compose. apply list_fmap_ext.
  by intros ? [? ?].
Qed.

End dict_facts.

(** Two dictionaries with the same entries hold them in some order. *)
Lemma od_Permutation {V} (d1 d2 : dict V) :
  NoDup (od_keys d1) → NoDup (od_keys d2) →
  (∀ k, od_get k d1 = od_get k d2) → d1 ≡ₚ d2.
Proof.
  intros H1 H2 Heq. apply NoDup_Permutation.
  - eapply NoDup_fmap_1, H1.
  - eapply NoDup_fmap_1, H2.
  - intros [k v]. split; intros Hin.
    + apply od_get_Some_elem. rewrite <- Heq. by apply od_elem_get.
    + apply od_get_Some_elem. rewrite Heq. by apply od_elem_get.
Qed.

(** ** Grouping *)

Section group_facts.
Context {R E : Type} (key : R → string) (init : R → E) (upd : R → E → E).
Implicit Types (d : dict E) (r : R) (k : string).

Lemma group_step_get d r k :
  od_get k (group_step key init upd d r) =
  if decide (k = key r) then Some (upd r (default (init r) (od_get k d)))
  else od_get k d.
Proof.
  unfold group_step. rewrite od_get_alter.
  destruct (decide (k = key r)) as [->|Hne].
  - destruct (od_get (key r) d) as [e|] eqn:Hk; simpl.
    + by rewrite Hk.
    + by rewrite od_get_set, decide_True.
  - destruct (od_get (key r) d); [done|]. by rewrite od_get_set, decide_False.
Qed.

Lemma group_step_NoDup d r :
  NoDup (od_keys d) → NoDup (od_keys (group_step key init upd d r)).
Proof.
  intros Hd. unfold group_step. rewrite od_keys_alter.
  destruct (od_get (key r) d); [done|]. by apply od_keys_set_NoDup.
Qed.

Lemma group_fold_NoDup rows d :
  NoDup (od_keys d) → NoDup (od_keys (foldl (group_step key init upd) d rows)).
Proof.
  revert d. induction rows as [|r rows IH]; intros d Hd; simpl; [done|].
  by apply IH, group_step_NoDup.
Qed.

(** The entry of a key after the loop: the updates from the rows of its
    group, in their order, on the entry it had or on the fresh entry of the
    first row of the group. *)
Lemma group_fold_get rows d k :
  od_get k (foldl (group_step key init upd) d rows) =
  match od_get k d, group_of key k rows with
  | Some e, g => Some (foldl (fun e r => upd r e) e g)
  | None, r0 :: g => Some (foldl (fun e r => upd r e) (init r0) (r0 :: g))
  | None, [] => None
  end.
Proof.
  revert d. induction rows as [|r rows IH]; intros d; simpl.
  - by destruct (od_get k d).
  - rewrite IH, group_step_get. unfold group_of. rewrite filter_cons.
    destruct (decide (k = key r)) as [->|Hne].
    + rewrite decide_True by done. by destruct (od_get (key r) d).
    + rewrite decide_False by done. done.
Qed.

Lemma group_fold_get_empty rows k :
  od_get k (foldl (group_step key init upd) [] rows) =
  match group_of key k rows with
  | r0 :: g => Some (foldl (fun e r => upd r e) (init r0) (r0 :: g))
  | [] => None
  end.
Proof. by rewrite group_fold_get. Qed.

End group_facts.

Lemma group_of_elem {R} (key : R → string) k rows r :
  r ∈ group_of key k rows ↔ r ∈ rows ∧ key r = k.
Proof. unfold group_of. rewrite list_elem_of_filter. tauto. Qed.

Lemma group_of_Permutation {R} (key : R → string) k rows rows' :
  rows ≡ₚ rows' → group_of key k rows ≡ₚ group_of key k rows'.
Proof. intros H. unfold group_of. by rewrite H. Qed.

(** ** Sorted lists of a set *)

Lemma sorted_Permutation (s : gset string) : sorted s ≡ₚ elements s.
Proof. apply merge_sort_Permutation. Qed.

Lemma sorted_elem (s : gset string) (x : string) : x ∈ sorted s ↔ x ∈ s.
Proof. by rewrite sorted_Permutation, elem_of_elements. Qed.

Lemma sorted_NoDup (s : gset string) : NoDup (sorted s).
Proof. rewrite sorted_Permutation. apply NoDup_elements. Qed.

Lemma sorted_Sorted (s : gset string) : StronglySorted String.le (sorted s).
Proof. apply StronglySorted_merge_sort; apply _. Qed.

Lemma sorted_length (s : gset string) : length (sorted s) = size s.
Proof. by rewrite sorted_Permutation. Qed.

(** A set has more than one member exactly when two of its members
    differ. *)
Lemma size_gt_1 (s : gset string) : 1 < size s ↔ ∃ x y, x ∈ s ∧ y ∈ s ∧ x ≠ y.
Proof.
  split.
  - intros Hs. destruct (set_choose_L s) as [x Hx].
    { intros ->. rewrite size_empty in Hs. lia. }
    destruct (decide (s = {[x]})) as [->|Hne].
    { rewrite size_singleton in Hs. lia. }
    destruct (set_choose_L (s ∖ {[x]})) as [y Hy].
    { intros He. apply Hne. apply set_eq. intros z.
      assert (z ∉ s ∖ {[x]}) as Hz by (rewrite He; set_solver).
      destruct (decide (z = x)); set_solver. }
    exists x, y. set_solver.
  - intros (x & y & Hx & Hy & Hne).
    assert ({[x; y]} ⊆ s) as Hsub by set_solver.
    apply subseteq_size in Hsub. rewrite size_union in Hsub by set_solver.
    rewrite !size_singleton in Hsub. lia.
Qed.

(** ** Supplier aggregation *)

Lemma supplier_step_split m a row :
  supplier_step (m, a) row =
  (supplier_map_step m row, group_step supplier_key supplier_init supplier_upd a row).
Proof. reflexivity. Qed.

Lemma supplier_fold_split rows m a :
  foldl supplier_step (m, a) rows =
  (foldl supplier_map_step m rows,
   foldl (group_step supplier_key supplier_init supplier_upd) a rows).
Proof.
  revert m a. induction rows as [|r rows IH]; intros m a; [done|].
  cbn [foldl]. rewrite supplier_step_split. apply IH.
Qed.

Lemma build_supplier_data_eq all_rows :
  build_supplier_data all_rows =
  (foldl supplier_map_step [] all_rows,
   prod_map id supplier_emit <$>
     foldl (group_step supplier_key supplier_init supplier_upd) [] all_rows).
Proof. unfold build_supplier_data. by rewrite supplier_fold_split. Qed.

Lemma supplier_map_fold_get rows m s :
  od_get s (foldl supplier_map_step m rows) =
  if decide (s ∈ supplier_raw_or_unknown <$> rows)
  then Some (normalize_supplier (Some s)) else od_get s m.
Proof.
  revert m. induction rows as [|r rows IH]; intros m; [done|].
  cbn [foldl]. rewrite IH. unfold supplier_map_step. rewrite od_get_set. csimpl.
  destruct (decide (s ∈ supplier_raw_or_unknown <$> rows)) as [Hin|Hin].
  - rewrite decide_True; [done|]. by apply list_elem_of_further.
  - destruct (decide (s = supplier_raw_or_unknown r)) as [->|Hne].
    + rewrite decide_True; [done|]. apply list_elem_of_here.
    + rewrite decide_False; [done|]. rewrite elem_of_cons. tauto.
Qed.

Lemma supplier_upd_fold g e :
  let e' := foldl (fun e r => supplier_upd r e) e g in
  SupplierAudit.clean_name e' = SupplierAudit.clean_name e ∧
  SupplierAudit.raw_variants e' =
    list_to_set (supplier_raw_or_unknown <$> g) ∪ SupplierAudit.raw_variants e ∧
  SupplierAudit.sources e' = list_to_set (source <$> g) ∪ SupplierAudit.sources e ∧
  SupplierAudit.rows e' = (SupplierAudit.rows e ++ (row_number <$> g))%list ∧
  SupplierAudit.requires_review e' = SupplierAudit.requires_review e ∧
  SupplierAudit.reason e' = SupplierAudit.reason e.
Proof.
  revert e. induction g as [|r g IH]; intros e; simpl.
  - rewrite app_nil_r. repeat split; try done; set_solver.
  - destruct (IH (supplier_upd r e)) as (-> & -> & -> & -> & -> & ->). simpl.
    rewrite <- app_assoc. repeat split; try done; set_solver.
Qed.

Lemma merge_values s merged :
  SUPPLIER_AUTO_MERGE !! s = Some merged →
  merged ∈ ["Galaxy VIC"; "Stock (Internal)"; "Bags by Appointment"].
Proof.
  unfold SUPPLIER_AUTO_MERGE. intros H%elem_of_list_to_map_2.
  repeat (apply elem_of_cons in H as [H|H]; [injection H as _ ->; set_solver|]).
  by apply elem_of_nil in H.
Qed.

Lemma review_list s :
  s ∈ SUPPLIER_REQUIRES_REVIEW ↔ s = "L19 STOCK" ∨ s = "LOCAL" ∨ s = "TSUM".
Proof. unfold SUPPLIER_REQUIRES_REVIEW. set_solver. Qed.

Lemma merged_not_reviewed s :
  s ∈ ["Galaxy VIC"; "Stock (Internal)"; "Bags by Appointment"] →
  s ∈ SUPPLIER_REQUIRES_REVIEW → False.
Proof.
  intros Hm Hr. apply review_list in Hr.
  repeat (apply elem_of_cons in Hm as [->|Hm];
          [destruct Hr as [Hr|[Hr|Hr]]; discriminate Hr|]).
  by apply elem_of_nil in Hm.
Qed.

(** The canonical name of a label that is not empty: its entry in the
    merge table, or the label itself. *)
Lemma normalize_supplier_clean s :
  s ≠ "" →
  nr_clean (normalize_supplier (Some s)) = default s (SUPPLIER_AUTO_MERGE !! s).
Proof.
  intros Hs. destruct s as [|c s]; [done|]. rewrite normalize_supplier_text.
  destruct (SUPPLIER_AUTO_MERGE !! String c s); [done|].
  by destruct (bool_decide _).
Qed.

(** Only the label ["Unknown"] itself has the canonical name ["Unknown"]. *)
Lemma normalize_supplier_unknown s :
  s ≠ "" → nr_clean (normalize_supplier (Some s)) = "Unknown" → s = "Unknown".
Proof.
  intros Hs. rewrite normalize_supplier_clean by done.
  destruct (SUPPLIER_AUTO_MERGE !! s) as [merged|] eqn:Hm; simpl; [|done].
  intros ->. apply merge_values in Hm. set_solver.
Qed.

(** The flag and the reason depend on the canonical name only. *)
Lemma normalize_supplier_flag s1 s2 :
  s1 ≠ "" → s2 ≠ "" →
  nr_clean (normalize_supplier (Some s1)) = nr_clean (normalize_supplier (Some s2)) →
  normalize_supplier (Some s1) = normalize_supplier (Some s2).
Proof.
  intros H1 H2. destruct s1 as [|c1 s1]; [done|]. destruct s2 as [|c2 s2]; [done|].
  rewrite !normalize_supplier_text.
  destruct (SUPPLIER_AUTO_MERGE !! String c1 s1) as [m1|] eqn:Hm1;
    destruct (SUPPLIER_AUTO_MERGE !! String c2 s2) as [m2|] eqn:Hm2.
  - simpl. by intros ->.
  - apply merge_values in Hm1.
    destruct (bool_decide (String c2 s2 ∈ _)) eqn:Hr; simpl; intros ->.
    + apply bool_decide_eq_true in Hr. by destruct (merged_not_reviewed _ Hm1 Hr).
    + done.
  - apply merge_values in Hm2.
    destruct (bool_decide (String c1 s1 ∈ _)) eqn:Hr; simpl; intros <-.
    + apply bool_decide_eq_true in Hr. by destruct (merged_not_reviewed _ Hm2 Hr).
    + done.
  - destruct (bool_decide (String c1 s1 ∈ _)) eqn:Hr1;
      destruct (bool_decide (String c2 s2 ∈ _)) eqn:Hr2; simpl; intros Heq;
      rewrite Heq in *; congruence.
Qed.

Lemma supplier_raw_or_unknown_ne row : supplier_raw_or_unknown row ≠ "".
Proof. unfold supplier_raw_or_unknown. by case_bool_decide. Qed.

(** The aggregation and the join give a row the same canonical supplier. *)
Lemma supplier_key_join row : supplier_key row = trade_supplier_key row.
Proof.
  unfold supplier_key, trade_supplier_key, supplier_raw_or_unknown.
  case_bool_decide as Hs; [by rewrite Hs|done].
Qed.

(** The entry of a canonical supplier in the audit table. *)
Lemma supplier_audit_get all_rows k :
  od_get k (build_supplier_data all_rows).2 =
  match group_of supplier_key k all_rows with
  | [] => None
  | r0 :: g =>
      Some {| SupplierAudit.clean_name := k;
              SupplierAudit.raw_variants :=
                sorted (list_to_set (supplier_raw_or_unknown <$> r0 :: g));
              SupplierAudit.sources := sorted (list_to_set (source <$> r0 :: g));
              SupplierAudit.rows := row_number <$> r0 :: g;
              SupplierAudit.requires_review :=
                nr_requires_review (normalize_supplier (Some (supplier_raw_or_unknown r0)));
              SupplierAudit.reason :=
                default "" (nr_reason (normalize_supplier (Some (supplier_raw_or_unknown r0)))) |}
  end.
Proof.
  rewrite build_supplier_data_eq. cbn [snd]. rewrite od_get_fmap, group_fold_get_empty.
  destruct (group_of supplier_key k all_rows) as [|r0 g] eqn:Hg; [done|].
  assert (supplier_key r0 = k) as Hk.
  { assert (r0 ∈ group_of supplier_key k all_rows) as Hin by (rewrite Hg; left).
    by apply group_of_elem in Hin as [_ ?]. }
  destruct (supplier_upd_fold (r0 :: g) (supplier_init r0)) as (H1 & H2 & H3 & H4 & H5 & H6).
  cbn [fmap option_fmap option_map]. unfold supplier_emit.
  rewrite H1, H2, H3, H4, H5, H6. cbn [supplier_init SupplierAudit.clean_name
    SupplierAudit.raw_variants SupplierAudit.sources SupplierAudit.rows
    SupplierAudit.requires_review SupplierAudit.reason].
  rewrite !(right_id_L ∅ (∪)). by rewrite <- Hk.
Qed.

Lemma supplier_audit_NoDup all_rows : NoDup (od_keys (build_supplier_data all_rows).2).
Proof.
  rewrite build_supplier_data_eq. cbn [snd]. rewrite od_keys_fmap.
  apply group_fold_NoDup. constructor.
Qed.

(** The normalisation map holds, under each label met in the loop (the
    empty one replaced by ["Unknown"]), what [normalize_supplier] says of
    it. *)
Lemma supplier_map_get all_rows s :
  od_get s (build_supplier_data all_rows).1 =
  if decide (s ∈ supplier_raw_or_unknown <$> all_rows)
  then Some (normalize_supplier (Some s)) else None.
Proof. rewrite build_supplier_data_eq. cbn [fst]. apply supplier_map_fold_get. Qed.

(** C2, as the code has it. For every row of the input, the aggregation
    files the row under the canonical supplier name that the trade join
    computes for it (also for an empty label: ["Unknown"] both times). The
    normalisation map has, for a label that is not empty, an entry under the
    label whose value is [normalize_supplier] of it; an empty label is
    entered under the key ["Unknown"] with [normalize_supplier("Unknown")],
    and the map never has an entry under the empty text. *)
Theorem supplier_classification_consistent (all_rows : list RawRow) (row : RawRow) :
  row ∈ all_rows →
  (supplier_key row = trade_supplier_key row ∧
   ∃ e, od_get (trade_supplier_key row) (build_supplier_data all_rows).2 = Some e ∧
        SupplierAudit.clean_name e = trade_supplier_key row ∧
        row_number row ∈ SupplierAudit.rows e ∧
        supplier_raw_or_unknown row ∈ SupplierAudit.raw_variants e) ∧
  (supplier_raw row ≠ "" →
   od_get (supplier_raw row) (build_supplier_data all_rows).1
   = Some (normalize_supplier (Some (supplier_raw row)))) ∧
  (supplier_raw row = "" →
   od_get "Unknown" (build_supplier_data all_rows).1
   = Some (normalize_supplier (Some "Unknown"))) ∧
  od_get "" (build_supplier_data all_rows).1 = None.
Proof.
  intros Hrow. split; [|split; [|split]].
  - split; [apply supplier_key_join|].
    rewrite supplier_audit_get.
    assert (row ∈ group_of supplier_key (trade_supplier_key row) all_rows) as Hin.
    { apply group_of_elem. split; [done|apply supplier_key_join]. }
    destruct (group_of supplier_key (trade_supplier_key row) all_rows) as [|r0 g];
      [by apply elem_of_nil in Hin|].
    eexists. split; [done|].
    cbn [SupplierAudit.clean_name SupplierAudit.rows SupplierAudit.raw_variants].
    split; [done|]. split.
    + apply (list_elem_of_fmap_2 row_number) in Hin. exact Hin.
    + apply sorted_elem, elem_of_list_to_set.
      apply (list_elem_of_fmap_2 supplier_raw_or_unknown) in Hin. exact Hin.
  - intros Hs. rewrite supplier_map_get, decide_True; [done|].
    apply list_elem_of_fmap. exists row. split; [|done].
    unfold supplier_raw_or_unknown. by rewrite bool_decide_false.
  - intros Hs. rewrite supplier_map_get, decide_True; [done|].
    apply list_elem_of_fmap. exists row. split; [|done].
    unfold supplier_raw_or_unknown. by rewrite bool_decide_true.
  - rewrite supplier_map_get, decide_False; [done|].
    intros (r & Hr & _)%list_elem_of_fmap. symmetry in Hr.
    by apply supplier_raw_or_unknown_ne in Hr.
Qed.

Lemma supplier_classification_consistent_witness :
  let rows := [sample_row "Acme" "Active" "Galaxy" "Hope" 2;
               sample_row "Acme" "Active" "" "MC" 2] in
  od_get "Galaxy" (build_supplier_data rows).1 = Some (normalize_supplier (Some "Galaxy")) ∧
  od_get "Unknown" (build_supplier_data rows).1 = Some (normalize_supplier (Some "Unknown")).
Proof.
  intros rows. split.
  - apply (supplier_classification_consistent rows (sample_row "Acme" "Active" "Galaxy" "Hope" 2)).
    + apply list_elem_of_here.
    + simpl. discriminate.
  - apply (supplier_classification_consistent rows (sample_row "Acme" "Active" "" "MC" 2)).
    + apply list_elem_of_further, list_elem_of_here.
    + reflexivity.
Defined.

(** C2 fails on an empty supplier label: the map of a run over one row
    with an empty label has no entry under the empty text; its entry is
    under ["Unknown"], and it is not flagged, while [normalize_supplier] of
    the empty text is flagged with the reason ["Empty supplier"]. *)
Lemma empty_supplier_label_not_in_map :
  let rows := [sample_row "Acme" "Active" "" "Hope" 2] in
  od_get "" (build_supplier_data rows).1 = None ∧
  (build_supplier_data rows).1 =
    [("Unknown", {| nr_clean := "Unknown"; nr_requires_review := false;
                    nr_reason := None |})] ∧
  normalize_supplier (Some "") =
    {| nr_clean := "Unknown"; nr_requires_review := true;
       nr_reason := Some "Empty supplier" |}.
Proof. vm_compute. done. Qed.

(** ** Client aggregation *)

Lemma client_step_group a row :
  client_step a row = group_step client_key client_init client_upd a row.
Proof. reflexivity. Qed.

Lemma client_fold_group rows a :
  foldl client_step a rows = foldl (group_step client_key client_init client_upd) a rows.
Proof.
  revert a. induction rows as [|r rows IH]; intros a; [done|].
  cbn [foldl]. rewrite client_step_group. apply IH.
Qed.

Lemma client_upd_fold g e :
  let e' := foldl (fun e r => client_upd r e) e g in
  ClientAudit.client_clean e' = ClientAudit.client_clean e ∧
  ClientAudit.raw_variants e' =
    list_to_set (client_raw_or_unknown <$> g) ∪ ClientAudit.raw_variants e ∧
  ClientAudit.client_statuses e' =
    list_to_set (client_status_raw <$> g) ∪ ClientAudit.client_statuses e ∧
  ClientAudit.sources e' = list_to_set (source <$> g) ∪ ClientAudit.sources e ∧
  ClientAudit.first_seen e' =
    foldl (fun s r => track_date String.ltb (date r) s) (ClientAudit.first_seen e) g ∧
  ClientAudit.last_seen e' =
    foldl (fun s r => track_date (fun d o => String.ltb o d) (date r) s)
      (ClientAudit.last_seen e) g ∧
  ClientAudit.trade_count e' = ClientAudit.trade_count e + length g ∧
  ClientAudit.requires_review e' = ClientAudit.requires_review e ∧
  ClientAudit.reason e' = ClientAudit.reason e.
Proof.
  revert e. induction g as [|r g IH]; intros e; cbn [foldl].
  - simpl. repeat split; try done; try lia; set_solver.
  - destruct (IH (client_upd r e)) as (-> & -> & -> & -> & -> & -> & -> & -> & ->).
    simpl. repeat split; try done; try lia; set_solver.
Qed.

Lemma client_audit_get all_rows k :
  od_get k (build_client_data all_rows) =
  match group_of client_key k all_rows with
  | [] => None
  | r0 :: g => Some (client_emit (client_group_entry k (r0 :: g)))
  end.
Proof.
  unfold build_client_data. rewrite client_fold_group, od_get_fmap, group_fold_get_empty.
  destruct (group_of client_key k all_rows) as [|r0 g] eqn:Hg; [done|].
  assert (client_key r0 = k) as Hk.
  { assert (r0 ∈ group_of client_key k all_rows) as Hin by (rewrite Hg; left).
    by apply group_of_elem in Hin as [_ ?]. }
  destruct (client_upd_fold (r0 :: g) (client_init r0))
    as (H1 & H2 & H3 & H4 & H5 & H6 & H7 & H8 & H9).
  cbn [fmap option_fmap option_map]. f_equal. f_equal.
  destruct (foldl _ (client_init r0) (r0 :: g)) as [f1 f2 f3 f4 f5 f6 f7 f8 f9].
  cbn [ClientAudit.client_clean ClientAudit.raw_variants ClientAudit.client_statuses
       ClientAudit.sources ClientAudit.first_seen ClientAudit.last_seen
       ClientAudit.trade_count ClientAudit.requires_review ClientAudit.reason
       client_init] in *.
  unfold client_group_entry. subst.
  rewrite !(right_id_L ∅ (∪)). done.
Qed.

Lemma client_audit_NoDup all_rows : NoDup (od_keys (build_client_data all_rows)).
Proof.
  unfold build_client_data. rewrite client_fold_group, od_keys_fmap.
  apply group_fold_NoDup. constructor.
Qed.

(** Every row is filed under its key. *)
Lemma client_audit_complete all_rows row :
  row ∈ all_rows → is_Some (od_get (client_key row) (build_client_data all_rows)).
Proof.
  intros Hrow. rewrite client_audit_get.
  assert (row ∈ group_of client_key (client_key row) all_rows) as Hin
    by (by apply group_of_elem).
  destruct (group_of client_key (client_key row) all_rows);
    [by apply elem_of_nil in Hin|by eexists].
Qed.

Lemma od_values_elem {V} (d : dict V) (v : V) :
  NoDup (od_keys d) → v ∈ od_values d ↔ ∃ k, od_get k d = Some v.
Proof.
  intros Hd. unfold od_values. rewrite list_elem_of_fmap. split.
  - intros ([k v'] & -> & Hin). exists k. by apply od_elem_get.
  - intros [k Hk]. exists (k, v). split; [done|]. by apply od_get_Some_elem.
Qed.

(** C5. A client group of the audit is flagged for review, with the reason
    ["Multiple statuses: "] followed by its distinct statuses, sorted and
    joined by commas, exactly when two of the rows folded into the group
    carry different [client_status_raw] values (the empty text is a status
    like any other); a group whose rows share one status is not flagged and
    has no reason. *)
Theorem client_review_iff_multiple_statuses
    (all_rows : list RawRow) (e : ClientAudit.t (list string)) :
  e ∈ od_values (build_client_data all_rows) →
  let group := group_of client_key (ClientAudit.client_clean e) all_rows in
  group ≠ [] ∧
  (∀ s, s ∈ ClientAudit.client_statuses e ↔ ∃ r, r ∈ group ∧ client_status_raw r = s) ∧
  StronglySorted String.le (ClientAudit.client_statuses e) ∧
  NoDup (ClientAudit.client_statuses e) ∧
  (ClientAudit.requires_review e = true ↔
     ∃ r1 r2, r1 ∈ group ∧ r2 ∈ group ∧ client_status_raw r1 ≠ client_status_raw r2) ∧
  (ClientAudit.requires_review e = true →
     ClientAudit.reason e
     = Some ("Multiple statuses: " +:+ Str.join ", " (ClientAudit.client_statuses e))) ∧
  (ClientAudit.requires_review e = false → ClientAudit.reason e = None).
Proof.
  intros [k Hk]%od_values_elem; [|apply client_audit_NoDup].
  rewrite client_audit_get in Hk.
  destruct (group_of client_key k all_rows) as [|r0 g] eqn:Hg; [done|].
  injection Hk as <-. cbn [client_emit client_group_entry ClientAudit.client_clean
    ClientAudit.client_statuses ClientAudit.requires_review ClientAudit.reason].
  rewrite Hg. set (grp := r0 :: g). set (S := list_to_set (client_status_raw <$> grp)).
  assert (∀ s, s ∈ sorted S ↔ ∃ r, r ∈ grp ∧ client_status_raw r = s) as Hmem.
  { intros s. unfold S. rewrite sorted_elem, elem_of_list_to_set, list_elem_of_fmap.
    naive_solver. }
  assert (1 < length (sorted S) ↔
          ∃ r1 r2, r1 ∈ grp ∧ r2 ∈ grp ∧ client_status_raw r1 ≠ client_status_raw r2)
    as Hconf.
  { rewrite sorted_length, size_gt_1. split.
    - intros (x & y & Hx & Hy & Hne).
      apply sorted_elem, Hmem in Hx as (r1 & ? & <-).
      apply sorted_elem, Hmem in Hy as (r2 & ? & <-). by exists r1, r2.
    - intros (r1 & r2 & H1 & H2 & Hne).
      exists (client_status_raw r1), (client_status_raw r2).
      split; [|split; [|done]]; apply sorted_elem, Hmem; eauto. }
  split; [done|]. split; [done|]. split; [apply sorted_Sorted|].
  split; [apply sorted_NoDup|].
  case_bool_decide as Hlen.
  - split; [by rewrite <- Hconf|]. split; [done|]. intros ?. discriminate.
  - split; [|split; [intros ?; discriminate|done]].
    rewrite <- Hconf. split; [intros ?; discriminate|done].
Qed.

Lemma client_review_iff_multiple_statuses_witness :
  let rows := [sample_row "Acme Ltd" "Active" "Galaxy" "Hope" 2;
               sample_row " acme ltd" "" "Galaxy" "MC" 2;
               sample_row "Bolt" "Active" "Galaxy" "MC" 3] in
  ∃ e, od_get "acme ltd" (build_client_data rows) = Some e ∧
       ClientAudit.requires_review e = true ∧
       ClientAudit.reason e = Some "Multiple statuses: , Active".
Proof.
  intros rows.
  destruct (client_audit_complete rows (sample_row "Acme Ltd" "Active" "Galaxy" "Hope" 2))
    as [e He]; [apply list_elem_of_here|].
  exists e. split; [exact He|].
  assert (e ∈ od_values (build_client_data rows)) as Hin.
  { apply od_values_elem; [apply client_audit_NoDup|]. eexists. exact He. }
  destruct (client_review_iff_multiple_statuses rows e Hin)
    as (_ & _ & _ & _ & Hiff & Hreason & _).
  assert (ClientAudit.requires_review e = true) as Hrev.
  { vm_compute in He. injection He as <-. reflexivity. }
  split; [exact Hrev|].
  rewrite (Hreason Hrev). vm_compute in He. injection He as <-. reflexivity.
Defined.

(** ** Text *)

Lemma is_space_upper c : Str.is_space (Str.upper_char c) = Str.is_space c.
Proof. destruct c as [[] [] [] [] [] [] [] []]; reflexivity. Qed.

Lemma is_space_lower c : Str.is_space (Str.lower_char c) = Str.is_space c.
Proof. destruct c as [[] [] [] [] [] [] [] []]; reflexivity. Qed.

Lemma upper_char_idem c : Str.upper_char (Str.upper_char c) = Str.upper_char c.
Proof. destruct c as [[] [] [] [] [] [] [] []]; reflexivity. Qed.

Lemma lower_char_idem c : Str.lower_char (Str.lower_char c) = Str.lower_char c.
Proof. destruct c as [[] [] [] [] [] [] [] []]; reflexivity. Qed.

Lemma lower_idem s : Str.lower (Str.lower s) = Str.lower s.
Proof. induction s as [|c s IH]; simpl; [done|]. by rewrite lower_char_idem, IH. Qed.

Lemma no_space_lower s : no_space (Str.lower s) = no_space s.
Proof. induction s as [|c s IH]; simpl; [done|]. by rewrite is_space_lower, IH. Qed.

Lemma ascii_upper c : (N_of_ascii c <? 128)%N = true → (N_of_ascii (Str.upper_char c) <? 128)%N = true.
Proof. destruct c as [[] [] [] [] [] [] [] []]; by vm_compute. Qed.

Lemma ascii_lower s : ascii_text s = true → ascii_text (Str.lower s) = true.
Proof.
  induction s as [|c s IH]; [done|]. cbn [ascii_text Str.lower].
  intros [Hc Hs]%andb_true_iff. rewrite (IH Hs), andb_true_r.
  revert Hc. destruct c as [[] [] [] [] [] [] [] []]; by vm_compute.
Qed.

(** On a word that begins with an ASCII character [capitalize] is the rule
    of the ASCII letters. *)
Lemma capitalize_ascii c r :
  (N_of_ascii c <? 128)%N = true →
  Str.capitalize (String c r) = String (Str.upper_char c) (Str.lower r).
Proof.
  intros Hc. cbn [Str.capitalize]. destruct r as [|c' r']; [done|].
  rewrite bool_decide_false; [done|]. intros [= -> _]. by vm_compute in Hc.
Qed.

Lemma capitalize_idem w :
  ascii_text w = true → Str.capitalize (Str.capitalize w) = Str.capitalize w.
Proof.
  destruct w as [|c w]; [done|]. cbn [ascii_text]. intros [Hc Hw]%andb_true_iff.
  rewrite (capitalize_ascii c w Hc), capitalize_ascii by (by apply ascii_upper).
  by rewrite upper_char_idem, lower_idem.
Qed.

Lemma capitalize_word w : is_word w = true → is_word (Str.capitalize w) = true.
Proof.
  destruct w as [|c w]; [done|]. cbn [is_word no_space].
  intros [Hc Hw]%andb_true_iff. cbn [Str.capitalize].
  destruct w as [|c' w']; [cbn; by rewrite is_space_upper, Hc|].
  case_bool_decide as Hn.
  - cbn [no_space] in Hw. apply andb_true_iff in Hw as [_ Hw].
    change ("ʼN" +:+ Str.lower w')
      with (String "202" (String "188" (String "N" (Str.lower w')))).
    cbn [is_word no_space]. rewrite no_space_lower, Hw. reflexivity.
  - cbn [is_word no_space]. rewrite is_space_upper, Hc.
    change (no_space (Str.lower (String c' w')) = true).
    by rewrite no_space_lower.
Qed.

Lemma split_ascii s :
  ascii_text s = true → Forall (fun w => ascii_text w = true) (Str.split s).
Proof.
  induction s as [|c s IH]; [constructor|]. cbn [ascii_text].
  intros [Hc Hs]%andb_true_iff. specialize (IH Hs).
  cbn [Str.split]. destruct (Str.is_space c); [done|].
  destruct s as [|c' s']; [constructor; [cbn; by rewrite Hc|constructor]|].
  destruct (Str.is_space c'); [constructor; [cbn; by rewrite Hc|done]|].
  destruct (Str.split (String c' s')) as [|w ws];
    [constructor; [cbn; by rewrite Hc|constructor]|].
  apply Forall_cons in IH as [Hw Hws]. constructor; [|done].
  cbn [ascii_text]. by rewrite Hc, Hw.
Qed.

Lemma split_head_not_space c s : Str.is_space c = false → Str.split (String c s) ≠ [].
Proof.
  intros Hc. simpl. rewrite Hc. destruct s as [|c' s']; [done|].
  destruct (Str.is_space c'); [done|]. by destruct (Str.split (String c' s')).
Qed.

Lemma split_words s : Forall (fun w => is_word w = true) (Str.split s).
Proof.
  induction s as [|c s IH]; [constructor|].
  cbn [Str.split]. destruct (Str.is_space c) eqn:Hc; [done|].
  destruct s as [|c' s']; [constructor; [simpl; by rewrite Hc|constructor]|].
  destruct (Str.is_space c') eqn:Hc'.
  - constructor; [simpl; by rewrite Hc|done].
  - destruct (Str.split (String c' s')) as [|w ws] eqn:Hs.
    + by apply split_head_not_space in Hs.
    + apply Forall_cons in IH as [Hw Hws]. constructor; [|done].
      simpl. rewrite Hc. simpl. by destruct w.
Qed.

Lemma split_word w : is_word w = true → Str.split w = [w].
Proof.
  induction w as [|c w IH]; [done|]. cbn [is_word no_space].
  intros [Hc Hw]%andb_true_iff. apply negb_true_iff in Hc.
  cbn [Str.split]. rewrite Hc. destruct w as [|c' w']; [done|].
  cbn [no_space] in Hw. assert (Str.is_space c' = false) as Hc'.
  { apply andb_true_iff in Hw as [Hw _]. by apply negb_true_iff in Hw. }
  rewrite Hc'. rewrite IH; [done|]. exact Hw.
Qed.

Lemma split_word_sep w r :
  is_word w = true → Str.split (w +:+ String " " r) = w :: Str.split r.
Proof.
  induction w as [|c w IH]; [done|]. cbn [is_word no_space].
  intros [Hc Hw]%andb_true_iff. apply negb_true_iff in Hc.
  change (String c w +:+ String " " r) with (String c (w +:+ String " " r)).
  cbn [Str.split]. rewrite Hc. destruct w as [|c' w'].
  - change ("" +:+ String " " r) with (String " " r).
    change (Str.is_space " ") with true. cbn iota. done.
  - change (String c' w' +:+ String " " r) with (String c' (w' +:+ String " " r)).
    cbn [no_space] in Hw. assert (Str.is_space c' = false) as Hc'.
    { apply andb_true_iff in Hw as [Hw _]. by apply negb_true_iff in Hw. }
    cbv beta iota. rewrite Hc'.
    change (String c' (w' +:+ String " " r)) with (String c' w' +:+ String " " r).
    rewrite IH; [done|]. exact Hw.
Qed.

Lemma join_cons w w' ws :
  Str.join " " (w :: w' :: ws) = w +:+ String " " (Str.join " " (w' :: ws)).
Proof. reflexivity. Qed.

Lemma split_join ws :
  Forall (fun w => is_word w = true) ws → Str.split (Str.join " " ws) = ws.
Proof.
  induction 1 as [|w ws Hw Hws IH]; [done|].
  destruct ws as [|w' ws].
  - by apply split_word.
  - rewrite join_cons, split_word_sep by done. by rewrite IH.
Qed.

Lemma title_case_eq s : title_case s = Str.join " " (Str.capitalize <$> Str.split s).
Proof. unfold title_case. case_bool_decide as Hs; [by rewrite Hs|done]. Qed.

(** [title_case] leaves an ASCII text in title case as it is. *)
Lemma title_case_idem s :
  ascii_text s = true → title_case (title_case s) = title_case s.
Proof.
  intros Hs. rewrite !title_case_eq. rewrite split_join.
  - f_equal. rewrite <- list_fmap_compose. apply Forall_fmap_ext_1.
    eapply Forall_impl; [by apply split_ascii|]. intros w Hw. by apply capitalize_idem.
  - apply Forall_fmap. eapply Forall_impl; [apply split_words|].
    intros w Hw. by apply capitalize_word.
Qed.

Lemma title_case_empty : title_case "" = "".
Proof. reflexivity. Qed.

Lemma rstrip_idem s : Str.rstrip (Str.rstrip s) = Str.rstrip s.
Proof.
  induction s as [|c s IH]; [done|]. cbn [Str.rstrip].
  destruct (Str.rstrip s) as [|c' r] eqn:Hr.
  - destruct (Str.is_space c) eqn:Hc; [done|]. simpl. by rewrite Hc.
  - cbn [Str.rstrip]. cbn [Str.rstrip] in IH.
    destruct (match Str.rstrip r with "" => _ | String a s0 => _ end); [done|].
    by rewrite IH.
Qed.

Lemma lstrip_head s :
  Str.lstrip s = "" ∨ ∃ c t, Str.lstrip s = String c t ∧ Str.is_space c = false.
Proof.
  induction s as [|c s IH]; [by left|]. simpl.
  destruct (Str.is_space c) eqn:Hc; [done|]. right. by exists c, s.
Qed.

Lemma rstrip_head c s : Str.is_space c = false → ∃ t, Str.rstrip (String c s) = String c t.
Proof.
  intros Hc. cbn [Str.rstrip]. destruct (Str.rstrip s).
  - rewrite Hc. by eexists.
  - by eexists.
Qed.

Lemma lstrip_not_space c s : Str.is_space c = false → Str.lstrip (String c s) = String c s.
Proof. intros Hc. simpl. by rewrite Hc. Qed.

Lemma strip_idem s : trimmed (Str.strip s).
Proof.
  unfold trimmed, Str.strip. destruct (lstrip_head s) as [->|(c & t & -> & Hc)]; [done|].
  destruct (rstrip_head c t Hc) as [t' Ht]. rewrite Ht at 1.
  rewrite lstrip_not_space by done. rewrite <- Ht. apply rstrip_idem.
Qed.

(** A trimmed text that is not empty has a first word. *)
Lemma trimmed_split s : trimmed s → s ≠ "" → Str.split s ≠ [].
Proof.
  unfold trimmed, Str.strip. intros Ht Hs.
  destruct (lstrip_head s) as [He|(c & t & He & Hc)]; rewrite He in Ht.
  - by rewrite <- Ht in Hs.
  - destruct (rstrip_head c t Hc) as [t' Ht']. rewrite Ht' in Ht. rewrite <- Ht.
    by apply split_head_not_space.
Qed.

Lemma trimmed_empty : trimmed "".
Proof. reflexivity. Qed.

(** ** Category of a trade *)

Lemma infer_category_returns row :
  trimmed (item_raw row) → returns (infer_category row).
Proof.
  intros Ht. unfold infer_category, returns.
  case_bool_decide as Hc; [|by eexists].
  case_bool_decide as Hb; cbn [negb]; [|by eexists].
  case_bool_decide as Hi; cbn [negb]; [by eexists|].
  destruct (Str.split (item_raw row)) as [|w ws] eqn:Hs.
  - by apply trimmed_split in Hs.
  - by eexists.
Qed.

Lemma infer_category_spec row c :
  infer_category row = Return c →
  (category_raw row ≠ "" → c = category_raw row) ∧
  (category_raw row = "" → brand_raw row ≠ "" → c = title_case (brand_raw row)) ∧
  (category_raw row = "" → brand_raw row = "" → item_raw row ≠ "" →
     ∃ w ws, Str.split (item_raw row) = w :: ws ∧ c = title_case w) ∧
  (category_raw row = "" → brand_raw row = "" → item_raw row = "" → c = "").
Proof.
  unfold infer_category.
  case_bool_decide as Hc.
  - case_bool_decide as Hb; cbn [negb].
    + case_bool_decide as Hi; cbn [negb].
      * intros [= <-]. by rewrite Hc.
      * destruct (Str.split (item_raw row)) as [|w ws] eqn:Hs; [done|].
        intros [= <-]. repeat split; try done. intros _ _ _. by exists w, ws.
    + intros [= <-]. done.
  - intros [= <-]. done.
Qed.

Lemma legacy_trade_returns uuid4 sid cid row n :
  trimmed (item_raw row) → returns (legacy_trade uuid4 sid cid row n).
Proof.
  intros Ht. unfold legacy_trade.
  destruct (infer_category_returns row Ht) as [c ->]. by eexists.
Qed.

(** C7, as the code has it. The category of an emitted trade is
    [title_case] of [category_raw] when that is not empty; otherwise
    [title_case] applied twice to [brand_raw] when that is not empty (once
    when the category is inferred and once more when the trade is built);
    otherwise [title_case] applied twice to the first word of [item_raw] when
    that is not empty; otherwise the empty text. On ASCII texts a second
    [title_case] changes nothing: there the category is the title-cased
    brand, or the title-cased first word of the item, and it is in title
    case. A trade is emitted for every row whose item text is trimmed, as
    the row ingestor leaves it. *)
Theorem trade_category (uuid4 : nat → string) (supplier_id_map client_id_map : dict string)
    (row : RawRow) (n : nat) :
  (∀ t, legacy_trade uuid4 supplier_id_map client_id_map row n = Return t →
     (category_raw row ≠ "" → LegacyTrade.category t = title_case (category_raw row)) ∧
     (category_raw row = "" → brand_raw row ≠ "" →
        LegacyTrade.category t = title_case (title_case (brand_raw row))) ∧
     (category_raw row = "" → brand_raw row = "" → item_raw row ≠ "" →
        ∃ w ws, Str.split (item_raw row) = w :: ws ∧
                LegacyTrade.category t = title_case (title_case w)) ∧
     (category_raw row = "" → brand_raw row = "" → item_raw row = "" →
        LegacyTrade.category t = "") ∧
     (ascii_text (category_raw row) = true → ascii_text (brand_raw row) = true →
      ascii_text (item_raw row) = true →
        (category_raw row = "" → brand_raw row ≠ "" →
           LegacyTrade.category t = title_case (brand_raw row)) ∧
        (category_raw row = "" → brand_raw row = "" → item_raw row ≠ "" →
           ∃ w ws, Str.split (item_raw row) = w :: ws ∧
                   LegacyTrade.category t = title_case w) ∧
        title_case (LegacyTrade.category t) = LegacyTrade.category t)) ∧
  (trimmed (item_raw row) →
     returns (legacy_trade uuid4 supplier_id_map client_id_map row n)).
Proof.
  split.
  - intros t. unfold legacy_trade.
    destruct (infer_category row) as [c|] eqn:Hc; [|done].
    apply infer_category_spec in Hc as (H1 & H2 & H3 & H4).
    intros [= <-]. cbn [LegacyTrade.category].
    split; [|split; [|split; [|split]]].
    + intros H. by rewrite (H1 H).
    + intros Hcat Hb. by rewrite (H2 Hcat Hb).
    + intros Hcat Hb Hi. destruct (H3 Hcat Hb Hi) as (w & ws & Hs & ->).
      by exists w, ws.
    + intros Hcat Hb Hi. by rewrite (H4 Hcat Hb Hi).
    + intros Hac Hab Hai. split; [|split].
      * intros Hcat Hb. by rewrite (H2 Hcat Hb), title_case_idem.
      * intros Hcat Hb Hi. destruct (H3 Hcat Hb Hi) as (w & ws & Hs & ->).
        exists w, ws. split; [done|]. apply title_case_idem.
        pose proof (split_ascii _ Hai) as Hw. rewrite Hs in Hw.
        by apply Forall_cons in Hw as [? _].
      * destruct (decide (category_raw row = "")) as [Hcat|Hcat].
        -- destruct (decide (brand_raw row = "")) as [Hb|Hb].
           ++ destruct (decide (item_raw row = "")) as [Hi|Hi].
              ** by rewrite (H4 Hcat Hb Hi).
              ** destruct (H3 Hcat Hb Hi) as (w & ws & Hs & ->).
                 pose proof (split_ascii _ Hai) as Hw. rewrite Hs in Hw.
                 apply Forall_cons in Hw as [Hw _].
                 by rewrite !(title_case_idem w Hw).
           ++ by rewrite (H2 Hcat Hb), !(title_case_idem _ Hab).
        -- by rewrite (H1 Hcat), (title_case_idem _ Hac).
  - apply legacy_trade_returns.
Qed.

Lemma trade_category_witness :
  ∃ t, legacy_trade (fun n => "id-" +:+ pretty n) [] [] (item_row "" "" "leather tote bag") 0
       = Return t ∧
       LegacyTrade.category t = "Leather".
Proof.
  destruct (trade_category (fun n => "id-" +:+ pretty n) [] []
              (item_row "" "" "leather tote bag") 0) as [Hcat Hret].
  destruct Hret as [t Ht]; [reflexivity|].
  exists t. split; [exact Ht|].
  destruct (Hcat t Ht) as (_ & _ & _ & _ & Hascii).
  destruct Hascii as (_ & H3 & _); [reflexivity..|].
  destruct H3 as (w & ws & Hs & ->); [reflexivity|reflexivity|discriminate|].
  vm_compute in Hs. injection Hs as <- _. reflexivity.
Defined.

(** C7 fails where a second [title_case] changes the text. The brand
    U+0149, a small n preceded by an apostrophe, is title-cased to a modifier
    apostrophe and a capital N, and the category emitted for a row with this
    brand and no category is that text title-cased again, with a small n: it
    is not the title-cased brand. With the same text as category the trade
    carries the form with the capital N, which [title_case] would change. *)
Lemma category_title_cased_twice :
  let uuid4 := fun n : nat => "id-" +:+ pretty n in
  title_case "ŉ" = "ʼN" ∧ title_case "ʼN" = "ʼn" ∧
  (∃ t, legacy_trade uuid4 [] [] (item_row "" "ŉ" "") 0 = Return t ∧
        LegacyTrade.category t = "ʼn" ∧
        LegacyTrade.category t ≠ title_case (brand_raw (item_row "" "ŉ" ""))) ∧
  (∃ t, legacy_trade uuid4 [] [] (item_row "ŉ" "" "") 0 = Return t ∧
        LegacyTrade.category t = "ʼN" ∧
        title_case (LegacyTrade.category t) ≠ LegacyTrade.category t).
Proof.
  split; [reflexivity|]. split; [reflexivity|]. split.
  - eexists. split; [reflexivity|]. split; [reflexivity|]. by vm_compute.
  - eexists. split; [reflexivity|]. split; [reflexivity|]. by vm_compute.
Qed.

(** ** Row ingestor *)

Section ingest_facts.
Variable float_of_str : string → option float.
Variable str_of_float : float → string.

Lemma clean_text_trimmed v : trimmed (clean_text str_of_float v).
Proof.
  unfold clean_text. destruct (none_or_empty v); [apply trimmed_empty|apply strip_idem].
Qed.

Lemma cell_clean_text_trimmed row i : trimmed (cell row i (clean_text str_of_float) "").
Proof.
  unfold cell. destruct (row !! i); [apply clean_text_trimmed|apply trimmed_empty].
Qed.

Lemma parse_excel_date_returns v : returns (parse_excel_date v).
Proof.
  unfold parse_excel_date, returns. destruct (none_or_empty v); [by eexists|].
  destruct v; try (by eexists);
    match goal with |- context [match ?a with Return _ => _ | Raise _ => _ end] =>
      destruct a; by eexists end.
Qed.

(** The fields of an ingested row, read off the cells. *)
Lemma row_dict_fields src idx cells r :
  row_dict float_of_str str_of_float src idx cells = Return r →
  row_number r = idx ∧ source r = src ∧ row_trimmed r ∧
  cell cells 0 parse_excel_date (Return None) = Return (date r) ∧
  cell cells 8 (parse_price float_of_str) (Return float_zero) = Return (buy_price_raw r) ∧
  cell cells 9 (parse_price float_of_str) (Return float_zero) = Return (sell_price_raw r) ∧
  cell cells 10 (parse_price float_of_str) (Return float_zero) = Return (margin_raw r) ∧
  supplier_raw r = cell cells 4 (clean_text str_of_float) "" ∧
  client_raw r = cell cells 2 (clean_text str_of_float) "" ∧
  client_status_raw r = cell cells 3 (clean_text str_of_float) "".
Proof.
  unfold row_dict.
  destruct (cell cells 0 parse_excel_date (Return None)) as [d|]; [|done].
  destruct (cell cells 8 (parse_price float_of_str) (Return float_zero)) as [b|]; [|done].
  destruct (cell cells 9 (parse_price float_of_str) (Return float_zero)) as [s|]; [|done].
  destruct (cell cells 10 (parse_price float_of_str) (Return float_zero)) as [m|]; [|done].
  intros [= <-]. cbn. unfold row_trimmed. cbn.
  repeat split; try done; apply cell_clean_text_trimmed.
Qed.

(** The ingestor keeps the rows that are not the header and have a true
    cell, in their order, each with its position in the sheet. *)
Lemma load_rows_kept src idx sheet :
  load_rows float_of_str str_of_float src idx sheet =
  for_each (fun p => row_dict float_of_str str_of_float src p.1 p.2)
    (filter (fun p => kept p = true) (numbered idx sheet)).
Proof.
  revert idx. induction sheet as [|row rest IH]; intros idx; [done|].
  cbn [load_rows]. unfold numbered. cbn [length seq zip zip_with].
  rewrite filter_cons.
  destruct (idx =? 1)%nat eqn:Hidx.
  - rewrite decide_False; [apply IH|].
    unfold kept. cbn [fst snd]. by rewrite Hidx.
  - destruct (existsb truthy row) eqn:Hrow; cbn [negb].
    + rewrite decide_True by (unfold kept; cbn [fst snd]; by rewrite Hidx, Hrow).
      cbn [for_each fst snd].
      destruct (row_dict _ _ src idx row); [|done]. cbn.
      rewrite IH. done.
    + rewrite decide_False; [apply IH|].
      unfold kept. cbn [fst snd]. by rewrite Hidx, Hrow.
Qed.

Lemma for_each_elem {A B} (f : A → outcome B) l l' y :
  for_each f l = Return l' → y ∈ l' → ∃ x, x ∈ l ∧ f x = Return y.
Proof.
  revert l'. induction l as [|x l IH]; intros l'; cbn [for_each].
  - intros [= <-] H. by apply elem_of_nil in H.
  - destruct (f x) as [y'|] eqn:Hx; [|done]. cbn.
    destruct (for_each f l) as [ys|]; [|done]. cbn. intros [= <-].
    intros [->|Hin]%elem_of_cons.
    + exists x. split; [left|done].
    + destruct (IH ys eq_refl Hin) as (x' & ? & ?). exists x'. split; [by right|done].
Qed.

Lemma numbered_elem idx sheet i cells :
  (i, cells) ∈ numbered idx sheet → (idx ≤ i)%nat ∧ sheet !! (i - idx) = Some cells.
Proof.
  revert idx. induction sheet as [|row rest IH]; intros idx; unfold numbered; cbn.
  - intros H. by apply elem_of_nil in H.
  - intros [[= -> ->]|Hin]%elem_of_cons.
    + split; [done|]. by rewrite Nat.sub_diag.
    + apply IH in Hin as [Hle Hl]. split; [lia|].
      replace (i - idx) with (S (i - S idx)) by lia. done.
Qed.

(** Every ingested row comes from a kept row of the sheet, whose position
    it carries. *)
Lemma load_sheet_elem src sheet rows r :
  load_sheet float_of_str str_of_float src sheet = Return rows → r ∈ rows →
  ∃ cells, sheet !! (row_number r - 1) = Some cells ∧
           (2 ≤ row_number r)%nat ∧ existsb truthy cells = true ∧
           row_dict float_of_str str_of_float src (row_number r) cells = Return r.
Proof.
  unfold load_sheet. rewrite load_rows_kept. intros Hl Hr.
  destruct (for_each_elem _ _ _ _ Hl Hr) as ([i cells] & Hin & Hrow).
  apply list_elem_of_filter in Hin as [Hk Hin]. cbn [fst snd] in *.
  apply numbered_elem in Hin as [Hle Hcells].
  unfold kept in Hk. cbn [fst snd] in Hk. apply andb_true_iff in Hk as [Hh Hk].
  apply negb_true_iff, Nat.eqb_neq in Hh.
  destruct (row_dict_fields _ _ _ _ Hrow) as (-> & _).
  exists cells. repeat split; try done. lia.
Qed.

Lemma load_sheet_trimmed src sheet rows :
  load_sheet float_of_str str_of_float src sheet = Return rows → Forall row_trimmed rows.
Proof.
  intros Hl. apply Forall_forall. intros r Hr.
  destruct (load_sheet_elem _ _ _ _ Hl Hr) as (cells & _ & _ & _ & Hrow).
  by destruct (row_dict_fields _ _ _ _ Hrow) as (_ & _ & ? & _).
Qed.

End ingest_facts.

(** C6. A data row whose only filled cell holds the number 0 is left out
    by the ingestor, although not every cell of it is empty or null: the
    loop skips a row when no cell is true, and 0, 0.0 and [False] are as
    false as [None] and the empty text. *)
Theorem load_sheet_skips_zero_row
    (float_of_str : string → option float) (str_of_float : float → string) :
  load_hope_sheet float_of_str str_of_float (price_sheet (VInt 0)) = Return [] ∧
  existsb (fun v => negb (none_or_empty v)) (price_row (VInt 0)) = true.
Proof. split; reflexivity. Qed.

(** The same row with a price that is not zero is kept, as row 2. *)
Lemma load_sheet_keeps_priced_row
    (float_of_str : string → option float) (str_of_float : float → string) :
  (fun rows : list RawRow => row_number <$> rows)
    <$> load_hope_sheet float_of_str str_of_float (price_sheet (VInt 5))
  = Return [2].
Proof. reflexivity. Qed.

(** ** Prices *)

Lemma parse_price_cell float_of_str cells i x :
  cell cells i (parse_price float_of_str) (Return float_zero) = Return x →
  (price_defaults float_of_str (cells !! i) → x = float_zero) ∧
  (∀ f, cells !! i = Some (VFloat f) → x = f) ∧
  (∀ n, cells !! i = Some (VInt n) → float_of_int n = Return x).
Proof.
  unfold cell, price_defaults. destruct (cells !! i) as [v|].
  - unfold parse_price. destruct v as [|b|n|f|s|dt|t txt]; cbn [none_or_empty].
    + intros [= <-]. repeat split; done.
    + intros H. repeat split; done.
    + cbn [py_float]. intros H. repeat split; [done|done|]. by intros ? [= <-].
    + cbn [py_float]. intros [= <-]. repeat split; [done| |done]. by intros ? [= <-].
    + case_bool_decide as Hs.
      * intros [= <-]. repeat split; done.
      * destruct (float_of_str (price_text s)) as [f|] eqn:Hf.
        -- intros [= <-]. repeat split; [|done|done]. intros [?|?]; done.
        -- intros [= <-]. repeat split; done.
    + intros [= <-]. repeat split; done.
    + intros [= <-]. repeat split; done.
  - intros [= <-]. repeat split; done.
Qed.

(** C9, as the code has it. In every row the ingestor produces, each of
    [buy_price_raw], [sell_price_raw] and [margin_raw] is zero when its cell
    is missing, [None], empty, not a number or a text, or a text that does
    not parse; a number in the cell is passed through as it is, with its
    sign, so that the fields can be negative. *)
Theorem load_sheet_prices
    (float_of_str : string → option float) (str_of_float : float → string)
    (src : string) (sheet : list (list pyval)) (rows : list RawRow) (r : RawRow) :
  load_sheet float_of_str str_of_float src sheet = Return rows → r ∈ rows →
  ∃ cells, sheet !! (row_number r - 1) = Some cells ∧
    ((price_defaults float_of_str (cells !! 8) → buy_price_raw r = float_zero) ∧
     (∀ f, cells !! 8 = Some (VFloat f) → buy_price_raw r = f) ∧
     (∀ n, cells !! 8 = Some (VInt n) → float_of_int n = Return (buy_price_raw r))) ∧
    ((price_defaults float_of_str (cells !! 9) → sell_price_raw r = float_zero) ∧
     (∀ f, cells !! 9 = Some (VFloat f) → sell_price_raw r = f) ∧
     (∀ n, cells !! 9 = Some (VInt n) → float_of_int n = Return (sell_price_raw r))) ∧
    ((price_defaults float_of_str (cells !! 10) → margin_raw r = float_zero) ∧
     (∀ f, cells !! 10 = Some (VFloat f) → margin_raw r = f) ∧
     (∀ n, cells !! 10 = Some (VInt n) → float_of_int n = Return (margin_raw r))).
Proof.
  intros Hl Hr. destruct (load_sheet_elem _ _ _ _ _ _ Hl Hr) as (cells & Hc & _ & _ & Hrow).
  exists cells. split; [done|].
  destruct (row_dict_fields _ _ _ _ _ _ Hrow) as (_ & _ & _ & _ & Hb & Hs & Hm & _).
  split; [|split]; by apply parse_price_cell.
Qed.

Lemma load_sheet_prices_witness :
  ∃ r, load_hope_sheet (fun _ => None) (fun _ => "") (price_sheet (VStr "n/a")) = Return [r] ∧
       buy_price_raw r = float_zero ∧ sell_price_raw r = float_zero.
Proof.
  eexists. split; [reflexivity|].
  match goal with |- buy_price_raw ?r = _ ∧ _ =>
    destruct (load_sheet_prices (fun _ => None) (fun _ => "") "Hope"
                (price_sheet (VStr "n/a")) [r] r eq_refl)
      as (cells & Hc & (Hb & _) & (Hs & _) & _); [apply list_elem_of_here|]
  end.
  vm_compute in Hc. injection Hc as <-. split.
  - apply Hb. right. reflexivity.
  - apply Hs. exact I.
Defined.

(** C9 fails on a negative number: a sheet whose one data row has -5 in
    the buy price cell yields a row whose [buy_price_raw] is -5.0. *)
Lemma negative_price_cell :
  let r := {| date := None; invoice_number := ""; client_raw := "";
              client_status_raw := ""; supplier_raw := ""; item_raw := "";
              brand_raw := ""; category_raw := "";
              buy_price_raw := S754_finite true 5629499534213120 (-50);
              sell_price_raw := float_zero; margin_raw := float_zero;
              source := "Hope"; row_number := 2 |} in
  (∀ float_of_str str_of_float,
     load_hope_sheet float_of_str str_of_float (price_sheet (VInt (-5))) = Return [r]) ∧
  float_of_int (-5) = Return (buy_price_raw r) ∧
  float_negative (buy_price_raw r) = true.
Proof. split; [|split]; reflexivity. Qed.

(** ** Dates *)

Lemma add_days_epoch n :
  (Calendar.strftime_Ymd <$> Calendar.add_days Calendar.excel_epoch n) =
  match date_of_ordinal (epoch_ordinal + n) with
  | Some s => Return s
  | None => Raise OverflowError
  end.
Proof.
  unfold Calendar.add_days, date_of_ordinal.
  change (Calendar.toordinal Calendar.excel_epoch) with epoch_ordinal.
  replace (0 <? epoch_ordinal + n)%Z with (1 <=? epoch_ordinal + n)%Z
    by (destruct (Z.leb_spec 1 (epoch_ordinal + n)), (Z.ltb_spec 0 (epoch_ordinal + n)); lia).
  destruct ((1 <=? epoch_ordinal + n)%Z && (epoch_ordinal + n <=? Calendar.MAXORDINAL)%Z);
    [|done].
  by destruct (Calendar.ord2ymd (epoch_ordinal + n)) as [[y m] d].
Qed.

(** A whole number of days is counted from 1899-12-30. *)
Lemma parse_excel_date_days v n :
  none_or_empty v = false → py_int v = Return n →
  match v with VBool _ | VInt _ | VFloat _ => True | _ => False end →
  parse_excel_date v = Return (date_of_ordinal (epoch_ordinal + n)).
Proof.
  intros Hv Hn Hnum. unfold parse_excel_date. rewrite Hv.
  assert ((n ← py_int v;
           delta ← Calendar.timedelta_days n;
           date_obj ← Calendar.add_days Calendar.excel_epoch delta;
           Return (Calendar.strftime_Ymd date_obj)) =
          match date_of_ordinal (epoch_ordinal + n) with
          | Some s => Return s
          | None => Raise OverflowError
          end) as Hrun.
  { rewrite Hn. cbn [mbind outcome_bind]. unfold Calendar.timedelta_days.
    destruct (Z.leb_spec (Z.abs n) 999999999) as [Hle|Hgt].
    - cbn [mbind outcome_bind]. rewrite <- add_days_epoch.
      by destruct (Calendar.add_days Calendar.excel_epoch n).
    - cbn [mbind outcome_bind]. unfold date_of_ordinal.
      replace ((1 <=? epoch_ordinal + n)%Z && (epoch_ordinal + n <=? Calendar.MAXORDINAL)%Z)
        with false; [done|].
      symmetry. apply andb_false_iff.
      change epoch_ordinal with 693594%Z. change Calendar.MAXORDINAL with 3652059%Z.
      destruct (Z.leb_spec 1 (693594 + n)), (Z.leb_spec (693594 + n) 3652059); auto; lia. }
  destruct v; try done; rewrite Hrun; by destruct (date_of_ordinal _).
Qed.

Lemma parse_excel_date_no_days v e :
  none_or_empty v = false → py_int v = Raise e →
  match v with VBool _ | VInt _ | VFloat _ => True | _ => False end →
  parse_excel_date v = Return None.
Proof.
  intros Hv Hn Hnum. unfold parse_excel_date. rewrite Hv, Hn.
  destruct v; done.
Qed.

Lemma try_formats_first text fmts i fmt dt :
  fmts !! i = Some fmt →
  Strptime.strptime text fmt = Return dt →
  (∀ j fmt', j < i → fmts !! j = Some fmt' → ∃ e, Strptime.strptime text fmt' = Raise e) →
  try_formats text fmts = Some (Calendar.strftime_Ymd dt).
Proof.
  revert i. induction fmts as [|f fmts IH]; intros i Hi Hp Hbefore; [done|].
  destruct i as [|i]; cbn [try_formats].
  - injection Hi as ->. by rewrite Hp.
  - destruct (Hbefore 0 f) as [e ->]; [lia|done|].
    apply (IH i); [done|done|]. intros j fmt' Hj Hf. apply (Hbefore (S j)); [lia|done].
Qed.

Lemma try_formats_none text fmts :
  (∀ fmt, fmt ∈ fmts → ∃ e, Strptime.strptime text fmt = Raise e) →
  try_formats text fmts = None.
Proof.
  induction fmts as [|f fmts IH]; intros Hall; [done|]. cbn [try_formats].
  destruct (Hall f) as [e ->]; [left|]. apply IH. intros fmt Hin. apply Hall. by right.
Qed.

Lemma gives_eq o s : gives o s = true → o = Return (Some s).
Proof.
  destruct o as [[s'|]|]; cbn; try done. by intros ->%String.eqb_eq.
Qed.

(** For every day of the years 2000 to 2030, the count of days from
    1899-12-30 to that day and the text [YYYY-MM-DD] of that day are both
    read as that day. *)
Lemma serial_and_text_agree (y m d : Z) :
  (2000 ≤ y ≤ 2030)%Z → (1 ≤ m ≤ 12)%Z → (1 ≤ d ≤ Calendar.days_in_month y m)%Z →
  parse_excel_date (VInt (Calendar.ymd2ord y m d - epoch_ordinal))
    = Return (Some (iso_date y m d)) ∧
  parse_excel_date (VStr (iso_date y m d)) = Return (Some (iso_date y m d)).
Proof.
  intros Hy Hm Hd.
  assert (forallb (fun y => forallb (fun m => forallb (fun d =>
            if (d <=? Calendar.days_in_month y m)%Z then serial_agrees y m d else true)
            (seqZ 1 31)) (seqZ 1 12)) (seqZ 2000 31) = true) as Hall
    by (vm_compute; reflexivity).
  rewrite forallb_forall in Hall.
  specialize (Hall y). rewrite forallb_forall in Hall.
  specialize (Hall ltac:(apply list_elem_of_In, elem_of_seqZ; lia) m).
  rewrite forallb_forall in Hall.
  assert (Calendar.days_in_month y m ≤ 31)%Z as Hd31.
  { unfold Calendar.days_in_month. destruct (_ && _); [lia|].
    assert (m = 1 ∨ m = 2 ∨ m = 3 ∨ m = 4 ∨ m = 5 ∨ m = 6 ∨ m = 7 ∨ m = 8 ∨ m = 9
            ∨ m = 10 ∨ m = 11 ∨ m = 12)%Z as Hcase by lia.
    repeat (destruct Hcase as [->|Hcase]; [by vm_compute|]). subst m. by vm_compute. }
  specialize (Hall ltac:(apply list_elem_of_In, elem_of_seqZ; lia) d
                   ltac:(apply list_elem_of_In, elem_of_seqZ; lia)).
  destruct (Z.leb_spec d (Calendar.days_in_month y m)) as [_|?]; [|lia].
  apply andb_true_iff in Hall as [H1 H2]. split; by apply gives_eq.
Qed.

(** C8. A number is read as a count of days from 1899-12-30 (a float
    after truncation), so that 44197 gives the date the text ["2021-01-01"]
    gives; a text is tried, trimmed, against the four formats in the order
    day/month/4-digit year, day/month/2-digit year, year-month-day,
    month/day/4-digit year, and the first that parses it in full wins; the
    answer is [None] for [None], for the empty text and for what does not
    parse, and no exception leaves the function. *)
Theorem parse_excel_date_policy :
  (∀ n : Z, parse_excel_date (VInt n) = Return (date_of_ordinal (epoch_ordinal + n))) ∧
  (∀ (f : float) (n : Z), int_of_float f = Return n →
     parse_excel_date (VFloat f) = Return (date_of_ordinal (epoch_ordinal + n))) ∧
  (∀ (f : float) (e : exn), int_of_float f = Raise e →
     parse_excel_date (VFloat f) = Return None) ∧
  (parse_excel_date (VInt 44197) = Return (Some "2021-01-01") ∧
   parse_excel_date (VStr "2021-01-01") = parse_excel_date (VInt 44197)) ∧
  date_formats = [Strptime.fmt_dmY; Strptime.fmt_dmy; Strptime.fmt_Ymd; Strptime.fmt_mdY] ∧
  (∀ (s : string) (i : nat) (fmt : list Strptime.directive) (dt : datetime),
     s ≠ "" → date_formats !! i = Some fmt →
     Strptime.strptime (Str.strip s) fmt = Return dt →
     (∀ j fmt', j < i → date_formats !! j = Some fmt' →
        ∃ e, Strptime.strptime (Str.strip s) fmt' = Raise e) →
     parse_excel_date (VStr s) = Return (Some (Calendar.strftime_Ymd dt))) ∧
  (∀ s : string,
     (∀ fmt, fmt ∈ date_formats → ∃ e, Strptime.strptime (Str.strip s) fmt = Raise e) →
     parse_excel_date (VStr s) = Return None) ∧
  (parse_excel_date VNone = Return None ∧ parse_excel_date (VStr "") = Return None) ∧
  (∀ v : pyval, returns (parse_excel_date v)).
Proof.
  split; [|split; [|split; [|split; [|split; [|split; [|split; [|split]]]]]]].
  - intros n. by apply parse_excel_date_days.
  - intros f n Hf. by apply parse_excel_date_days.
  - intros f e Hf. by apply (parse_excel_date_no_days _ e).
  - split; reflexivity.
  - reflexivity.
  - intros s i fmt dt Hs Hi Hp Hbefore. unfold parse_excel_date.
    cbn [none_or_empty]. rewrite bool_decide_false by done.
    f_equal. by apply (try_formats_first _ _ i fmt).
  - intros s Hall. unfold parse_excel_date. cbn [none_or_empty].
    case_bool_decide; [done|]. f_equal. by apply try_formats_none.
  - split; reflexivity.
  - apply parse_excel_date_returns.
Qed.

Lemma parse_excel_date_policy_witness :
  parse_excel_date (VStr " 3/4/2021 ") = Return (Some "2021-04-03") ∧
  parse_excel_date (VStr "1999-12-31") = Return (Some "1999-12-31") ∧
  parse_excel_date (VFloat (S754_finite false 3 (-1))) = Return (Some "1899-12-31") ∧
  parse_excel_date (VFloat S754_nan) = Return None ∧
  parse_excel_date (VStr "31/02/2021") = Return None.
Proof.
  destruct parse_excel_date_policy as (_ & Hf & Hfe & _ & _ & Hs & Hn & _ & _).
  split; [|split; [|split; [|split]]].
  - destruct (Strptime.strptime (Str.strip " 3/4/2021 ") Strptime.fmt_dmY) as [dt|] eqn:Hp;
      [|discriminate Hp].
    rewrite (Hs " 3/4/2021 " 0 Strptime.fmt_dmY dt); [| discriminate | reflexivity | exact Hp |].
    + vm_compute in Hp. injection Hp as <-. reflexivity.
    + intros j fmt' Hj. lia.
  - destruct (Strptime.strptime (Str.strip "1999-12-31") Strptime.fmt_Ymd) as [dt|] eqn:Hp;
      [|discriminate Hp].
    rewrite (Hs "1999-12-31" 2 Strptime.fmt_Ymd dt); [| discriminate | reflexivity | exact Hp |].
    + vm_compute in Hp. injection Hp as <-. reflexivity.
    + intros j fmt' Hj Hfmt.
      destruct j as [|[|j]]; [| |lia]; injection Hfmt as <-; by eexists.
  - rewrite (Hf (S754_finite false 3 (-1)) 1%Z); reflexivity.
  - apply (Hfe S754_nan ValueError). reflexivity.
  - apply Hn. intros fmt Hin.
    repeat (apply elem_of_cons in Hin as [->|Hin]; [by eexists|]).
    by apply elem_of_nil in Hin.
Defined.

(** ** Table assembler *)

Lemma for_each_Forall2 {A B} (f : A → outcome B) l l' :
  for_each f l = Return l' ↔ Forall2 (fun x y => f x = Return y) l l'.
Proof.
  revert l'. induction l as [|x l IH]; intros l'; cbn [for_each].
  - split; [intros [= <-]; constructor|by inversion 1].
  - destruct (f x) as [y|e] eqn:Hx; cbn.
    + destruct (for_each f l) as [ys|e] eqn:Hl; cbn.
      * split.
        -- intros [= <-]. constructor; [done|]. by apply IH.
        -- inversion 1 as [|? y' ? ys' Hy Hys]; subst. apply IH in Hys.
           congruence.
      * split; [done|]. inversion 1 as [|? y' ? ys' Hy Hys]; subst.
        apply IH in Hys. done.
    + split; [done|]. inversion 1; subst. congruence.
Qed.

Lemma for_each_returns {A B} (f : A → outcome B) l :
  (∀ x, x ∈ l → returns (f x)) → returns (for_each f l).
Proof.
  induction l as [|x l IH]; intros Hall; cbn [for_each]; [by eexists|].
  destruct (Hall x) as [y ->]; [left|]. cbn.
  destruct IH as [ys ->]; [intros x' ?; apply Hall; by right|]. by eexists.
Qed.

(** The canonical client key of the join is the key of the aggregation. *)
Lemma client_key_join row : client_key row = trade_client_key row.
Proof.
  unfold client_key, trade_client_key, client_raw_or_unknown.
  by case_bool_decide.
Qed.

(** The entries of the audit tables sit under their own names. *)
Lemma supplier_audit_names all_rows :
  SupplierAudit.clean_name <$> od_values (build_supplier_data all_rows).2
  = od_keys (build_supplier_data all_rows).2.
Proof.
  pose proof (supplier_audit_NoDup all_rows) as Hnd.
  assert (∀ k e, (k, e) ∈ (build_supplier_data all_rows).2 → SupplierAudit.clean_name e = k)
    as Hname.
  { intros k e Hin. apply od_elem_get in Hin; [|done].
    rewrite supplier_audit_get in Hin.
    destruct (group_of supplier_key k all_rows); [done|]. by injection Hin as <-. }
  unfold od_values, od_keys. rewrite <- list_fmap_compose.
  apply list_fmap_ext. intros i [k e] Hi. apply Hname.
  by eapply list_elem_of_lookup_2.
Qed.

Lemma client_audit_names all_rows :
  ClientAudit.client_clean <$> od_values (build_client_data all_rows)
  = od_keys (build_client_data all_rows).
Proof.
  pose proof (client_audit_NoDup all_rows) as Hnd.
  assert (∀ k e, (k, e) ∈ build_client_data all_rows → ClientAudit.client_clean e = k)
    as Hname.
  { intros k e Hin. apply od_elem_get in Hin; [|done].
    rewrite client_audit_get in Hin.
    destruct (group_of client_key k all_rows); [done|]. by injection Hin as <-. }
  unfold od_values, od_keys. rewrite <- list_fmap_compose.
  apply list_fmap_ext. intros i [k e] Hi. apply Hname.
  by eapply list_elem_of_lookup_2.
Qed.

Lemma supplier_audit_complete all_rows row :
  row ∈ all_rows → trade_supplier_key row ∈ od_keys (build_supplier_data all_rows).2.
Proof.
  intros Hrow.
  destruct (decide (trade_supplier_key row ∈ od_keys (build_supplier_data all_rows).2))
    as [|Hn]; [done|].
  apply od_get_None in Hn. rewrite supplier_audit_get in Hn.
  assert (row ∈ group_of supplier_key (trade_supplier_key row) all_rows) as Hin.
  { apply group_of_elem. split; [done|apply supplier_key_join]. }
  destruct (group_of supplier_key (trade_supplier_key row) all_rows);
    [by apply elem_of_nil in Hin|done].
Qed.

Lemma client_audit_complete_key all_rows row :
  row ∈ all_rows → trade_client_key row ∈ od_keys (build_client_data all_rows).
Proof.
  intros Hrow. rewrite <- client_key_join.
  destruct (decide (client_key row ∈ od_keys (build_client_data all_rows))) as [|Hn];
    [done|].
  apply od_get_None in Hn. destruct (client_audit_complete all_rows row Hrow) as [e He].
  congruence.
Qed.

Section assembler_facts.
Variable uuid4 : nat → string.

Lemma assign_ids_fold keys m n k :
  NoDup keys →
  od_get k (foldl (fun '(m, i) k => (od_set k (uuid4 i) m, S i)) (m, n) keys).1 =
  match list_find (fun k' => k' = k) keys with
  | Some (i, _) => Some (uuid4 (n + i))
  | None => od_get k m
  end.
Proof.
  revert m n. induction keys as [|k0 keys IH]; intros m n Hnd; [done|].
  apply NoDup_cons in Hnd as [Hk0 Hnd]. cbn [foldl list_find].
  rewrite IH by done. destruct (decide (k0 = k)) as [->|Hne].
  - destruct (list_find (fun k' => k' = k) keys) as [[i k']|] eqn:Hf.
    + apply list_find_Some in Hf as (Hi & -> & _).
      exfalso. apply Hk0. by eapply list_elem_of_lookup_2.
    + cbn. rewrite od_get_set, decide_True by done. do 2 f_equal. lia.
  - destruct (list_find (fun k' => k' = k) keys) as [[i k']|] eqn:Hf; cbn.
    + do 2 f_equal. lia.
    + by rewrite od_get_set, decide_False.
Qed.

(** The token of a key is the one drawn at its position. *)
Lemma assign_ids_get keys n i k :
  NoDup keys → keys !! i = Some k → od_get k (assign_ids uuid4 keys n) = Some (uuid4 (n + i)).
Proof.
  intros Hnd Hi. unfold assign_ids. rewrite assign_ids_fold by done.
  destruct (list_find (fun k' => k' = k) keys) as [[j k']|] eqn:Hf.
  - apply list_find_Some in Hf as (Hj & -> & _).
    by rewrite (NoDup_lookup _ _ _ _ Hnd Hi Hj).
  - apply list_find_None in Hf. rewrite Forall_forall in Hf.
    exfalso. apply (Hf k); [|done]. by eapply list_elem_of_lookup_2.
Qed.

Lemma legacy_trades_elem sid cid rows n ts t :
  legacy_trades uuid4 sid cid rows n = Return ts → t ∈ ts →
  ∃ i row, rows !! i = Some row ∧ legacy_trade uuid4 sid cid row (n + i) = Return t.
Proof.
  revert n ts. induction rows as [|row rows IH]; intros n ts; cbn [legacy_trades].
  - intros [= <-] H. by apply elem_of_nil in H.
  - destruct (legacy_trade uuid4 sid cid row n) as [t0|] eqn:Ht; [|done]. cbn.
    destruct (legacy_trades uuid4 sid cid rows (S n)) as [ts'|] eqn:Hts; [|done]. cbn.
    intros [= <-] [->|Hin]%elem_of_cons.
    + exists 0, row. by rewrite Nat.add_0_r.
    + destruct (IH (S n) ts' Hts Hin) as (i & row' & Hi & Hrow).
      exists (S i), row'. split; [done|].
      by replace (n + S i) with (S n + i) by lia.
Qed.

Lemma legacy_trades_returns sid cid rows n :
  Forall row_trimmed rows → returns (legacy_trades uuid4 sid cid rows n).
Proof.
  intros Hrows. revert n. induction Hrows as [|row rows Hrow Hrows IH]; intros n;
    cbn [legacy_trades]; [by eexists|].
  destruct (legacy_trade_returns uuid4 sid cid row n) as [t ->].
  { by destruct Hrow as (_ & _ & _ & _ & ? & _). }
  cbn. destruct (IH (S n)) as [ts ->]. by eexists.
Qed.

End assembler_facts.

Section pipeline_facts.
Variable uuid4 : nat → string.

Lemma pipeline_eq all_rows :
  pipeline uuid4 all_rows =
  build_legacy_tables uuid4 all_rows (build_supplier_data all_rows).1
    (build_supplier_data all_rows).2 (build_client_data all_rows).
Proof. unfold pipeline. by destruct (build_supplier_data all_rows). Qed.

(** The three loops of the assembler, one by one. *)
Lemma pipeline_tables all_rows ls lc lt :
  pipeline uuid4 all_rows = Return (ls, lc, lt) ↔
  for_each (legacy_supplier all_rows (supplier_ids uuid4 all_rows))
    (od_values (build_supplier_data all_rows).2) = Return ls ∧
  for_each (legacy_client (client_ids uuid4 all_rows))
    (od_values (build_client_data all_rows)) = Return lc ∧
  legacy_trades uuid4 (supplier_ids uuid4 all_rows) (client_ids uuid4 all_rows) all_rows
    (length (od_values (build_supplier_data all_rows).2)
     + length (od_values (build_client_data all_rows))) = Return lt.
Proof.
  rewrite pipeline_eq. unfold build_legacy_tables, supplier_ids, client_ids.
  rewrite supplier_audit_names, client_audit_names.
  destruct (for_each (legacy_supplier _ _) _) as [ls'|]; cbn; [|naive_solver].
  destruct (for_each (legacy_client _) _) as [lc'|]; cbn; [|naive_solver].
  destruct (legacy_trades _ _ _ _ _) as [lt'|]; cbn; naive_solver.
Qed.

Lemma legacy_supplier_fields all_rows sid e s :
  legacy_supplier all_rows sid e = Return s →
  od_get (SupplierAudit.clean_name e) sid = Some (LegacySupplier.id s) ∧
  LegacySupplier.supplier_clean s = SupplierAudit.clean_name e ∧
  LegacySupplier.raw_variants s = SupplierAudit.raw_variants e ∧
  LegacySupplier.requires_review s = SupplierAudit.requires_review e ∧
  LegacySupplier.reason s = SupplierAudit.reason e.
Proof.
  unfold legacy_supplier, od_index.
  destruct (od_get (SupplierAudit.clean_name e) sid) as [i|]; [|done].
  by intros [= <-].
Qed.

Lemma legacy_client_fields cid e c :
  legacy_client cid e = Return c →
  od_get (ClientAudit.client_clean e) cid = Some (LegacyClient.id c) ∧
  LegacyClient.client_clean c = ClientAudit.client_clean e ∧
  LegacyClient.raw_variants c = ClientAudit.raw_variants e ∧
  LegacyClient.requires_review c = ClientAudit.requires_review e.
Proof.
  unfold legacy_client, od_index.
  destruct (od_get (ClientAudit.client_clean e) cid) as [i|]; [|done].
  by intros [= <-].
Qed.

Lemma supplier_ids_get all_rows k :
  k ∈ od_keys (build_supplier_data all_rows).2 → is_Some (od_get k (supplier_ids uuid4 all_rows)).
Proof.
  intros (i & Hi)%list_elem_of_lookup_1. unfold supplier_ids.
  erewrite assign_ids_get; [by eexists|apply supplier_audit_NoDup|done].
Qed.

Lemma client_ids_get all_rows k :
  k ∈ od_keys (build_client_data all_rows) → is_Some (od_get k (client_ids uuid4 all_rows)).
Proof.
  intros (i & Hi)%list_elem_of_lookup_1. unfold client_ids.
  erewrite assign_ids_get; [by eexists|apply client_audit_NoDup|done].
Qed.

(** The assembler returns on rows whose text fields are trimmed. *)
Lemma pipeline_returns all_rows :
  Forall row_trimmed all_rows → returns (pipeline uuid4 all_rows).
Proof.
  intros Hrows.
  destruct (for_each_returns (legacy_supplier all_rows (supplier_ids uuid4 all_rows))
              (od_values (build_supplier_data all_rows).2)) as [ls Hls].
  { intros e He. unfold legacy_supplier, od_index.
    destruct (supplier_ids_get all_rows (SupplierAudit.clean_name e)) as [i ->].
    - rewrite <- supplier_audit_names. by apply list_elem_of_fmap_2.
    - by eexists. }
  destruct (for_each_returns (legacy_client (client_ids uuid4 all_rows))
              (od_values (build_client_data all_rows))) as [lc Hlc].
  { intros e He. unfold legacy_client, od_index.
    destruct (client_ids_get all_rows (ClientAudit.client_clean e)) as [i ->].
    - rewrite <- client_audit_names. by apply list_elem_of_fmap_2.
    - by eexists. }
  destruct (legacy_trades_returns uuid4 (supplier_ids uuid4 all_rows) (client_ids uuid4 all_rows) all_rows
              (length (od_values (build_supplier_data all_rows).2)
               + length (od_values (build_client_data all_rows))) Hrows) as [lt Hlt].
  exists (ls, lc, lt). by apply pipeline_tables.
Qed.

(** Every key of the supplier audit has a record in [legacy_suppliers]
    that carries the token the identifier map holds for the key. *)
Lemma supplier_record_of_key all_rows ls k :
  for_each (legacy_supplier all_rows (supplier_ids uuid4 all_rows))
    (od_values (build_supplier_data all_rows).2) = Return ls →
  k ∈ od_keys (build_supplier_data all_rows).2 →
  ∃ s, s ∈ ls ∧ LegacySupplier.supplier_clean s = k ∧
       od_get k (supplier_ids uuid4 all_rows) = Some (LegacySupplier.id s).
Proof.
  intros Hls%for_each_Forall2 Hk. rewrite <- supplier_audit_names in Hk.
  apply list_elem_of_fmap in Hk as (e & -> & He).
  apply list_elem_of_lookup_1 in He as [i Hi].
  destruct (Forall2_lookup_l _ _ _ _ _ Hls Hi) as (s & Hs & Hrec).
  apply legacy_supplier_fields in Hrec as (Hid & Hname & _).
  exists s. split; [by eapply list_elem_of_lookup_2|done].
Qed.

Lemma client_record_of_key all_rows lc k :
  for_each (legacy_client (client_ids uuid4 all_rows))
    (od_values (build_client_data all_rows)) = Return lc →
  k ∈ od_keys (build_client_data all_rows) →
  ∃ c, c ∈ lc ∧ LegacyClient.client_clean c = k ∧
       od_get k (client_ids uuid4 all_rows) = Some (LegacyClient.id c).
Proof.
  intros Hlc%for_each_Forall2 Hk. rewrite <- client_audit_names in Hk.
  apply list_elem_of_fmap in Hk as (e & -> & He).
  apply list_elem_of_lookup_1 in He as [i Hi].
  destruct (Forall2_lookup_l _ _ _ _ _ Hlc Hi) as (c & Hc & Hrec).
  apply legacy_client_fields in Hrec as (Hid & Hname & _).
  exists c. split; [by eapply list_elem_of_lookup_2|done].
Qed.

Lemma assign_ids_tokens keys n k i :
  NoDup keys → od_get k (assign_ids uuid4 keys n) = Some i → ∃ j, i = uuid4 j.
Proof.
  intros Hnd. unfold assign_ids. rewrite assign_ids_fold by done.
  destruct (list_find _ keys) as [[j ?]|]; [|done]. intros [= <-]. by eexists.
Qed.

(** C3. In the tables of a run, the [client_id] of every trade is the
    [id] of the record of [legacy_clients] for the canonical client of the
    trade's row, and its [supplier_id] is the [id] of the record of
    [legacy_suppliers] for the canonical supplier of the row; neither is the
    empty default, the tokens of [uuid4] not being empty. The run returns
    its tables for rows as the ingestor builds them. *)
Theorem trade_ids_resolve (all_rows : list RawRow) :
  (∀ n, uuid4 n ≠ "") →
  (∀ ls lc lt, pipeline uuid4 all_rows = Return (ls, lc, lt) →
     ∀ t, t ∈ lt →
       (∃ c, c ∈ lc ∧ LegacyClient.id c = LegacyTrade.client_id t ∧
             LegacyClient.client_clean c = trade_client_key (LegacyTrade.raw_row t)) ∧
       (∃ s, s ∈ ls ∧ LegacySupplier.id s = LegacyTrade.supplier_id t ∧
             LegacySupplier.supplier_clean s = trade_supplier_key (LegacyTrade.raw_row t)) ∧
       LegacyTrade.client_id t ≠ "" ∧ LegacyTrade.supplier_id t ≠ "") ∧
  (Forall row_trimmed all_rows → returns (pipeline uuid4 all_rows)).
Proof.
  intros Hid. split; [|apply pipeline_returns].
  intros ls lc lt (Hls & Hlc & Hlt)%pipeline_tables t Ht.
  destruct (legacy_trades_elem _ _ _ _ _ _ _ Hlt Ht) as (i & row & Hi & Hrow).
  apply list_elem_of_lookup_2 in Hi.
  unfold legacy_trade in Hrow. destruct (infer_category row) as [cat|]; [|done].
  injection Hrow as <-. cbn [LegacyTrade.client_id LegacyTrade.supplier_id LegacyTrade.raw_row].
  destruct (client_record_of_key all_rows lc (trade_client_key row) Hlc)
    as (c & Hc & Hcn & Hcid); [by apply client_audit_complete_key|].
  destruct (supplier_record_of_key all_rows ls (trade_supplier_key row) Hls)
    as (s & Hs & Hsn & Hsid); [by apply supplier_audit_complete|].
  rewrite Hcid, Hsid. cbn [default from_option].
  split; [exists c; split; [exact Hc|split; [reflexivity|exact Hcn]]|].
  split; [exists s; split; [exact Hs|split; [reflexivity|exact Hsn]]|].
  apply assign_ids_tokens in Hcid as [j ->]; [|apply client_audit_NoDup].
  apply assign_ids_tokens in Hsid as [j' ->]; [|apply supplier_audit_NoDup].
  split; apply Hid.
Qed.

End pipeline_facts.

Lemma trade_ids_resolve_witness :
  let uuid4 := fun n : nat => "id-" +:+ pretty n in
  let rows := [sample_row "Acme Ltd" "Active" "Galaxy" "Hope" 2;
               sample_row "" "" "" "MC" 2] in
  ∃ ls lc lt, pipeline uuid4 rows = Return (ls, lc, lt) ∧
    ∀ t, t ∈ lt →
      (∃ c, c ∈ lc ∧ LegacyClient.id c = LegacyTrade.client_id t) ∧
      (∃ s, s ∈ ls ∧ LegacySupplier.id s = LegacyTrade.supplier_id t) ∧
      LegacyTrade.client_id t ≠ "" ∧ LegacyTrade.supplier_id t ≠ "".
Proof.
  intros uuid4 rows.
  destruct (trade_ids_resolve uuid4 rows) as [Hint Hret].
  { intros n. unfold uuid4. discriminate. }
  destruct Hret as [[[ls lc] lt] Hp].
  { repeat constructor. }
  exists ls, lc, lt. split; [exact Hp|].
  intros t Ht. destruct (Hint ls lc lt Hp t Ht) as ((c & Hc & Hcid & _) & (s & Hs & Hsid & _) & Hne).
  split; [exists c; split; [exact Hc|exact Hcid]|].
  split; [exists s; split; [exact Hs|exact Hsid]|]. exact Hne.
Defined.

(** ** The supplier ["Unknown"] *)

Lemma supplier_key_unknown row :
  supplier_key row = "Unknown" ↔ supplier_raw row = "" ∨ supplier_raw row = "Unknown".
Proof.
  unfold supplier_key. split.
  - intros H. apply normalize_supplier_unknown in H; [|apply supplier_raw_or_unknown_ne].
    unfold supplier_raw_or_unknown in H. case_bool_decide; [by left|by right].
  - unfold supplier_raw_or_unknown. intros [->| ->]; reflexivity.
Qed.

Lemma unknown_entry_fields all_rows k e :
  od_get k (build_supplier_data all_rows).2 = Some e →
  SupplierAudit.clean_name e = k ∧
  (k = "Unknown" →
   SupplierAudit.requires_review e = false ∧ SupplierAudit.reason e = "" ∧
   "Unknown" ∈ SupplierAudit.raw_variants e ∧ "" ∉ SupplierAudit.raw_variants e).
Proof.
  rewrite supplier_audit_get.
  destruct (group_of supplier_key k all_rows) as [|r0 g] eqn:Hg; [done|].
  intros Heq. apply (inj Some) in Heq. subst e. split; [done|]. intros ->.
  cbn [SupplierAudit.requires_review SupplierAudit.reason SupplierAudit.raw_variants].
  assert (r0 ∈ group_of supplier_key "Unknown" all_rows) as Hr0 by (rewrite Hg; left).
  apply group_of_elem in Hr0 as [_ Hk0].
  assert (supplier_raw_or_unknown r0 = "Unknown") as Hraw.
  { apply normalize_supplier_unknown; [apply supplier_raw_or_unknown_ne|done]. }
  split; [by rewrite Hraw|]. split; [by rewrite Hraw|]. split.
  - rewrite sorted_elem, elem_of_list_to_set, list_elem_of_fmap.
    exists r0. split; [done|left].
  - rewrite sorted_elem, elem_of_list_to_set.
    intros (r & Hr & _)%list_elem_of_fmap. symmetry in Hr.
    by apply supplier_raw_or_unknown_ne in Hr.
Qed.

(** C10. The aggregation puts ["Unknown"] in the place of an empty
    supplier label before it normalizes. So, when some row has an empty
    label or the label ["Unknown"], the audit has an entry named
    ["Unknown"]; every audit entry of that name, and every record of
    [legacy_suppliers] of that name, is not flagged for review, has the
    empty reason, and lists ["Unknown"] among its raw variants and never the
    empty text. *)
Theorem unknown_supplier_entry (uuid4 : nat → string) (all_rows : list RawRow) :
  (∃ row, row ∈ all_rows ∧ (supplier_raw row = "" ∨ supplier_raw row = "Unknown")) →
  (∃ e, e ∈ od_values (build_supplier_data all_rows).2 ∧
        SupplierAudit.clean_name e = "Unknown") ∧
  (∀ e, e ∈ od_values (build_supplier_data all_rows).2 →
     SupplierAudit.clean_name e = "Unknown" →
     SupplierAudit.requires_review e = false ∧ SupplierAudit.reason e = "" ∧
     "Unknown" ∈ SupplierAudit.raw_variants e ∧ "" ∉ SupplierAudit.raw_variants e) ∧
  (∀ ls lc lt, pipeline uuid4 all_rows = Return (ls, lc, lt) →
     (∃ s, s ∈ ls ∧ LegacySupplier.supplier_clean s = "Unknown") ∧
     (∀ s, s ∈ ls → LegacySupplier.supplier_clean s = "Unknown" →
        LegacySupplier.requires_review s = false ∧ LegacySupplier.reason s = "" ∧
        "Unknown" ∈ LegacySupplier.raw_variants s ∧ "" ∉ LegacySupplier.raw_variants s)).
Proof.
  intros (row & Hrow & Hraw).
  assert (∀ e, e ∈ od_values (build_supplier_data all_rows).2 →
     SupplierAudit.clean_name e = "Unknown" →
     SupplierAudit.requires_review e = false ∧ SupplierAudit.reason e = "" ∧
     "Unknown" ∈ SupplierAudit.raw_variants e ∧ "" ∉ SupplierAudit.raw_variants e) as Hall.
  { intros e [k Hk]%od_values_elem Hname; [|apply supplier_audit_NoDup].
    destruct (unknown_entry_fields _ _ _ Hk) as [Hname' Hf]. apply Hf. congruence. }
  assert ("Unknown" ∈ od_keys (build_supplier_data all_rows).2) as Hkey.
  { apply supplier_key_unknown in Hraw. rewrite supplier_key_join in Hraw.
    rewrite <- Hraw. by apply supplier_audit_complete. }
  split; [|split; [done|]].
  - rewrite <- supplier_audit_names in Hkey.
    apply list_elem_of_fmap in Hkey as (e & He & Hin). by exists e.
  - intros ls lc lt (Hls & _ & _)%pipeline_tables. split.
    + destruct (supplier_record_of_key uuid4 all_rows ls "Unknown" Hls Hkey)
        as (s & Hs & Hname & _). by exists s.
    + intros s Hs Hname. apply for_each_Forall2 in Hls.
      apply list_elem_of_lookup_1 in Hs as [i Hi].
      destruct (Forall2_lookup_r _ _ _ _ _ Hls Hi) as (e & He & Hrec).
      apply legacy_supplier_fields in Hrec as (_ & Hn & -> & -> & ->).
      apply Hall; [by eapply list_elem_of_lookup_2|congruence].
Qed.

Lemma unknown_supplier_entry_witness :
  let uuid4 := fun n : nat => "id-" +:+ pretty n in
  let rows := [sample_row "Acme Ltd" "Active" "" "Hope" 2;
               sample_row "Bolt" "Active" "Unknown" "MC" 2;
               sample_row "Bolt" "Active" "LOCAL" "MC" 3] in
  ∃ e, e ∈ od_values (build_supplier_data rows).2 ∧
       SupplierAudit.clean_name e = "Unknown" ∧
       SupplierAudit.requires_review e = false ∧ SupplierAudit.reason e = "" ∧
       "Unknown" ∈ SupplierAudit.raw_variants e ∧ "" ∉ SupplierAudit.raw_variants e.
Proof.
  intros uuid4 rows.
  destruct (unknown_supplier_entry uuid4 rows) as ((e & He & Hname) & Hall & _).
  { exists (sample_row "Acme Ltd" "Active" "" "Hope" 2). split; [left|].
    left. reflexivity. }
  exists e. split; [exact He|]. split; [exact Hname|]. exact (Hall e He Hname).
Defined.

(** ** Earliest and latest dates *)

Lemma ltb_le a b : String.ltb a b = true → String.le a b.
Proof.
  unfold String.le, String.ltb, String.leb. by destruct (a ?= b)%string.
Qed.

Lemma not_ltb_le a b : String.ltb a b = false → String.le b a.
Proof.
  unfold String.le, String.ltb, String.leb. rewrite (String.compare_antisym a b).
  by destruct (b ?= a)%string.
Qed.

Section least_facts.
Context (R : relation string) `{!PreOrder R} `{!AntiSymm (=) R}.
Context (before : string → string → bool).
Hypothesis before_R : ∀ a b, before a b = true → R a b.
Hypothesis not_before_R : ∀ a b, before a b = false → R b a.

Lemma least_unique l o o' : least R l o → least R l o' → o = o'.
Proof.
  destruct o as [m|], o' as [m'|]; cbn.
  - intros [Hm Hl] [Hm' Hl']. f_equal. apply (anti_symm R); auto.
  - intros [Hm _] ->. by apply elem_of_nil in Hm.
  - intros -> [Hm _]. by apply elem_of_nil in Hm.
  - done.
Qed.

Lemma least_Permutation l l' o : l ≡ₚ l' → least R l o → least R l' o.
Proof.
  intros Hp. destruct o as [m|]; cbn.
  - intros [Hm Hl]. split; [by rewrite <- Hp|]. intros x Hx. apply Hl. by rewrite Hp.
  - intros ->. by apply Permutation_nil_l in Hp.
Qed.

(** The loop of [min] and [max] keeps the least member met so far. *)
Lemma pick_fold_least l x :
  least R (x :: l) (Some (foldl (fun m y => if before y m then y else m) x l)).
Proof.
  revert x. induction l as [|y l IH]; intros x; cbn [foldl].
  - split; [left|]. intros z ->%list_elem_of_singleton. reflexivity.
  - destruct (IH (if before y x then y else x)) as [Hin Hle]. split.
    + apply elem_of_cons in Hin as [Hin|Hin].
      * rewrite Hin. destruct (before y x); [right; left|left].
      * by do 2 right.
    + intros z Hz.
      assert (R (if before y x then y else x) x ∧ R (if before y x then y else x) y)
        as [Hx Hy].
      { destruct (before y x) eqn:Hb; split; try reflexivity; auto. }
      apply elem_of_cons in Hz as [->|Hz]; [|apply elem_of_cons in Hz as [->|Hz]].
      * etrans; [|exact Hx]. apply Hle. left.
      * etrans; [|exact Hy]. apply Hle. left.
      * apply Hle. by right.
Qed.

(** The two tests of [build_client_data] on a date keep the least date
    met so far; [seen] is [None] or a date. *)
Lemma track_date_least d seen l :
  (∀ m, seen = Some m → m ≠ "") →
  least R l seen →
  let d' := if some_text d then d else None in
  (∀ m, track_date before d seen = Some m → m ≠ "") ∧
  least R (l ++ option_list d')%list (track_date before d seen).
Proof.
  intros Hv Hl. unfold track_date.
  destruct d as [x|]; cbn [some_text]; [|by rewrite app_nil_r].
  case_bool_decide as Hx; cbn [negb option_list]; [by rewrite app_nil_r|].
  destruct seen as [o|]; cbn [some_text from_option negb orb].
  - rewrite bool_decide_false by (by apply Hv). cbn [negb orb].
    destruct Hl as [Ho Hle].
    destruct (before x o) eqn:Hb.
    + split; [by intros m [= <-]|]. split; [apply elem_of_app; right; left|].
      intros z [Hz|Hz%list_elem_of_singleton]%elem_of_app; [|by subst z].
      etrans; [by apply before_R|]. by apply Hle.
    + split; [done|]. split; [apply elem_of_app; by left|].
      intros z [Hz|Hz%list_elem_of_singleton]%elem_of_app; [by apply Hle|].
      subst z. by apply not_before_R.
  - cbn in Hl. subst l. split; [by intros m [= <-]|].
    split; [left|]. intros z ->%list_elem_of_singleton. reflexivity.
Qed.

Lemma track_fold_least g seen l :
  (∀ m, seen = Some m → m ≠ "") →
  least R l seen →
  least R (l ++ omap dated g)%list
    (foldl (fun s r => track_date before (date r) s) seen g).
Proof.
  revert seen l. induction g as [|r g IH]; intros seen l Hv Hl; cbn [foldl omap].
  - by rewrite app_nil_r.
  - destruct (track_date_least (date r) seen l Hv Hl) as [Hv' Hl'].
    specialize (IH _ _ Hv' Hl'). rewrite <- app_assoc in IH.
    unfold dated at 1. cbn [list_omap]. fold (dated r).
    destruct (dated r) eqn:Hd; unfold dated in Hd; rewrite Hd in IH; exact IH.
Qed.

Lemma track_fold_Permutation g g' :
  g ≡ₚ g' →
  foldl (fun s r => track_date before (date r) s) None g =
  foldl (fun s r => track_date before (date r) s) None g'.
Proof.
  intros Hp. apply (least_unique (omap dated g)).
  - apply (track_fold_least g None []); done.
  - apply (least_Permutation (omap dated g')); [by rewrite Hp|].
    apply (track_fold_least g' None []); done.
Qed.

Lemma pick_Permutation l l' :
  l ≡ₚ l' →
  match l with
  | [] => None
  | x :: t => Some (foldl (fun m y => if before y m then y else m) x t)
  end =
  match l' with
  | [] => None
  | x :: t => Some (foldl (fun m y => if before y m then y else m) x t)
  end.
Proof.
  intros Hp. apply (least_unique l).
  - destruct l; [done|apply pick_fold_least].
  - apply (least_Permutation l'); [done|]. destruct l'; [done|apply pick_fold_least].
Qed.

End least_facts.

(** ** Row order *)

Lemma first_seen_Permutation g g' :
  g ≡ₚ g' →
  foldl (fun s r => track_date String.ltb (date r) s) None g =
  foldl (fun s r => track_date String.ltb (date r) s) None g'.
Proof.
  apply (track_fold_Permutation String.le String.ltb); [apply ltb_le|apply not_ltb_le].
Qed.

#[local] Instance flip_le_anti_symm : AntiSymm (=) (flip String.le).
Proof. intros a b Hab Hba. by apply (anti_symm String.le). Qed.

Lemma last_seen_Permutation g g' :
  g ≡ₚ g' →
  foldl (fun s r => track_date (fun d o => String.ltb o d) (date r) s) None g =
  foldl (fun s r => track_date (fun d o => String.ltb o d) (date r) s) None g'.
Proof.
  apply (track_fold_Permutation (flip String.le) (fun d o => String.ltb o d)).
  - intros a b. apply ltb_le.
  - intros a b. apply not_ltb_le.
Qed.

Lemma py_min_Permutation l l' : l ≡ₚ l' → py_min l = py_min l'.
Proof.
  apply (pick_Permutation String.le String.ltb); [apply ltb_le|apply not_ltb_le].
Qed.

Lemma py_max_Permutation l l' : l ≡ₚ l' → py_max l = py_max l'.
Proof.
  intros Hp. unfold py_max.
  apply (pick_Permutation (flip String.le) (fun y m => String.ltb m y)); [| |done].
  - intros a b. apply ltb_le.
  - intros a b. apply not_ltb_le.
Qed.

Lemma client_group_entry_Permutation k g g' :
  g ≡ₚ g' → client_group_entry k g = client_group_entry k g'.
Proof.
  intros Hp. unfold client_group_entry.
  rewrite (first_seen_Permutation g g' Hp), (last_seen_Permutation g g' Hp).
  rewrite (Permutation_length Hp).
  rewrite (list_to_set_perm_L (client_raw_or_unknown <$> g) (client_raw_or_unknown <$> g'))
    by (by rewrite Hp).
  rewrite (list_to_set_perm_L (client_status_raw <$> g) (client_status_raw <$> g'))
    by (by rewrite Hp).
  rewrite (list_to_set_perm_L (source <$> g) (source <$> g')) by (by rewrite Hp).
  done.
Qed.

(** The client audit of a reordered input has the same entries. *)
Lemma client_audit_get_Permutation all_rows all_rows' k :
  all_rows ≡ₚ all_rows' →
  od_get k (build_client_data all_rows) = od_get k (build_client_data all_rows').
Proof.
  intros Hp. rewrite !client_audit_get.
  pose proof (group_of_Permutation client_key k _ _ Hp) as Hg.
  destruct (group_of client_key k all_rows) as [|r0 g] eqn:H1,
           (group_of client_key k all_rows') as [|r0' g'] eqn:H2.
  - done.
  - by apply Permutation_nil_l in Hg.
  - by apply Permutation_nil_r in Hg.
  - by rewrite (client_group_entry_Permutation k _ _ Hg).
Qed.

Lemma supplier_group_normalize k all_rows r r' :
  r ∈ group_of supplier_key k all_rows → r' ∈ group_of supplier_key k all_rows →
  normalize_supplier (Some (supplier_raw_or_unknown r))
  = normalize_supplier (Some (supplier_raw_or_unknown r')).
Proof.
  intros [_ Hr]%group_of_elem [_ Hr']%group_of_elem.
  apply normalize_supplier_flag; try apply supplier_raw_or_unknown_ne.
  unfold supplier_key in *. congruence.
Qed.

(** The supplier audit of a reordered input has the same entries, the
    trail of row numbers apart, which is reordered. *)
Lemma supplier_audit_get_Permutation all_rows all_rows' k :
  all_rows ≡ₚ all_rows' →
  without_rows <$> od_get k (build_supplier_data all_rows).2
  = without_rows <$> od_get k (build_supplier_data all_rows').2.
Proof.
  intros Hp. rewrite !supplier_audit_get.
  pose proof (group_of_Permutation supplier_key k _ _ Hp) as Hg.
  destruct (group_of supplier_key k all_rows) as [|r0 g] eqn:H1,
           (group_of supplier_key k all_rows') as [|r0' g'] eqn:H2.
  - done.
  - by apply Permutation_nil_l in Hg.
  - by apply Permutation_nil_r in Hg.
  - rewrite (supplier_group_normalize k all_rows' r0 r0').
    + rewrite (list_to_set_perm_L (supplier_raw_or_unknown <$> r0 :: g)
                 (supplier_raw_or_unknown <$> r0' :: g')) by (by rewrite Hg).
      rewrite (list_to_set_perm_L (source <$> r0 :: g) (source <$> r0' :: g'))
        by (by rewrite Hg).
      reflexivity.
    + rewrite H2, <- Hg. left.
    + rewrite H2. left.
Qed.

Lemma supplier_trail_Permutation all_rows all_rows' k e e' :
  all_rows ≡ₚ all_rows' →
  od_get k (build_supplier_data all_rows).2 = Some e →
  od_get k (build_supplier_data all_rows').2 = Some e' →
  SupplierAudit.rows e ≡ₚ SupplierAudit.rows e'.
Proof.
  intros Hp. rewrite !supplier_audit_get.
  pose proof (group_of_Permutation supplier_key k _ _ Hp) as Hg.
  destruct (group_of supplier_key k all_rows) as [|r0 g]; [done|].
  destruct (group_of supplier_key k all_rows') as [|r0' g']; [done|].
  intros H1 H2. apply (inj Some) in H1, H2. subst e e'.
  cbn [SupplierAudit.rows]. by rewrite Hg.
Qed.

Lemma supplier_map_NoDup all_rows : NoDup (od_keys (build_supplier_data all_rows).1).
Proof.
  rewrite build_supplier_data_eq. cbn [fst].
  assert (∀ rows m, NoDup (od_keys m) → NoDup (od_keys (foldl supplier_map_step m rows)))
    as Hfold.
  { induction rows as [|r rows IH]; intros m Hm; [done|].
    cbn [foldl]. apply IH. by apply od_keys_set_NoDup. }
  apply Hfold. constructor.
Qed.

Lemma supplier_map_Permutation all_rows all_rows' :
  all_rows ≡ₚ all_rows' →
  (build_supplier_data all_rows).1 ≡ₚ (build_supplier_data all_rows').1.
Proof.
  intros Hp. apply od_Permutation; try apply supplier_map_NoDup.
  intros k. rewrite !supplier_map_get.
  destruct (decide (k ∈ supplier_raw_or_unknown <$> all_rows)) as [Hin|Hin].
  - rewrite decide_True; [done|]. by rewrite <- Hp.
  - rewrite decide_False; [done|]. by rewrite <- Hp.
Qed.

Lemma supplier_audit_Permutation all_rows all_rows' :
  all_rows ≡ₚ all_rows' →
  without_rows <$> od_values (build_supplier_data all_rows).2
  ≡ₚ without_rows <$> od_values (build_supplier_data all_rows').2.
Proof.
  intros Hp.
  assert (prod_map id without_rows <$> (build_supplier_data all_rows).2
          ≡ₚ prod_map id without_rows <$> (build_supplier_data all_rows').2) as Hd.
  { apply od_Permutation.
    - rewrite od_keys_fmap. apply supplier_audit_NoDup.
    - rewrite od_keys_fmap. apply supplier_audit_NoDup.
    - intros k. rewrite !od_get_fmap. by apply supplier_audit_get_Permutation. }
  apply (fmap_Permutation snd) in Hd. unfold od_values.
  rewrite <- !list_fmap_compose in *. exact Hd.
Qed.

Lemma client_audit_Permutation all_rows all_rows' :
  all_rows ≡ₚ all_rows' →
  od_values (build_client_data all_rows) ≡ₚ od_values (build_client_data all_rows').
Proof.
  intros Hp. unfold od_values. apply fmap_Permutation.
  apply od_Permutation; try apply client_audit_NoDup.
  intros k. by apply client_audit_get_Permutation.
Qed.

(** The lists of raw variants and of sources are sorted and without
    duplicates in every audit entry. *)
Lemma supplier_audit_sorted all_rows e :
  e ∈ od_values (build_supplier_data all_rows).2 →
  StronglySorted String.le (SupplierAudit.raw_variants e) ∧
  NoDup (SupplierAudit.raw_variants e) ∧
  StronglySorted String.le (SupplierAudit.sources e) ∧
  NoDup (SupplierAudit.sources e).
Proof.
  intros [k Hk]%od_values_elem; [|apply supplier_audit_NoDup].
  rewrite supplier_audit_get in Hk.
  destruct (group_of supplier_key k all_rows); [done|].
  apply (inj Some) in Hk. subst e.
  cbn [SupplierAudit.raw_variants SupplierAudit.sources].
  auto using sorted_Sorted, sorted_NoDup.
Qed.

Lemma client_audit_sorted all_rows e :
  e ∈ od_values (build_client_data all_rows) →
  StronglySorted String.le (ClientAudit.raw_variants e) ∧
  NoDup (ClientAudit.raw_variants e) ∧
  StronglySorted String.le (ClientAudit.sources e) ∧
  NoDup (ClientAudit.sources e).
Proof.
  intros [k Hk]%od_values_elem; [|apply client_audit_NoDup].
  rewrite client_audit_get in Hk.
  destruct (group_of client_key k all_rows); [done|].
  apply (inj Some) in Hk. subst e.
  cbn [client_emit ClientAudit.raw_variants ClientAudit.sources].
  auto using sorted_Sorted, sorted_NoDup.
Qed.

Lemma for_each_fmap {A B C} (f : A → outcome B) (g : B → C) (h : A → C) l l' :
  (∀ x y, f x = Return y → g y = h x) →
  for_each f l = Return l' → g <$> l' = h <$> l.
Proof.
  intros Hgh. revert l'. induction l as [|x l IH]; intros l'; cbn [for_each].
  - by intros [= <-].
  - destruct (f x) as [y|] eqn:Hx; [|done]. cbn.
    destruct (for_each f l) as [ys|]; [|done]. cbn. intros [= <-].
    rewrite !fmap_cons. by rewrite (Hgh x y Hx), (IH ys eq_refl).
Qed.

Lemma legacy_supplier_record all_rows sid e s :
  legacy_supplier all_rows sid e = Return s →
  supplier_without_id s = supplier_record all_rows e.
Proof.
  unfold legacy_supplier, od_index.
  destruct (od_get (SupplierAudit.clean_name e) sid); [|done]. by intros [= <-].
Qed.

Lemma legacy_client_record cid e c :
  legacy_client cid e = Return c → client_without_id c = client_record e.
Proof.
  unfold legacy_client, od_index.
  destruct (od_get (ClientAudit.client_clean e) cid); [|done]. by intros [= <-].
Qed.

Lemma legacy_trades_records uuid4 sid cid rows n lt :
  legacy_trades uuid4 sid cid rows n = Return lt →
  trade_without_ids <$> lt = omap trade_record rows.
Proof.
  revert n lt. induction rows as [|row rows IH]; intros n lt; cbn [legacy_trades].
  - by intros [= <-].
  - unfold legacy_trade at 1. cbn [omap list_omap]. unfold trade_record at 1.
    destruct (infer_category row) as [c|]; [|done]. cbn.
    destruct (legacy_trades uuid4 sid cid rows (S n)) as [ts|] eqn:Hts; [|done]. cbn.
    intros [= <-]. rewrite fmap_cons. f_equal. by apply (IH (S n)).
Qed.

Lemma supplier_record_without_rows all_rows e :
  supplier_record all_rows (without_rows e) = supplier_record all_rows e.
Proof. reflexivity. Qed.

Lemma supplier_record_Permutation all_rows all_rows' e :
  all_rows ≡ₚ all_rows' → supplier_record all_rows e = supplier_record all_rows' e.
Proof.
  intros Hp. unfold supplier_record.
  set (P := fun r => trade_supplier_key r = SupplierAudit.clean_name e).
  assert (filter P all_rows ≡ₚ filter P all_rows') as Hf by (by rewrite Hp).
  rewrite (py_min_Permutation _ _ (omap_Permutation dated _ _ Hf)).
  rewrite (py_max_Permutation _ _ (omap_Permutation dated _ _ Hf)).
  by rewrite (Permutation_length Hf).
Qed.

Lemma live_seed_without_id ls :
  live_without_id <$> build_live_supplier_seed ls
  = live_without_id ∘ live_supplier <$> (supplier_without_id <$> ls).
Proof.
  unfold build_live_supplier_seed. rewrite <- !list_fmap_compose.
  apply list_fmap_ext. intros i s _. reflexivity.
Qed.

(** * Further properties of the code *)

(** ** Text cleaning and title case *)

Lemma upper_lower_char c : Str.upper_char (Str.lower_char c) = Str.upper_char c.
Proof. destruct c as [[] [] [] [] [] [] [] []]; reflexivity. Qed.

Lemma capitalize_lower w :
  ascii_text w = true → Str.capitalize (Str.lower w) = Str.capitalize w.
Proof.
  destruct w as [|c w]; [done|]. intros Hw.
  pose proof (ascii_lower _ Hw) as Hl. cbn [Str.lower ascii_text] in Hw, Hl |- *.
  apply andb_true_iff in Hw as [Hc _]. apply andb_true_iff in Hl as [Hlc _].
  rewrite !capitalize_ascii by done. by rewrite upper_lower_char, lower_idem.
Qed.

Lemma split_lower s : Str.split (Str.lower s) = Str.lower <$> Str.split s.
Proof.
  induction s as [|c s IH]; [done|].
  cbn [Str.lower Str.split]. rewrite is_space_lower.
  destruct (Str.is_space c); [done|].
  destruct s as [|c' s']; [done|].
  cbn [Str.lower] in *. rewrite is_space_lower.
  destruct (Str.is_space c'); [by rewrite IH|].
  rewrite IH. by destruct (Str.split (String c' s')).
Qed.

Lemma split_lstrip s : Str.split (Str.lstrip s) = Str.split s.
Proof.
  induction s as [|c s IH]; [done|]. cbn [Str.lstrip].
  destruct (Str.is_space c) eqn:Hc; [|done].
  rewrite IH. cbn [Str.split]. by rewrite Hc.
Qed.

Lemma rstrip_cons c s :
  Str.rstrip (String c s) = "" ∨ ∃ t, Str.rstrip (String c s) = String c t.
Proof.
  cbn [Str.rstrip]. destruct (Str.rstrip s).
  - destruct (Str.is_space c); [by left|right; by eexists].
  - right. by eexists.
Qed.

Lemma split_rstrip s : Str.split (Str.rstrip s) = Str.split s.
Proof.
  induction s as [|c s IH]; [done|]. cbn [Str.rstrip].
  destruct (Str.rstrip s) as [|a r] eqn:Hr.
  - assert (Str.split s = []) as Hs by (by rewrite <- IH).
    destruct (Str.is_space c) eqn:Hc.
    + cbn [Str.split]. by rewrite Hc.
    + cbn [Str.split]. rewrite Hc. destruct s as [|c' s']; [done|].
      rewrite Hs. by destruct (Str.is_space c').
  - destruct s as [|c' s']; [done|].
    destruct (rstrip_cons c' s') as [He|[t Ht]]; [congruence|].
    rewrite Ht in Hr. injection Hr as <- <-.
    change (Str.split (String c (String c' t)))
      with (if Str.is_space c then Str.split (String c' t)
            else if Str.is_space c' then String c "" :: Str.split (String c' t)
            else match Str.split (String c' t) with
                 | w :: ws => String c w :: ws
                 | [] => [String c ""]
                 end).
    rewrite IH. reflexivity.
Qed.

Lemma split_strip s : Str.split (Str.strip s) = Str.split s.
Proof. unfold Str.strip. by rewrite split_rstrip, split_lstrip. Qed.

(** X1. [clean_text] answers with a text that has no white space at either
    end, and cleaning a cleaned text again changes nothing. *)
Theorem clean_text_idempotent (str_of_float : float → string) (v : pyval) :
  trimmed (clean_text str_of_float v) ∧
  clean_text str_of_float (VStr (clean_text str_of_float v)) = clean_text str_of_float v.
Proof.
  split; [apply clean_text_trimmed|].
  pose proof (clean_text_trimmed str_of_float v) as Ht.
  unfold clean_text at 1. cbn [none_or_empty py_str].
  case_bool_decide as He; [by rewrite He|]. exact Ht.
Qed.

(** X2. [title_case] keeps the words of the text in order, each
    capitalized and one blank apart, whatever the white space around them:
    the white space at the ends of the text does not count. On an ASCII text
    the case of the letters does not count either, and applying [title_case]
    twice is applying it once. *)
Theorem title_case_normal_form (s : string) :
  Str.split (title_case s) = Str.capitalize <$> Str.split s ∧
  title_case (Str.strip s) = title_case s ∧
  (ascii_text s = true →
     title_case (title_case s) = title_case s ∧
     title_case (Str.lower s) = title_case s).
Proof.
  split; [|split].
  - rewrite title_case_eq. apply split_join. apply Forall_fmap.
    eapply Forall_impl; [apply split_words|]. intros w Hw. by apply capitalize_word.
  - by rewrite !title_case_eq, split_strip.
  - intros Hs. split; [by apply title_case_idem|].
    rewrite !title_case_eq, split_lower, <- list_fmap_compose. f_equal.
    apply Forall_fmap_ext_1. eapply Forall_impl; [by apply split_ascii|].
    intros w Hw. by apply capitalize_lower.
Qed.

Lemma title_case_normal_form_witness :
  title_case (title_case " leather  TOTE bag") = title_case " leather  TOTE bag" ∧
  title_case "leather tote bag" = title_case "Leather TOTE bag".
Proof.
  destruct (title_case_normal_form " leather  TOTE bag") as (_ & _ & H1).
  destruct (title_case_normal_form "Leather TOTE bag") as (_ & _ & H2).
  destruct H1 as [H1 _]; [reflexivity|]. destruct H2 as [_ H2]; [reflexivity|].
  split; [exact H1|exact H2].
Defined.

(** ** Supplier normalizer *)

Lemma merge_fixed s :
  s ∈ ["Galaxy VIC"; "Stock (Internal)"; "Bags by Appointment"] →
  s ≠ "" ∧ normalize_supplier (Some s)
           = {| nr_clean := s; nr_requires_review := false; nr_reason := None |}.
Proof.
  intros H. repeat (apply elem_of_cons in H as [->|H]; [by split|]).
  by apply elem_of_nil in H.
Qed.

(** X3. The canonical name [normalize_supplier] gives is never empty and is
    its own canonical name; for a label that is not empty, normalizing the
    canonical name gives the answer the label got, flag and reason
    included. *)
Theorem normalize_supplier_canonical (raw : option string) :
  let clean := nr_clean (normalize_supplier raw) in
  clean ≠ "" ∧
  nr_clean (normalize_supplier (Some clean)) = clean ∧
  (∀ s, raw = Some s → s ≠ "" →
     normalize_supplier (Some clean) = normalize_supplier raw).
Proof.
  destruct raw as [[|c s]|]; cbn zeta.
  - split; [done|]. split; [reflexivity|]. by intros s [= <-].
  - rewrite normalize_supplier_text.
    destruct (SUPPLIER_AUTO_MERGE !! String c s) as [merged|] eqn:Hm.
    + apply merge_values, merge_fixed in Hm as [Hne Hfix]. cbn [nr_clean].
      rewrite Hfix. split; [done|]. split; [done|]. done.
    + assert (nr_clean (if bool_decide (String c s ∈ SUPPLIER_REQUIRES_REVIEW)
                then {| nr_clean := String c s; nr_requires_review := true;
                        nr_reason := Some "Ambiguous supplier name" |}
                else {| nr_clean := String c s; nr_requires_review := false;
                        nr_reason := None |}) = String c s) as ->
        by (by destruct (bool_decide _)).
      rewrite normalize_supplier_text, Hm. split; [done|]. split; [|done].
      by destruct (bool_decide _).
  - split; [done|]. split; [reflexivity|]. by intros s [=].
Qed.

Lemma normalize_supplier_canonical_witness :
  normalize_supplier (Some "Stock (Internal)") = normalize_supplier (Some "In Stock").
Proof.
  apply (normalize_supplier_canonical (Some "In Stock") : _ ∧ _ ∧ _) with (s := "In Stock");
    [reflexivity|discriminate].
Defined.

(** ** Supplier aggregation *)

Lemma od_keys_get {V} (d : dict V) k : k ∈ od_keys d → is_Some (od_get k d).
Proof.
  intros Hk. destruct (od_get k d) eqn:Hget; [by eexists|].
  by apply od_get_None in Hget.
Qed.

Lemma supplier_audit_entry all_rows k e :
  od_get k (build_supplier_data all_rows).2 = Some e →
  ∃ r0 g, group_of supplier_key k all_rows = r0 :: g ∧
    e = {| SupplierAudit.clean_name := k;
           SupplierAudit.raw_variants :=
             sorted (list_to_set (supplier_raw_or_unknown <$> r0 :: g));
           SupplierAudit.sources := sorted (list_to_set (source <$> r0 :: g));
           SupplierAudit.rows := row_number <$> r0 :: g;
           SupplierAudit.requires_review :=
             nr_requires_review (normalize_supplier (Some (supplier_raw_or_unknown r0)));
           SupplierAudit.reason :=
             default "" (nr_reason (normalize_supplier (Some (supplier_raw_or_unknown r0)))) |}.
Proof.
  rewrite supplier_audit_get.
  destruct (group_of supplier_key k all_rows) as [|r0 g]; [done|].
  intros Heq. apply (inj Some) in Heq. by exists r0, g.
Qed.

(** X4. Every entry of the supplier audit is flagged for review exactly
    when its canonical name is on the review list; a flagged entry has the
    reason ["Ambiguous supplier name"], any other the empty reason (the
    reason ["Empty supplier"] never reaches the audit), and no entry has the
    empty name. *)
Theorem supplier_audit_review_flag (all_rows : list RawRow)
    (e : SupplierAudit.t (list string)) :
  e ∈ od_values (build_supplier_data all_rows).2 →
  (SupplierAudit.requires_review e = true
   ↔ SupplierAudit.clean_name e ∈ SUPPLIER_REQUIRES_REVIEW) ∧
  SupplierAudit.reason e
    = (if SupplierAudit.requires_review e then "Ambiguous supplier name" else "") ∧
  SupplierAudit.clean_name e ≠ "".
Proof.
  intros [k Hk]%od_values_elem; [|apply supplier_audit_NoDup].
  apply supplier_audit_entry in Hk as (r0 & g & Hg & ->).
  cbn [SupplierAudit.requires_review SupplierAudit.reason SupplierAudit.clean_name].
  assert (supplier_key r0 = k) as Hk.
  { assert (r0 ∈ group_of supplier_key k all_rows) as Hin by (rewrite Hg; left).
    by apply group_of_elem in Hin as [_ ?]. }
  unfold supplier_key in Hk. subst k.
  pose proof (supplier_raw_or_unknown_ne r0) as Hne.
  destruct (supplier_raw_or_unknown r0) as [|c s]; [done|].
  rewrite normalize_supplier_text.
  destruct (SUPPLIER_AUTO_MERGE !! String c s) as [merged|] eqn:Hm.
  - apply merge_values in Hm. cbn [nr_requires_review nr_reason nr_clean default].
    split; [|split; [done|by apply merge_fixed]].
    split; [done|]. intros Hr. by destruct (merged_not_reviewed _ Hm Hr).
  - case_bool_decide as Hr; cbn [nr_requires_review nr_reason nr_clean default].
    + done.
    + split; [|done]. split; [done|]. intros Hr'. by destruct Hr.
Qed.

Lemma supplier_audit_review_flag_witness :
  let rows := [sample_row "Acme" "Active" "LOCAL" "Hope" 2;
               sample_row "Acme" "Active" "" "Hope" 3] in
  ∃ e, od_get "LOCAL" (build_supplier_data rows).2 = Some e ∧
       SupplierAudit.requires_review e = true ∧
       SupplierAudit.reason e = "Ambiguous supplier name".
Proof.
  intros rows.
  destruct (od_get "LOCAL" (build_supplier_data rows).2) as [e|] eqn:He;
    [|by vm_compute in He].
  exists e. split; [reflexivity|].
  assert (e ∈ od_values (build_supplier_data rows).2) as Hin.
  { apply od_values_elem; [apply supplier_audit_NoDup|]. by exists "LOCAL". }
  destruct (supplier_audit_review_flag rows e Hin) as (Hflag & Hreason & _).
  destruct (unknown_entry_fields rows "LOCAL" e He) as [Hname _].
  assert (SupplierAudit.requires_review e = true) as Hr.
  { apply Hflag. rewrite Hname. apply review_list. right. by left. }
  split; [exact Hr|]. by rewrite Hreason, Hr.
Defined.

(** X5. The normalisation map and the supplier audit of a run agree: the
    map holds under each label what [normalize_supplier] says of it, the
    canonical name of the label has an entry in the audit, and the raw
    variants of an audit entry are exactly the labels of the map with that
    canonical name. So no label is a variant of two suppliers. *)
Theorem supplier_map_matches_audit (all_rows : list RawRow) :
  (∀ raw norm, od_get raw (build_supplier_data all_rows).1 = Some norm →
     norm = normalize_supplier (Some raw) ∧
     is_Some (od_get (nr_clean norm) (build_supplier_data all_rows).2)) ∧
  (∀ k e raw, od_get k (build_supplier_data all_rows).2 = Some e →
     (raw ∈ SupplierAudit.raw_variants e
      ↔ ∃ norm, od_get raw (build_supplier_data all_rows).1 = Some norm ∧
                nr_clean norm = k)) ∧
  (∀ k k' e e' raw,
     od_get k (build_supplier_data all_rows).2 = Some e →
     od_get k' (build_supplier_data all_rows).2 = Some e' →
     raw ∈ SupplierAudit.raw_variants e → raw ∈ SupplierAudit.raw_variants e' →
     k = k').
Proof.
  assert (∀ k e raw, od_get k (build_supplier_data all_rows).2 = Some e →
     (raw ∈ SupplierAudit.raw_variants e
      ↔ ∃ norm, od_get raw (build_supplier_data all_rows).1 = Some norm ∧
                nr_clean norm = k)) as Hvar.
  { intros k e raw (r0 & g & Hg & ->)%supplier_audit_entry.
    cbn [SupplierAudit.raw_variants]. rewrite <- Hg.
    rewrite sorted_elem, elem_of_list_to_set, list_elem_of_fmap. split.
    - intros (r & -> & [Hr Hkey]%group_of_elem).
      exists (normalize_supplier (Some (supplier_raw_or_unknown r))).
      split; [|exact Hkey]. rewrite supplier_map_get.
      rewrite decide_True; [done|]. apply list_elem_of_fmap. by exists r.
    - intros (norm & Hget & Hclean). rewrite supplier_map_get in Hget.
      destruct (decide (raw ∈ supplier_raw_or_unknown <$> all_rows)) as [Hin|]; [|done].
      apply (inj Some) in Hget. subst norm.
      apply list_elem_of_fmap in Hin as (r & -> & Hr).
      exists r. split; [done|]. apply group_of_elem. by split. }
  split; [|split; [exact Hvar|]].
  - intros raw norm Hget. rewrite supplier_map_get in Hget.
    destruct (decide (raw ∈ supplier_raw_or_unknown <$> all_rows)) as [Hin|]; [|done].
    apply (inj Some) in Hget. subst norm. split; [done|].
    apply list_elem_of_fmap in Hin as (r & -> & Hr).
    fold (supplier_key r). rewrite supplier_key_join.
    apply supplier_audit_complete in Hr. by apply od_keys_get.
  - intros k k' e e' raw He He' (norm & Hn & <-)%(Hvar k e raw He)
      (norm' & Hn' & <-)%(Hvar k' e' raw He').
    congruence.
Qed.

Lemma supplier_map_matches_audit_witness :
  let rows := [sample_row "Acme" "Active" "Galaxy" "Hope" 2;
               sample_row "Acme" "Active" "Galaxy Vic" "MC" 2] in
  ∃ norm, od_get "Galaxy Vic" (build_supplier_data rows).1 = Some norm ∧
          nr_clean norm = "Galaxy VIC".
Proof.
  intros rows. destruct (supplier_map_matches_audit rows) as (_ & Hvar & _).
  eapply (Hvar "Galaxy VIC" _ "Galaxy Vic"); [vm_compute; reflexivity|].
  apply list_elem_of_further, list_elem_of_here.
Defined.

(** ** Counts *)

Lemma count_key_sum (keys : list string) (x : string) (f : string → nat) :
  NoDup keys →
  sum_list ((fun k => (if decide (x = k) then 1 else 0) + f k) <$> keys)
  = (if decide (x ∈ keys) then 1 else 0) + sum_list (f <$> keys).
Proof.
  induction 1 as [|k keys Hk Hnd IH]; [done|].
  cbn [fmap list_fmap sum_list]. fold (@fmap list _ string nat). rewrite IH.
  destruct (decide (x = k)) as [->|Hne].
  - rewrite (decide_True (P := k ∈ k :: keys)) by left.
    rewrite (decide_False (P := k ∈ keys)) by done. cbn. lia.
  - destruct (decide (x ∈ keys)) as [Hin|Hin].
    + rewrite (decide_True (P := x ∈ k :: keys)) by (by right). cbn. lia.
    + rewrite (decide_False (P := x ∈ k :: keys)); [cbn; lia|].
      by intros [?|?]%elem_of_cons.
Qed.

(** Groups under distinct keys that cover the rows hold each row once. *)
Lemma group_sizes_sum {R} (key : R → string) (keys : list string) (rows : list R) :
  NoDup keys → (∀ r, r ∈ rows → key r ∈ keys) →
  sum_list ((fun k => length (group_of key k rows)) <$> keys) = length rows.
Proof.
  intros Hnd. induction rows as [|r rows IH]; intros Hcov.
  - clear. induction keys as [|k keys IH]; [done|]. cbn. exact IH.
  - erewrite (list_fmap_ext _
      (fun k => (if decide (key r = k) then 1 else 0) + length (group_of key k rows))).
    + rewrite count_key_sum by done. rewrite decide_True by (apply Hcov; left).
      rewrite IH; [done|]. intros r' Hr'. apply Hcov. by right.
    + intros _ k _. unfold group_of. rewrite filter_cons.
      by destruct (decide (key r = k)).
Qed.

Lemma od_values_keys_fmap {V A} (d : dict V) (f : V → A) (g : string → A) :
  NoDup (od_keys d) → (∀ k v, od_get k d = Some v → f v = g k) →
  f <$> od_values d = g <$> od_keys d.
Proof.
  intros Hnd Hfg. unfold od_values, od_keys. rewrite <- !list_fmap_compose.
  apply list_fmap_ext. intros i [k v] Hi. cbn. apply Hfg.
  apply od_elem_get; [done|]. by eapply list_elem_of_lookup_2.
Qed.

Lemma client_audit_entry all_rows k e :
  od_get k (build_client_data all_rows) = Some e →
  ∃ r0 g, group_of client_key k all_rows = r0 :: g ∧
          e = client_emit (client_group_entry k (r0 :: g)).
Proof.
  rewrite client_audit_get.
  destruct (group_of client_key k all_rows) as [|r0 g]; [done|].
  intros Heq. apply (inj Some) in Heq. by exists r0, g.
Qed.

Lemma legacy_trades_rows uuid4 sid cid rows n lt :
  legacy_trades uuid4 sid cid rows n = Return lt →
  LegacyTrade.raw_row <$> lt = rows ∧
  LegacyTrade.id <$> lt = uuid4 <$> seq n (length rows).
Proof.
  revert n lt. induction rows as [|row rows IH]; intros n lt; cbn [legacy_trades].
  - by intros [= <-].
  - destruct (legacy_trade uuid4 sid cid row n) as [t|] eqn:Ht; [|done]. cbn.
    destruct (legacy_trades uuid4 sid cid rows (S n)) as [ts|] eqn:Hts; [|done]. cbn.
    intros [= <-]. destruct (IH _ _ Hts) as [Hrows Hids].
    unfold legacy_trade in Ht. destruct (infer_category row); [|done].
    cbn in Ht. injection Ht as <-. cbn. by rewrite Hrows, Hids.
Qed.

(** X6. The legacy tables count every row once: there is one trade per
    row, and the trade counts of the legacy suppliers add up to the number
    of rows, as do those of the legacy clients. *)
Theorem trade_counts_cover_rows (uuid4 : nat → string) (all_rows : list RawRow)
    (ls : list LegacySupplier.t) (lc : list LegacyClient.t) (lt : list LegacyTrade.t) :
  pipeline uuid4 all_rows = Return (ls, lc, lt) →
  length lt = length all_rows ∧
  sum_list (LegacySupplier.trade_count <$> ls) = length all_rows ∧
  sum_list (LegacyClient.trade_count <$> lc) = length all_rows.
Proof.
  intros (Hls & Hlc & Hlt)%pipeline_tables. split; [|split].
  - apply legacy_trades_rows in Hlt as [Hrows _].
    by rewrite <- Hrows, length_fmap.
  - assert (LegacySupplier.trade_count <$> ls
            = (fun e => length (group_of trade_supplier_key (SupplierAudit.clean_name e)
                                  all_rows))
              <$> od_values (build_supplier_data all_rows).2) as ->.
    { eapply for_each_fmap; [|exact Hls]. intros e s Hs.
      apply legacy_supplier_record in Hs.
      apply (f_equal LegacySupplier.trade_count) in Hs. exact Hs. }
    transitivity
      (sum_list ((fun k => length (group_of trade_supplier_key k all_rows))
                 <$> (SupplierAudit.clean_name
                        <$> od_values (build_supplier_data all_rows).2))).
    { by rewrite <- list_fmap_compose. }
    rewrite supplier_audit_names. apply group_sizes_sum.
    + apply supplier_audit_NoDup.
    + intros r Hr. by apply supplier_audit_complete.
  - assert (LegacyClient.trade_count <$> lc
            = ClientAudit.trade_count <$> od_values (build_client_data all_rows)) as ->.
    { eapply for_each_fmap; [|exact Hlc]. intros e c Hc.
      apply legacy_client_record in Hc.
      apply (f_equal LegacyClient.trade_count) in Hc. exact Hc. }
    rewrite (od_values_keys_fmap _ _
               (fun k => length (group_of client_key k all_rows))).
    + apply group_sizes_sum; [apply client_audit_NoDup|].
      intros r Hr. rewrite client_key_join. by apply client_audit_complete_key.
    + apply client_audit_NoDup.
    + intros k e (r0 & g & Hg & ->)%client_audit_entry. by rewrite Hg.
Qed.

Lemma trade_counts_cover_rows_witness :
  let uuid4 := fun n : nat => "id-" +:+ pretty n in
  let rows := [sample_row "Acme Ltd" "Active" "Galaxy" "Hope" 2;
               sample_row "acme ltd" "" "STOCK" "MC" 2;
               sample_row "" "" "Galaxy Vic" "MC" 3] in
  ∃ ls lc lt, pipeline uuid4 rows = Return (ls, lc, lt) ∧
    sum_list (LegacySupplier.trade_count <$> ls) = 3 ∧
    sum_list (LegacyClient.trade_count <$> lc) = 3.
Proof.
  intros uuid4 rows.
  destruct (pipeline uuid4 rows) as [[[ls lc] lt]|] eqn:Hp; [|by vm_compute in Hp].
  exists ls, lc, lt. split; [reflexivity|].
  destruct (trade_counts_cover_rows uuid4 rows ls lc lt Hp) as (_ & Hs & Hc).
  split; [exact Hs|exact Hc].
Defined.

(** ** Trades *)

Lemma legacy_trade_fields uuid4 sid cid row n t :
  legacy_trade uuid4 sid cid row n = Return t →
  LegacyTrade.raw_row t = row ∧
  LegacyTrade.id t = uuid4 n ∧
  LegacyTrade.invoice_number t = invoice_number row ∧
  LegacyTrade.trade_date t = date row ∧
  LegacyTrade.raw_client t = client_raw row ∧
  LegacyTrade.raw_supplier t = supplier_raw row ∧
  LegacyTrade.item t = item_raw row ∧
  LegacyTrade.brand t = brand_raw row ∧
  LegacyTrade.buy_price t = buy_price_raw row ∧
  LegacyTrade.sell_price t = sell_price_raw row ∧
  LegacyTrade.source t = source row ∧
  LegacyTrade.margin t
    = (if float_is_zero (margin_raw row)
       then float_sub (sell_price_raw row) (buy_price_raw row) else margin_raw row).
Proof.
  unfold legacy_trade. destruct (infer_category row); [|done].
  cbn. intros [= <-]. cbn. repeat split.
Qed.

(** X7. The trades follow the rows: [legacy_trades] has one trade per row,
    in the order of the rows, and a trade carries the invoice number, date,
    labels, item, brand, prices and source of its row unchanged; its margin
    is the margin of the row unless that is zero, and then the sell price
    minus the buy price. *)
Theorem trades_follow_rows (uuid4 : nat → string) (all_rows : list RawRow)
    (ls : list LegacySupplier.t) (lc : list LegacyClient.t) (lt : list LegacyTrade.t) :
  pipeline uuid4 all_rows = Return (ls, lc, lt) →
  LegacyTrade.raw_row <$> lt = all_rows ∧
  ∀ t, t ∈ lt →
    let row := LegacyTrade.raw_row t in
    LegacyTrade.invoice_number t = invoice_number row ∧
    LegacyTrade.trade_date t = date row ∧
    LegacyTrade.raw_client t = client_raw row ∧
    LegacyTrade.raw_supplier t = supplier_raw row ∧
    LegacyTrade.item t = item_raw row ∧
    LegacyTrade.brand t = brand_raw row ∧
    LegacyTrade.buy_price t = buy_price_raw row ∧
    LegacyTrade.sell_price t = sell_price_raw row ∧
    LegacyTrade.source t = source row ∧
    LegacyTrade.margin t
      = (if float_is_zero (margin_raw row)
         then float_sub (sell_price_raw row) (buy_price_raw row) else margin_raw row).
Proof.
  intros (_ & _ & Hlt)%pipeline_tables. split.
  - by apply legacy_trades_rows in Hlt as [? _].
  - intros t Ht. destruct (legacy_trades_elem _ _ _ _ _ _ _ Hlt Ht) as (i & row & _ & Hrow).
    apply legacy_trade_fields in Hrow as (-> & _ & H). exact H.
Qed.

Lemma trades_follow_rows_witness :
  let uuid4 := fun n : nat => "id-" +:+ pretty n in
  let r1 := {| date := Some "2021-01-01"; invoice_number := "INV-1"; client_raw := "Acme";
               client_status_raw := "Active"; supplier_raw := "Galaxy";
               item_raw := "tote"; brand_raw := ""; category_raw := "";
               buy_price_raw := binary_normalize prec emax 60 0 false;
               sell_price_raw := binary_normalize prec emax 100 0 false;
               margin_raw := float_zero; source := "Hope"; row_number := 2 |} in
  let r2 := sample_row "Bolt" "" "LOCAL" "MC" 2 in
  ∃ ls lc lt, pipeline uuid4 [r1; r2] = Return (ls, lc, lt) ∧
    LegacyTrade.raw_row <$> lt = [r1; r2] ∧
    LegacyTrade.margin <$> lt = [binary_normalize prec emax 40 0 false; float_zero].
Proof.
  intros uuid4 r1 r2.
  destruct (pipeline uuid4 [r1; r2]) as [[[ls lc] lt]|] eqn:Hp; [|by vm_compute in Hp].
  exists ls, lc, lt. split; [reflexivity|].
  destruct (trades_follow_rows uuid4 [r1; r2] ls lc lt Hp) as [Hrows _].
  split; [exact Hrows|]. vm_compute in Hp. by injection Hp as <- <- <-.
Defined.

(** ** Identifiers *)

Section identifier_facts.
Variable uuid4 : nat → string.

Lemma legacy_supplier_ids all_rows ls :
  for_each (legacy_supplier all_rows (supplier_ids uuid4 all_rows))
    (od_values (build_supplier_data all_rows).2) = Return ls →
  LegacySupplier.id <$> ls = uuid4 <$> seq 0 (length ls).
Proof.
  intros Hls%for_each_Forall2.
  pose proof (Forall2_length _ _ _ Hls) as Hlen.
  apply list_eq. intros i. rewrite !list_lookup_fmap.
  destruct (ls !! i) as [s|] eqn:Hs.
  - destruct (Forall2_lookup_r _ _ _ _ _ Hls Hs) as (e & He & Hrec).
    apply legacy_supplier_fields in Hrec as (Hid & _).
    assert (od_keys (build_supplier_data all_rows).2 !! i = Some (SupplierAudit.clean_name e))
      as Hk by (by rewrite <- supplier_audit_names, list_lookup_fmap, He).
    unfold supplier_ids in Hid.
    rewrite (assign_ids_get uuid4 _ 0 i _ (supplier_audit_NoDup all_rows) Hk) in Hid.
    injection Hid as Hid. apply lookup_lt_Some in Hs.
    rewrite lookup_seq_lt by done. cbn. by rewrite Hid.
  - apply lookup_ge_None in Hs. by rewrite lookup_seq_ge.
Qed.

Lemma legacy_client_ids all_rows lc :
  for_each (legacy_client (client_ids uuid4 all_rows))
    (od_values (build_client_data all_rows)) = Return lc →
  LegacyClient.id <$> lc
  = uuid4 <$> seq (length (od_values (build_supplier_data all_rows).2)) (length lc).
Proof.
  intros Hlc%for_each_Forall2.
  apply list_eq. intros i. rewrite !list_lookup_fmap.
  destruct (lc !! i) as [c|] eqn:Hc.
  - destruct (Forall2_lookup_r _ _ _ _ _ Hlc Hc) as (e & He & Hrec).
    apply legacy_client_fields in Hrec as (Hid & _).
    assert (od_keys (build_client_data all_rows) !! i = Some (ClientAudit.client_clean e))
      as Hk by (by rewrite <- client_audit_names, list_lookup_fmap, He).
    unfold client_ids in Hid.
    rewrite (assign_ids_get uuid4 _ _ i _ (client_audit_NoDup all_rows) Hk) in Hid.
    injection Hid as Hid. apply lookup_lt_Some in Hc.
    rewrite lookup_seq_lt by done. cbn. by rewrite Hid.
  - apply lookup_ge_None in Hc. by rewrite lookup_seq_ge.
Qed.

End identifier_facts.

(** X8. A run draws one token of [uuid4] for each legacy supplier, then one
    for each legacy client, then one for each trade, in the order of the
    tables and without reuse; the live supplier seed repeats the identifiers
    of the legacy suppliers. With tokens that are pairwise distinct, so are
    the identifiers of all the records of the three tables. *)
Theorem identifiers_fresh (uuid4 : nat → string) (all_rows : list RawRow)
    (ls : list LegacySupplier.t) (lc : list LegacyClient.t) (lt : list LegacyTrade.t) :
  pipeline uuid4 all_rows = Return (ls, lc, lt) →
  ((LegacySupplier.id <$> ls) ++ (LegacyClient.id <$> lc) ++ (LegacyTrade.id <$> lt))%list
    = uuid4 <$> seq 0 (length ls + length lc + length lt) ∧
  LiveSupplier.id <$> build_live_supplier_seed ls = LegacySupplier.id <$> ls ∧
  (Inj (=) (=) uuid4 →
   NoDup ((LegacySupplier.id <$> ls) ++ (LegacyClient.id <$> lc)
          ++ (LegacyTrade.id <$> lt))%list).
Proof.
  intros (Hls & Hlc & Hlt)%pipeline_tables.
  assert (((LegacySupplier.id <$> ls) ++ (LegacyClient.id <$> lc)
           ++ (LegacyTrade.id <$> lt))%list
          = uuid4 <$> seq 0 (length ls + length lc + length lt)) as Hids.
  { pose proof (Forall2_length _ _ _ (proj1 (for_each_Forall2 _ _ _) Hls)) as Hnls.
    pose proof (Forall2_length _ _ _ (proj1 (for_each_Forall2 _ _ _) Hlc)) as Hnlc.
    rewrite (legacy_supplier_ids uuid4 all_rows ls Hls).
    rewrite (legacy_client_ids uuid4 all_rows lc Hlc).
    destruct (legacy_trades_rows _ _ _ _ _ _ Hlt) as [Hrows ->].
    assert (length all_rows = length lt) as -> by (by rewrite <- Hrows, length_fmap).
    rewrite Hnls, Hnlc. rewrite <- !fmap_app. f_equal.
    rewrite <- Nat.add_assoc. rewrite !seq_app. by rewrite !Nat.add_0_l. }
  split; [exact Hids|]. split.
  - unfold build_live_supplier_seed. rewrite <- list_fmap_compose.
    apply list_fmap_ext. by intros i s _.
  - intros Hinj. rewrite Hids. apply NoDup_fmap_2; [done|]. apply NoDup_seq.
Qed.

Lemma identifiers_fresh_witness :
  let uuid4 := fun n : nat => pretty n in
  let rows := [sample_row "Acme Ltd" "Active" "Galaxy" "Hope" 2;
               sample_row "" "" "" "MC" 2] in
  ∃ ls lc lt, pipeline uuid4 rows = Return (ls, lc, lt) ∧
    NoDup ((LegacySupplier.id <$> ls) ++ (LegacyClient.id <$> lc)
           ++ (LegacyTrade.id <$> lt))%list.
Proof.
  intros uuid4 rows.
  destruct (pipeline uuid4 rows) as [[[ls lc] lt]|] eqn:Hp; [|by vm_compute in Hp].
  exists ls, lc, lt. split; [reflexivity|].
  destruct (identifiers_fresh uuid4 rows ls lc lt Hp) as (_ & _ & Hnd).
  apply Hnd. intros a b Hab. by apply (inj pretty) in Hab.
Defined.

(** ** Trails and counts of the suppliers *)

Lemma legacy_supplier_rows all_rows sid e s k :
  od_get k (build_supplier_data all_rows).2 = Some e →
  legacy_supplier all_rows sid e = Return s →
  SupplierAudit.rows e
    = row_number <$> filter (fun r => trade_supplier_key r = SupplierAudit.clean_name e)
                       all_rows ∧
  LegacySupplier.trade_count s = length (SupplierAudit.rows e) ∧
  SupplierAudit.rows e ≠ [].
Proof.
  intros (r0 & g & Hg & Hentry)%supplier_audit_entry Hrec.
  assert (SupplierAudit.rows e = row_number <$> r0 :: g) as Hrows0 by (by subst e).
  assert (SupplierAudit.rows e
          = row_number <$> filter (fun r => trade_supplier_key r = SupplierAudit.clean_name e)
                             all_rows) as Hrows.
  { subst e. cbn [SupplierAudit.rows SupplierAudit.clean_name]. rewrite <- Hg.
    unfold group_of. f_equal. apply list_filter_iff. intros r.
    by rewrite supplier_key_join. }
  apply legacy_supplier_record in Hrec.
  split; [exact Hrows|]. split; [|by rewrite Hrows0].
  rewrite Hrows, length_fmap. exact (f_equal LegacySupplier.trade_count Hrec).
Qed.

(** X9. The legacy suppliers are the entries of the supplier audit, one
    record per entry and in the same order. The trail of row numbers of an
    entry lists, in the order of the rows, the numbers of the rows whose
    label the join resolves to the entry, and the trade count of the legacy
    record, which is computed by a second pass over the rows, is the length
    of that trail; it is never zero. *)
Theorem supplier_trail_is_trade_count (uuid4 : nat → string) (all_rows : list RawRow)
    (ls : list LegacySupplier.t) (lc : list LegacyClient.t) (lt : list LegacyTrade.t) :
  pipeline uuid4 all_rows = Return (ls, lc, lt) →
  Forall2 (fun e s =>
      LegacySupplier.supplier_clean s = SupplierAudit.clean_name e ∧
      SupplierAudit.rows e
        = row_number <$> filter (fun r => trade_supplier_key r = SupplierAudit.clean_name e)
                           all_rows ∧
      LegacySupplier.trade_count s = length (SupplierAudit.rows e) ∧
      (1 ≤ LegacySupplier.trade_count s)%nat)
    (od_values (build_supplier_data all_rows).2) ls.
Proof.
  intros (Hls%for_each_Forall2 & _ & _)%pipeline_tables.
  apply Forall2_same_length_lookup. split; [by eapply Forall2_length|].
  intros i e s He Hs.
  pose proof (Forall2_lookup_lr _ _ _ _ _ _ Hls He Hs) as Hrec.
  assert (e ∈ od_values (build_supplier_data all_rows).2) as Hin
    by (by eapply list_elem_of_lookup_2).
  apply od_values_elem in Hin as [k Hk]; [|apply supplier_audit_NoDup].
  destruct (legacy_supplier_rows _ _ _ _ _ Hk Hrec) as (Hrows & Hcount & Hne).
  apply legacy_supplier_record in Hrec.
  split; [exact (f_equal LegacySupplier.supplier_clean Hrec)|]. split; [exact Hrows|].
  split; [exact Hcount|]. rewrite Hcount.
  destruct (SupplierAudit.rows e); [done|cbn; lia].
Qed.

Lemma supplier_trail_is_trade_count_witness :
  let uuid4 := fun n : nat => "id-" +:+ pretty n in
  let rows := [sample_row "Acme" "Active" "Galaxy" "Hope" 2;
               sample_row "Bolt" "Active" "LOCAL" "Hope" 3;
               sample_row "Acme" "Active" "Galaxy Vic" "MC" 2] in
  ∃ ls lc lt, pipeline uuid4 rows = Return (ls, lc, lt) ∧
    SupplierAudit.rows <$> od_values (build_supplier_data rows).2 = [[2; 2]; [3]] ∧
    LegacySupplier.trade_count <$> ls = [2; 1].
Proof.
  intros uuid4 rows.
  destruct (pipeline uuid4 rows) as [[[ls lc] lt]|] eqn:Hp; [|by vm_compute in Hp].
  exists ls, lc, lt. split; [reflexivity|]. split; [reflexivity|].
  pose proof (supplier_trail_is_trade_count uuid4 rows ls lc lt Hp) as H.
  assert (LegacySupplier.trade_count <$> ls
          = length ∘ SupplierAudit.rows <$> od_values (build_supplier_data rows).2) as ->.
  { clear Hp. induction H as [|e s es ss (_ & _ & Hc & _) _ IH]; [done|].
    cbn [fmap list_fmap]. by rewrite Hc, <- IH. }
  reflexivity.
Defined.

(** ** Earliest and latest dates of an entity *)

Lemma py_min_least l : least String.le l (py_min l).
Proof.
  destruct l as [|x l]; [done|].
  apply (pick_fold_least String.le String.ltb); [apply ltb_le|apply not_ltb_le].
Qed.

Lemma py_max_least l : least (flip String.le) l (py_max l).
Proof.
  destruct l as [|x l]; [done|]. unfold py_max.
  apply (pick_fold_least (flip String.le) (fun y m => String.ltb m y)).
  - intros a b. apply ltb_le.
  - intros a b. apply not_ltb_le.
Qed.

Lemma first_seen_least g :
  least String.le (omap dated g)
    (foldl (fun s r => track_date String.ltb (date r) s) None g).
Proof.
  apply (track_fold_least String.le String.ltb ltb_le not_ltb_le g None []); done.
Qed.

Lemma last_seen_least g :
  least (flip String.le) (omap dated g)
    (foldl (fun s r => track_date (fun d o => String.ltb o d) (date r) s) None g).
Proof.
  apply (track_fold_least (flip String.le) (fun d o => String.ltb o d)) with (l := []).
  - intros a b. apply ltb_le.
  - intros a b. apply not_ltb_le.
  - done.
  - done.
Qed.

(** X10. The first and last dates of the legacy tables are extremes. For a
    legacy supplier and for a legacy client alike, [first_seen] is the least
    and [last_seen] the greatest, in the order of texts, of the dates of the
    rows of the entity that have a date, and both are [None] exactly when no
    row of the entity has one; the running comparison of the client loop
    and the [min] and [max] of the supplier loop give the same answer. *)
Theorem seen_dates_are_extremes (uuid4 : nat → string) (all_rows : list RawRow)
    (ls : list LegacySupplier.t) (lc : list LegacyClient.t) (lt : list LegacyTrade.t) :
  pipeline uuid4 all_rows = Return (ls, lc, lt) →
  (∀ s, s ∈ ls →
     let dates :=
       omap dated (filter (fun r => trade_supplier_key r = LegacySupplier.supplier_clean s)
                     all_rows) in
     least String.le dates (LegacySupplier.first_seen s) ∧
     least (flip String.le) dates (LegacySupplier.last_seen s)) ∧
  (∀ c, c ∈ lc →
     let dates :=
       omap dated (filter (fun r => trade_client_key r = LegacyClient.client_clean c)
                     all_rows) in
     least String.le dates (LegacyClient.first_seen c) ∧
     least (flip String.le) dates (LegacyClient.last_seen c) ∧
     LegacyClient.first_seen c = py_min dates ∧
     LegacyClient.last_seen c = py_max dates).
Proof.
  intros (Hls & Hlc & _)%pipeline_tables. split.
  - intros s Hs. destruct (for_each_elem _ _ _ _ Hls Hs) as (e & _ & Hrec).
    apply legacy_supplier_record in Hrec.
    assert (LegacySupplier.supplier_clean s = SupplierAudit.clean_name e) as ->
      by exact (f_equal LegacySupplier.supplier_clean Hrec).
    cbn zeta.
    rewrite (f_equal LegacySupplier.first_seen Hrec : LegacySupplier.first_seen s = _).
    rewrite (f_equal LegacySupplier.last_seen Hrec : LegacySupplier.last_seen s = _).
    split; [apply py_min_least|apply py_max_least].
  - intros c Hc. destruct (for_each_elem _ _ _ _ Hlc Hc) as (e & He & Hrec).
    apply legacy_client_record in Hrec.
    rewrite (f_equal LegacyClient.client_clean Hrec : LegacyClient.client_clean c = _).
    rewrite (f_equal LegacyClient.first_seen Hrec : LegacyClient.first_seen c = _).
    rewrite (f_equal LegacyClient.last_seen Hrec : LegacyClient.last_seen c = _).
    cbn [client_record LegacyClient.client_clean
           LegacyClient.first_seen LegacyClient.last_seen].
    apply od_values_elem in He as [k Hk]; [|apply client_audit_NoDup].
    apply client_audit_entry in Hk as (r0 & g & Hg & ->).
    cbn [client_emit client_group_entry ClientAudit.client_clean ClientAudit.first_seen
           ClientAudit.last_seen].
    assert (filter (fun r => trade_client_key r = k) all_rows = r0 :: g) as ->.
    { rewrite <- Hg. unfold group_of. apply list_filter_iff. intros r.
      by rewrite client_key_join. }
    pose proof (first_seen_least (r0 :: g)) as Hf.
    pose proof (last_seen_least (r0 :: g)) as Hl.
    split; [exact Hf|]. split; [exact Hl|]. split.
    + exact (least_unique String.le _ _ _ Hf (py_min_least _)).
    + exact (least_unique (flip String.le) _ _ _ Hl (py_max_least _)).
Qed.

Lemma seen_dates_are_extremes_witness :
  let uuid4 := fun n : nat => "id-" +:+ pretty n in
  let row := fun d n =>
    {| date := d; invoice_number := ""; client_raw := "Acme";
       client_status_raw := ""; supplier_raw := "Galaxy"; item_raw := "";
       brand_raw := ""; category_raw := ""; buy_price_raw := float_zero;
       sell_price_raw := float_zero; margin_raw := float_zero;
       source := "Hope"; row_number := n |} in
  let rows := [row (Some "2021-03-01") 2; row None 3; row (Some "2020-12-31") 4] in
  ∃ ls lc lt, pipeline uuid4 rows = Return (ls, lc, lt) ∧
    LegacyClient.first_seen <$> lc = [Some "2020-12-31"] ∧
    ∀ c, c ∈ lc →
      LegacyClient.first_seen c
      = py_min (omap dated (filter (fun r => trade_client_key r = LegacyClient.client_clean c)
                              rows)).
Proof.
  intros uuid4 row rows.
  destruct (pipeline uuid4 rows) as [[[ls lc] lt]|] eqn:Hp; [|by vm_compute in Hp].
  exists ls, lc, lt. split; [reflexivity|].
  destruct (seen_dates_are_extremes uuid4 rows ls lc lt Hp) as [_ Hc].
  split; [|intros c Hin; by destruct (Hc c Hin) as (_ & _ & ? & _)].
  vm_compute in Hp. by injection Hp as <- <- <-.
Defined.

(** ** Folding of the client names *)

Lemma lstrip_lower s : Str.lstrip (Str.lower s) = Str.lower (Str.lstrip s).
Proof.
  induction s as [|c s IH]; [done|]. cbn [Str.lower Str.lstrip].
  rewrite is_space_lower. by destruct (Str.is_space c).
Qed.

Lemma rstrip_lower s : Str.rstrip (Str.lower s) = Str.lower (Str.rstrip s).
Proof.
  induction s as [|c s IH]; [done|]. cbn [Str.lower Str.rstrip].
  rewrite IH, is_space_lower. destruct (Str.rstrip s); cbn [Str.lower]; [|done].
  by destruct (Str.is_space c).
Qed.

Lemma strip_lower s : Str.strip (Str.lower s) = Str.lower (Str.strip s).
Proof. unfold Str.strip. by rewrite lstrip_lower, rstrip_lower. Qed.

(** X11. The client loop folds case and surrounding white space away: two
    rows whose client labels (an empty one read as ["Unknown"]) agree once
    trimmed and put in lower case are filed in one and the same audit entry,
    which lists both labels as raw variants; the name of the entry is that
    folded text and folding it again changes nothing. *)
Theorem client_variants_merge (all_rows : list RawRow) (r1 r2 : RawRow) :
  r1 ∈ all_rows → r2 ∈ all_rows →
  Str.lower (Str.strip (client_raw_or_unknown r1))
    = Str.lower (Str.strip (client_raw_or_unknown r2)) →
  ∃ e, od_get (client_key r1) (build_client_data all_rows) = Some e ∧
       od_get (client_key r2) (build_client_data all_rows) = Some e ∧
       client_raw_or_unknown r1 ∈ ClientAudit.raw_variants e ∧
       client_raw_or_unknown r2 ∈ ClientAudit.raw_variants e ∧
       ClientAudit.client_clean e = Str.lower (Str.strip (client_raw_or_unknown r1)) ∧
       Str.strip (Str.lower (ClientAudit.client_clean e)) = ClientAudit.client_clean e.
Proof.
  intros H1 H2 Hfold.
  assert (client_key r2 = client_key r1) as Hk
    by (unfold client_key; by rewrite !strip_lower).
  rewrite Hk.
  destruct (client_audit_complete all_rows r1 H1) as [e He]. exists e.
  split; [done|]. split; [done|].
  apply client_audit_entry in He as (r0 & g & Hg & ->).
  cbn [client_emit client_group_entry ClientAudit.raw_variants ClientAudit.client_clean].
  rewrite <- Hg.
  split; [|split; [|split]].
  - rewrite sorted_elem, elem_of_list_to_set, list_elem_of_fmap. exists r1.
    split; [done|]. by apply group_of_elem.
  - rewrite sorted_elem, elem_of_list_to_set, list_elem_of_fmap. exists r2.
    split; [done|]. by apply group_of_elem.
  - unfold client_key. by rewrite strip_lower.
  - unfold client_key. rewrite (strip_lower (client_raw_or_unknown r1)).
    rewrite lower_idem. rewrite <- strip_lower. apply strip_idem.
Qed.

Lemma client_variants_merge_witness :
  let r1 := sample_row "  ACME Ltd" "Active" "Galaxy" "Hope" 2 in
  let r2 := sample_row "Acme LTD " "Active" "Galaxy" "MC" 2 in
  ∃ e, od_get "acme ltd" (build_client_data [r1; r2]) = Some e ∧
       ClientAudit.trade_count e = 2.
Proof.
  intros r1 r2.
  destruct (client_variants_merge [r1; r2] r1 r2) as (e & He & _);
    [left|right; left|reflexivity|].
  exists e. split; [exact He|]. vm_compute in He. by injection He as <-.
Defined.

(** ** Row ingestor *)

Lemma for_each_raise {A B} (f : A → outcome B) l e :
  for_each f l = Raise e → ∃ x, x ∈ l ∧ f x = Raise e.
Proof.
  induction l as [|x l IH]; cbn [for_each]; [done|].
  destruct (f x) as [y|e'] eqn:Hx; cbn.
  - destruct (for_each f l) as [ys|e'']; cbn; [done|]. intros [= ->].
    destruct (IH eq_refl) as (x' & ? & ?). exists x'. split; [by right|done].
  - intros [= ->]. exists x. split; [left|done].
Qed.

Lemma kept_positions idx sheet :
  StronglySorted lt ((filter (fun p => kept p = true) (numbered idx sheet)).*1) ∧
  Forall (fun i => idx ≤ i < idx + length sheet)%nat
    ((filter (fun p => kept p = true) (numbered idx sheet)).*1).
Proof.
  revert idx. induction sheet as [|row rest IH]; intros idx.
  - split; constructor.
  - unfold numbered. cbn [length seq zip zip_with]. fold (numbered (S idx) rest).
    destruct (IH (S idx)) as [Hs Hb].
    assert (Forall (fun i => idx ≤ i < idx + S (length rest))%nat
              ((filter (fun p => kept p = true) (numbered (S idx) rest)).*1)) as Hb'.
    { eapply Forall_impl; [exact Hb|]. cbn. intros i ?. lia. }
    rewrite filter_cons. destruct (decide (kept (idx, row) = true)); [|done].
    cbn [fmap list_fmap fst]. split.
    + constructor; [exact Hs|]. eapply Forall_impl; [exact Hb|]. cbn. intros i ?. lia.
    + constructor; [cbn; lia|exact Hb'].
Qed.

Section ingest_more.
Variable float_of_str : string → option float.
Variable str_of_float : float → string.

Lemma parse_price_raise v e :
  parse_price float_of_str v = Raise e →
  e = OverflowError ∧ ∃ n, v = VInt n ∧ float_of_int n = Raise OverflowError.
Proof.
  unfold parse_price. destruct (none_or_empty v); [done|].
  destruct v as [|b|n|f|s|dt|t txt]; try done.
  - by destruct b.
  - cbn [py_float]. unfold float_of_int.
    destruct (binary_normalize prec emax n 0 false) eqn:Hn; try done.
    intros [= <-]. split; [done|]. exists n. by rewrite Hn.
  - by destruct (float_of_str (price_text s)).
Qed.

Lemma cell_raise {A} cells i (f : pyval → outcome A) d e :
  cell cells i f (Return d) = Raise e → ∃ v, cells !! i = Some v ∧ f v = Raise e.
Proof. unfold cell. destruct (cells !! i) as [v|]; [by exists v|done]. Qed.

Lemma row_dict_raise src idx cells e :
  row_dict float_of_str str_of_float src idx cells = Raise e →
  e = OverflowError ∧
  ∃ i n, (8 ≤ i ≤ 10)%nat ∧ cells !! i = Some (VInt n) ∧
         float_of_int n = Raise OverflowError.
Proof.
  unfold row_dict.
  destruct (cell cells 0 parse_excel_date (Return None)) as [d|e0] eqn:Hd.
  - cbn.
    destruct (cell cells 8 (parse_price float_of_str) (Return float_zero)) as [b|e1] eqn:Hb.
    + cbn.
      destruct (cell cells 9 (parse_price float_of_str) (Return float_zero)) as [s|e2] eqn:Hs.
      * cbn.
        destruct (cell cells 10 (parse_price float_of_str) (Return float_zero))
          as [m|e3] eqn:Hm; [done|].
        cbn. intros [= ->].
        apply cell_raise in Hm as (v & Hv & (-> & n & -> & Hn)%parse_price_raise).
        split; [done|]. exists 10, n. split; [lia|done].
      * cbn. intros [= ->].
        apply cell_raise in Hs as (v & Hv & (-> & n & -> & Hn)%parse_price_raise).
        split; [done|]. exists 9, n. split; [lia|done].
    + cbn. intros [= ->].
      apply cell_raise in Hb as (v & Hv & (-> & n & -> & Hn)%parse_price_raise).
      split; [done|]. exists 8, n. split; [lia|done].
  - apply cell_raise in Hd as (v & _ & Hv).
    destruct (parse_excel_date_returns v) as [x Hx]. congruence.
Qed.

End ingest_more.

Lemma load_sheet_positions
    (float_of_str : string → option float) (str_of_float : float → string)
    (src : string) (sheet : list (list pyval)) (rows : list RawRow) :
  load_sheet float_of_str str_of_float src sheet = Return rows →
  row_number <$> rows = (filter (fun p => kept p = true) (numbered 1 sheet)).*1.
Proof.
  unfold load_sheet. rewrite load_rows_kept. intros Hl.
  eapply for_each_fmap; [|exact Hl]. intros [i cells] r Hr.
  by apply row_dict_fields in Hr as (-> & _).
Qed.

Lemma load_sheet_source
    (float_of_str : string → option float) (str_of_float : float → string)
    (src : string) (sheet : list (list pyval)) (rows : list RawRow) (r : RawRow) :
  load_sheet float_of_str str_of_float src sheet = Return rows → r ∈ rows →
  source r = src.
Proof.
  intros Hl Hr. destruct (load_sheet_elem _ _ _ _ _ _ Hl Hr) as (cells & _ & _ & _ & Hrow).
  by apply row_dict_fields in Hrow as (_ & -> & _).
Qed.

(** X12. The row numbers of the ingested rows are the positions in the
    sheet of the rows the ingestor keeps, counted from 1: they start at 2 at
    the least, stay within the sheet and increase strictly, so that a
    skipped row leaves a gap and no two rows of a sheet share a number; each
    row carries the name of its source. *)
Theorem load_sheet_row_numbers
    (float_of_str : string → option float) (str_of_float : float → string)
    (src : string) (sheet : list (list pyval)) (rows : list RawRow) :
  load_sheet float_of_str str_of_float src sheet = Return rows →
  row_number <$> rows = (filter (fun p => kept p = true) (numbered 1 sheet)).*1 ∧
  StronglySorted lt (row_number <$> rows) ∧
  Forall (fun r => source r = src ∧ (2 ≤ row_number r ≤ length sheet)%nat) rows.
Proof.
  intros Hl. pose proof (load_sheet_positions _ _ _ _ _ Hl) as Hpos.
  split; [exact Hpos|]. split.
  - rewrite Hpos. apply kept_positions.
  - apply Forall_forall. intros r Hr. split; [by eapply load_sheet_source|].
    destruct (load_sheet_elem _ _ _ _ _ _ Hl Hr) as (cells & Hc & H2 & _ & _).
    apply lookup_lt_Some in Hc. lia.
Qed.

Lemma load_sheet_row_numbers_witness :
  ∃ rows,
    load_mc_sheet (fun _ => None) (fun _ => "")
      [[VStr "Date"]; [VNone; VStr "INV-1"]; [VNone; VNone]; [VInt 0]; [VNone; VStr "INV-2"]]
    = Return rows ∧
    row_number <$> rows = [2; 5] ∧ StronglySorted lt (row_number <$> rows).
Proof.
  eexists. split; [reflexivity|].
  match goal with |- fmap _ ?rows = _ ∧ _ =>
    destruct (load_sheet_row_numbers (fun _ => None) (fun _ => "") "MC"
                [[VStr "Date"]; [VNone; VStr "INV-1"]; [VNone; VNone]; [VInt 0];
                 [VNone; VStr "INV-2"]] rows eq_refl) as (Hpos & Hs & _)
  end.
  split; [exact Hpos|exact Hs].
Defined.

Lemma load_sheet_only_overflow
    (float_of_str : string → option float) (str_of_float : float → string)
    (src : string) (sheet : list (list pyval)) (e : exn) :
  load_sheet float_of_str str_of_float src sheet = Raise e →
  e = OverflowError ∧
  ∃ cells i n, cells ∈ sheet ∧ (8 ≤ i ≤ 10)%nat ∧ cells !! i = Some (VInt n) ∧
               float_of_int n = Raise OverflowError.
Proof.
  unfold load_sheet. rewrite load_rows_kept.
  intros ([idx cells] & Hin & Hrow)%for_each_raise.
  apply list_elem_of_filter in Hin as [_ Hin].
  apply numbered_elem in Hin as [_ Hcells]. cbn [fst snd] in Hrow.
  apply row_dict_raise in Hrow as (-> & i & n & Hi & Hc & Hn).
  split; [done|]. exists cells, i, n. split; [by eapply list_elem_of_lookup_2|done].
Qed.

(** X13. The ingestor stops on one kind of cell only. [parse_price] raises
    for an integer too large for a float and for nothing else, and the error
    is [OverflowError]; a sheet is therefore ingested unless one of the price
    cells of a row holds such an integer, dates and texts never stopping
    it. *)
Theorem load_sheet_raises_only_overflow
    (float_of_str : string → option float) (str_of_float : float → string)
    (src : string) (sheet : list (list pyval)) :
  (∀ v e, parse_price float_of_str v = Raise e →
     e = OverflowError ∧ ∃ n, v = VInt n ∧ float_of_int n = Raise OverflowError) ∧
  (∀ e, load_sheet float_of_str str_of_float src sheet = Raise e →
     e = OverflowError ∧
     ∃ cells i n, cells ∈ sheet ∧ (8 ≤ i ≤ 10)%nat ∧ cells !! i = Some (VInt n) ∧
                  float_of_int n = Raise OverflowError) ∧
  ((∀ cells i n, cells ∈ sheet → (8 ≤ i ≤ 10)%nat → cells !! i = Some (VInt n) →
      returns (float_of_int n)) →
   returns (load_sheet float_of_str str_of_float src sheet)).
Proof.
  split; [apply parse_price_raise|]. split; [apply load_sheet_only_overflow|].
  intros Hok. destruct (load_sheet float_of_str str_of_float src sheet) as [rows|e] eqn:Hl.
  - by exists rows.
  - destruct (load_sheet_only_overflow _ _ _ _ _ Hl)
      as (_ & cells & i & n & Hin & Hi & Hc & Hn).
    destruct (Hok cells i n Hin Hi Hc) as [x Hx]. congruence.
Qed.

Lemma load_sheet_raises_only_overflow_witness :
  load_hope_sheet (fun _ => None) (fun _ => "") (prices_sheet (VInt 5) (VInt (2 ^ 1024)) VNone)
    = Raise OverflowError ∧
  returns (load_hope_sheet (fun _ => None) (fun _ => "")
             (prices_sheet (VInt 5) (VStr "n/a") (VFloat S754_nan))).
Proof.
  split; [reflexivity|].
  apply (load_sheet_raises_only_overflow (fun _ => None) (fun _ => "") "Hope"
           (prices_sheet (VInt 5) (VStr "n/a") (VFloat S754_nan))).
  intros cells i n Hin Hi Hc.
  apply elem_of_cons in Hin as [->|Hin]; [|apply elem_of_cons in Hin as [->|Hin]].
  - destruct i as [|[|[|[|[|[|[|[|[|[|[|i]]]]]]]]]]]; try lia; discriminate Hc.
  - destruct i as [|[|[|[|[|[|[|[|[|[|[|i]]]]]]]]]]]; try lia; try discriminate Hc.
    injection Hc as <-. by eexists.
  - by apply elem_of_nil in Hin.
Defined.

Lemma cell_pad {A} cells k i (f : pyval → A) d :
  f VNone = d → cell (cells ++ replicate k VNone) i f d = cell cells i f d.
Proof.
  intros Hf. unfold cell. rewrite lookup_app.
  destruct (cells !! i); [done|].
  destruct (replicate k VNone !! (i - length cells)) as [v|] eqn:Hv; [|done].
  by apply lookup_replicate in Hv as [-> _].
Qed.

Lemma cell_take {A} cells n i (f : pyval → A) d :
  i < n → cell (take n cells) i f d = cell cells i f d.
Proof. intros Hi. unfold cell. by rewrite lookup_take_lt. Qed.

Lemma truthy_pad cells k :
  existsb truthy (cells ++ replicate k VNone) = existsb truthy cells.
Proof.
  rewrite existsb_app.
  assert (existsb truthy (replicate k VNone) = false) as ->
    by (induction k; [done|by cbn]).
  apply orb_false_r.
Qed.

(** X14. A row with fewer than eleven cells is read as the row filled up
    with empty cells: the ingestor gives the same rows for a sheet and for
    the sheet whose rows are filled up to eleven columns, and the fields of a
    row do not depend on the cells after the eleventh. *)
Theorem short_rows_read_as_padded
    (float_of_str : string → option float) (str_of_float : float → string)
    (src : string) (idx : nat) (sheet : list (list pyval)) (cells : list pyval) :
  load_rows float_of_str str_of_float src idx (pad_row <$> sheet)
    = load_rows float_of_str str_of_float src idx sheet ∧
  row_dict float_of_str str_of_float src idx (pad_row cells)
    = row_dict float_of_str str_of_float src idx cells ∧
  row_dict float_of_str str_of_float src idx (take 11 cells)
    = row_dict float_of_str str_of_float src idx cells.
Proof.
  assert (∀ i row, row_dict float_of_str str_of_float src i (pad_row row)
                   = row_dict float_of_str str_of_float src i row) as Hpad.
  { intros i row. unfold row_dict, pad_row. by rewrite !cell_pad. }
  split; [|split; [apply Hpad|]].
  - revert idx. induction sheet as [|row rest IH]; intros idx; [done|].
    cbn [fmap list_fmap load_rows]. fold (@fmap list _ _ _ pad_row rest).
    rewrite !IH, Hpad. unfold pad_row at 1. by rewrite truthy_pad.
  - unfold row_dict. rewrite !cell_take by lia. done.
Qed.

(** ** Price texts *)

Lemma replace_char c s :
  Str.replace (String c "") "" s = without_chars (fun a => bool_decide (a = c)) s.
Proof.
  unfold Str.replace. induction s as [|a s IH]; [done|].
  cbn [Str.replace_go without_chars String.prefix String.length Nat.sub].
  destruct (ascii_dec c a) as [->|Hne].
  - rewrite bool_decide_true by done. destruct s; cbn; exact IH.
  - rewrite bool_decide_false by congruence. by rewrite IH.
Qed.

Lemma occurs_without_same c s :
  occurs c (without_chars (fun a => bool_decide (a = c)) s) = false.
Proof.
  induction s as [|a s IH]; [done|]. cbn [without_chars].
  case_bool_decide as Ha; [done|]. cbn [occurs]. by rewrite bool_decide_false, IH.
Qed.

Lemma occurs_without c p s : occurs c s = false → occurs c (without_chars p s) = false.
Proof.
  induction s as [|a s IH]; [done|]. cbn [occurs without_chars].
  intros [Ha Hs]%orb_false_iff. destruct (p a); [by apply IH|].
  cbn [occurs]. by rewrite Ha, IH.
Qed.

(** X15. [parse_price] reads a text with every dollar sign and every comma
    taken out, wherever they stand, after the white space at the two ends
    and the pound signs: the text handed to [float] has neither a dollar
    sign nor a comma. *)
Theorem price_text_drops_signs (value : string) :
  price_text value
    = without_chars (fun a => bool_decide (a = ","%char))
        (without_chars (fun a => bool_decide (a = "$"%char))
           (Str.replace "£" "" (Str.strip value))) ∧
  occurs "$" (price_text value) = false ∧
  occurs "," (price_text value) = false.
Proof.
  assert (price_text value
    = without_chars (fun a => bool_decide (a = ","%char))
        (without_chars (fun a => bool_decide (a = "$"%char))
           (Str.replace "£" "" (Str.strip value)))) as Heq.
  { unfold price_text. by rewrite !replace_char. }
  split; [exact Heq|]. rewrite Heq. split.
  - apply occurs_without, occurs_without_same.
  - apply occurs_without_same.
Qed.

(** ** The run of [main] *)

Section main_facts.
Variable float_of_str : string → option float.
Variable str_of_float : float → string.
Variable uuid4 : nat → string.

Lemma build_outputs_eq hope_sheet mc_sheet hope_rows mc_rows out :
  build_outputs float_of_str str_of_float uuid4 hope_sheet mc_sheet
    = Return (hope_rows, mc_rows, out) →
  load_hope_sheet float_of_str str_of_float hope_sheet = Return hope_rows ∧
  load_mc_sheet float_of_str str_of_float mc_sheet = Return mc_rows ∧
  pipeline uuid4 (hope_rows ++ mc_rows)
    = Return (Outputs.legacy_suppliers out, Outputs.legacy_clients out,
              Outputs.legacy_trades out) ∧
  Outputs.supplier_normalisation_map out = (build_supplier_data (hope_rows ++ mc_rows)).1 ∧
  Outputs.supplier_audit_table out
    = od_values (build_supplier_data (hope_rows ++ mc_rows)).2 ∧
  Outputs.suppliers_live_seed out = build_live_supplier_seed (Outputs.legacy_suppliers out).
Proof.
  unfold build_outputs.
  destruct (load_hope_sheet float_of_str str_of_float hope_sheet) as [h|]; [|done]. cbn.
  destruct (load_mc_sheet float_of_str str_of_float mc_sheet) as [m|]; [|done]. cbn.
  unfold pipeline. destruct (build_supplier_data (h ++ m)) as [sm sa] eqn:Hsd.
  destruct (build_legacy_tables uuid4 (h ++ m) sm sa (build_client_data (h ++ m)))
    as [[[ls lc] lt]|] eqn:Hlt; [|done].
  cbn. intros [= <- <- <-]. rewrite Hsd. cbn. by rewrite Hlt.
Qed.

Lemma main_eq hope_sheet mc_sheet out r :
  main float_of_str str_of_float uuid4 hope_sheet mc_sheet = (Some out, r) →
  ∃ hope_rows mc_rows,
    build_outputs float_of_str str_of_float uuid4 hope_sheet mc_sheet
      = Return (hope_rows, mc_rows, out) ∧
    r = summary hope_rows mc_rows out.
Proof.
  unfold main.
  destruct (build_outputs float_of_str str_of_float uuid4 hope_sheet mc_sheet)
    as [[[h m] o]|]; [|done].
  intros [= <- <-]. by exists h, m.
Qed.

End main_facts.

Lemma StronglySorted_lt_NoDup (l : list nat) : StronglySorted lt l → NoDup l.
Proof.
  induction 1 as [|x l Hs IH Hx]; constructor; [|done].
  intros Hin. rewrite Forall_forall in Hx. specialize (Hx x Hin). lia.
Qed.

Lemma build_outputs_rows
    (float_of_str : string → option float) (str_of_float : float → string)
    (uuid4 : nat → string) (hope_sheet mc_sheet : list (list pyval))
    (hope_rows mc_rows : list RawRow) (out : Outputs.t) :
  build_outputs float_of_str str_of_float uuid4 hope_sheet mc_sheet
    = Return (hope_rows, mc_rows, out) →
  LegacyTrade.raw_row <$> Outputs.legacy_trades out = (hope_rows ++ mc_rows)%list.
Proof.
  intros (_ & _ & Hp & _)%build_outputs_eq.
  apply pipeline_tables in Hp as (_ & _ & Hlt).
  by apply legacy_trades_rows in Hlt as [Hrows _].
Qed.

(** X16. The run reads the rows of Hope's sheet and then those of MC's,
    and the trades keep that order. A row is identified by its source and
    its row number: no two rows of a run share both, while a row of one
    sheet and a row of the other can have the same number. *)
Theorem main_rows_identified
    (float_of_str : string → option float) (str_of_float : float → string)
    (uuid4 : nat → string) (hope_sheet mc_sheet : list (list pyval))
    (hope_rows mc_rows : list RawRow) (out : Outputs.t) :
  build_outputs float_of_str str_of_float uuid4 hope_sheet mc_sheet
    = Return (hope_rows, mc_rows, out) →
  LegacyTrade.raw_row <$> Outputs.legacy_trades out = (hope_rows ++ mc_rows)%list ∧
  Forall (fun r => source r = "Hope") hope_rows ∧
  Forall (fun r => source r = "MC") mc_rows ∧
  NoDup ((fun r => (source r, row_number r)) <$> (hope_rows ++ mc_rows)%list).
Proof.
  intros Hb. pose proof (build_outputs_rows _ _ _ _ _ _ _ _ Hb) as Hrows.
  apply build_outputs_eq in Hb as (Hh & Hm & _).
  assert (StronglySorted lt (row_number <$> hope_rows)) as Hsh
    by (rewrite (load_sheet_positions _ _ _ _ _ Hh); apply kept_positions).
  assert (StronglySorted lt (row_number <$> mc_rows)) as Hsm
    by (rewrite (load_sheet_positions _ _ _ _ _ Hm); apply kept_positions).
  assert (Forall (fun r => source r = "Hope") hope_rows) as Hsrch
    by (apply Forall_forall; intros r Hr; by eapply load_sheet_source).
  assert (Forall (fun r => source r = "MC") mc_rows) as Hsrcm
    by (apply Forall_forall; intros r Hr; by eapply load_sheet_source).
  split; [exact Hrows|]. split; [exact Hsrch|]. split; [exact Hsrcm|].
  rewrite fmap_app. apply NoDup_app. split; [|split].
  - apply (NoDup_fmap_1 snd). rewrite <- list_fmap_compose.
    by apply StronglySorted_lt_NoDup.
  - intros p (r & -> & Hr)%list_elem_of_fmap (r' & Heq & Hr')%list_elem_of_fmap.
    rewrite Forall_forall in Hsrch, Hsrcm.
    injection Heq as Hs _. rewrite (Hsrch r Hr), (Hsrcm r' Hr') in Hs. discriminate Hs.
  - apply (NoDup_fmap_1 snd). rewrite <- list_fmap_compose.
    by apply StronglySorted_lt_NoDup.
Qed.

Lemma main_rows_identified_witness :
  let sheet := [[VStr "Date"]; [VNone; VStr "INV-1"; VStr "Acme"]] in
  ∃ h m out,
    build_outputs (fun _ => None) (fun _ => "") (fun n => pretty n) sheet sheet
      = Return (h, m, out) ∧
    (fun r => (source r, row_number r)) <$> (h ++ m)%list = [("Hope", 2); ("MC", 2)] ∧
    NoDup ((fun r => (source r, row_number r)) <$> (h ++ m)%list).
Proof.
  intros sheet.
  destruct (build_outputs (fun _ => None) (fun _ => "") (fun n => pretty n) sheet sheet)
    as [[[h m] out]|] eqn:Hb; [|by vm_compute in Hb].
  exists h, m, out. split; [reflexivity|].
  destruct (main_rows_identified _ _ _ _ _ _ _ _ Hb) as (_ & _ & _ & Hnd).
  split; [|exact Hnd]. vm_compute in Hb. by injection Hb as <- <- <-.
Defined.

(** X17. [main] writes the six collections and then prints the summary,
    whose last line takes the [min] and the [max] of the dates of the rows
    without a guard. So, once the collections are written, the summary ends
    in [ValueError] exactly when no row of the two sheets has a date (two
    sheets without data rows among them), and in nothing else; when it is
    printed, its date range is the least and the greatest date of the rows
    and its count of trades is that of Hope's rows plus that of MC's. *)
Theorem main_summary_needs_a_date
    (float_of_str : string → option float) (str_of_float : float → string)
    (uuid4 : nat → string) (hope_sheet mc_sheet : list (list pyval))
    (out : Outputs.t) (r : outcome Summary.t) :
  main float_of_str str_of_float uuid4 hope_sheet mc_sheet = (Some out, r) →
  let dates := omap dated (LegacyTrade.raw_row <$> Outputs.legacy_trades out) in
  (r = Raise ValueError ↔ dates = []) ∧
  (∀ e, r = Raise e → e = ValueError) ∧
  (∀ s, r = Return s →
     least String.le dates (Some (Summary.date_range s).1) ∧
     least (flip String.le) dates (Some (Summary.date_range s).2) ∧
     Summary.total_trades s = Summary.hope_trades s + Summary.mc_trades s).
Proof.
  intros (h & m & Hb & ->)%main_eq.
  rewrite (build_outputs_rows _ _ _ _ _ _ _ _ Hb). cbn zeta. unfold summary, min_of, max_of.
  pose proof (py_min_least (omap dated (h ++ m)%list)) as Hmin.
  pose proof (py_max_least (omap dated (h ++ m)%list)) as Hmax.
  destruct (py_min (omap dated (h ++ m)%list)) as [first|] eqn:Hf.
  - destruct (py_max (omap dated (h ++ m)%list)) as [last|] eqn:Hl.
    + cbn. split; [|split; [done|]].
      * split; [done|]. intros He. rewrite He in Hmin. by destruct Hmin as [?%elem_of_nil _].
      * intros s [= <-]. cbn. split; [exact Hmin|]. split; [exact Hmax|].
        rewrite <- (length_fmap LegacyTrade.raw_row).
        rewrite (build_outputs_rows _ _ _ _ _ _ _ _ Hb). apply length_app.
    + cbn in Hmax. rewrite Hmax in Hmin. by destruct Hmin as [?%elem_of_nil _].
  - cbn in Hmin. cbn. split; [done|]. split; [by intros e [= <-]|done].
Qed.

Lemma main_summary_needs_a_date_witness :
  let sheet := [[VStr "Date"]; [VStr "not a date"; VStr "INV-1"; VStr "Acme"]] in
  ∃ out, main (fun _ => None) (fun _ => "") (fun n => pretty n) sheet []
         = (Some out, Raise ValueError) ∧
         length (Outputs.legacy_trades out) = 1.
Proof.
  intros sheet.
  destruct (main (fun _ => None) (fun _ => "") (fun n => pretty n) sheet [])
    as [[out|] r] eqn:Hm; [|by vm_compute in Hm].
  exists out.
  destruct (main_summary_needs_a_date _ _ _ _ _ _ _ Hm) as ([_ Hr] & _).
  assert (length (Outputs.legacy_trades out) = 1 ∧
          omap dated (LegacyTrade.raw_row <$> Outputs.legacy_trades out) = []) as [Hlen Hd].
  { vm_compute in Hm. by injection Hm as <- _. }
  split; [|exact Hlen]. by rewrite (Hr Hd).
Defined.

(** ** The texts of the dates *)

Lemma compare_app a a' b b' :
  String.length a = String.length a' →
  String.compare (a +:+ b) (a' +:+ b')
  = match String.compare a a' with
    | Eq => String.compare b b'
    | c => c
    end.
Proof.
  revert a'. induction a as [|c a IH]; intros [|c' a']; try done.
  cbn [String.length]. intros [= Hlen].
  change (String c a +:+ b) with (String c (a +:+ b)).
  change (String c' a' +:+ b') with (String c' (a' +:+ b')).
  cbn [String.compare].
  destruct (Ascii.compare c c'); [by apply IH|done|done].
Qed.

Lemma compare_refl s : String.compare s s = Eq.
Proof.
  induction s as [|c s IH]; [done|]. cbn [String.compare].
  unfold Ascii.compare. by rewrite N.compare_refl.
Qed.

Section num_facts.
Variable width : nat.
Variables lo len : Z.
Hypothesis Hasc : ascending width lo len = true.
Hypothesis Hwid : of_width width lo (len + 1) = true.

Lemma num_next n :
  (lo ≤ n < lo + len)%Z →
  String.compare (Calendar.num width n) (Calendar.num width (n + 1)) = Lt.
Proof using Hasc.
  intros Hn. unfold ascending in Hasc. rewrite forallb_forall in Hasc.
  assert (In n (seqZ lo len)) as Hin.
  { apply list_elem_of_In, list_elem_of_lookup. exists (Z.to_nat (n - lo)).
    apply lookup_seqZ. lia. }
  specialize (Hasc n Hin). by destruct (String.compare _ _).
Qed.

Lemma num_length n :
  (lo ≤ n ≤ lo + len)%Z → String.length (Calendar.num width n) = width.
Proof using Hwid.
  intros Hn. unfold of_width in Hwid. rewrite forallb_forall in Hwid.
  apply Nat.eqb_eq, Hwid.
  apply list_elem_of_In, list_elem_of_lookup; exists (Z.to_nat (n - lo));
    apply lookup_seqZ; lia.
Qed.

Lemma num_le (k : nat) a :
  (lo ≤ a)%Z → (a + Z.of_nat k ≤ lo + len)%Z →
  String.le (Calendar.num width a) (Calendar.num width (a + Z.of_nat k)).
Proof using Hasc.
  induction k as [|k IH]; intros Ha Hb.
  - rewrite Z.add_0_r. reflexivity.
  - transitivity (Calendar.num width (a + Z.of_nat k)); [apply IH; lia|].
    replace (a + Z.of_nat (S k))%Z with (a + Z.of_nat k + 1)%Z by lia.
    apply ltb_le. unfold String.ltb. rewrite num_next; [done|lia].
Qed.

Lemma num_lt a b :
  (lo ≤ a)%Z → (a < b)%Z → (b ≤ lo + len)%Z →
  String.compare (Calendar.num width a) (Calendar.num width b) = Lt.
Proof using Hasc.
  intros Ha Hab Hb.
  pose proof (num_le (Z.to_nat (b - a)) a Ha) as Hle.
  replace (a + Z.of_nat (Z.to_nat (b - a)))%Z with b in Hle by lia.
  specialize (Hle ltac:(lia)).
  pose proof (num_le (Z.to_nat (b - (a + 1))) (a + 1)%Z ltac:(lia)) as Hle'.
  replace (a + 1 + Z.of_nat (Z.to_nat (b - (a + 1))))%Z with b in Hle' by lia.
  specialize (Hle' ltac:(lia)).
  destruct (String.compare (Calendar.num width a) (Calendar.num width b)) eqn:Hc.
  - apply String.compare_eq_iff in Hc. rewrite <- Hc in Hle'.
    assert (Calendar.num width a = Calendar.num width (a + 1)) as Heq.
    { apply (anti_symm String.le); [|done].
      apply ltb_le. unfold String.ltb. rewrite num_next; [done|lia]. }
    pose proof (num_next a ltac:(lia)) as Hn. rewrite <- Heq, compare_refl in Hn. done.
  - done.
  - unfold String.le, String.leb in Hle. by rewrite Hc in Hle.
Qed.

Lemma num_compare a b :
  (lo ≤ a ≤ lo + len)%Z → (lo ≤ b ≤ lo + len)%Z →
  String.compare (Calendar.num width a) (Calendar.num width b) = (a ?= b)%Z.
Proof using Hasc.
  intros Ha Hb. destruct (Z.compare_spec a b) as [->|Hlt|Hgt].
  - apply compare_refl.
  - apply num_lt; lia.
  - rewrite String.compare_antisym. rewrite num_lt; [done|lia..].
Qed.

End num_facts.

Lemma years_ascending : ascending 4 1000 8999 = true ∧ of_width 4 1000 9000 = true.
Proof. split; vm_compute; reflexivity. Qed.

Lemma days_ascending : ascending 2 1 30 = true ∧ of_width 2 1 31 = true.
Proof. split; vm_compute; reflexivity. Qed.

Lemma strftime_compare d1 d2 :
  valid_date d1 → valid_date d2 → (1000 ≤ year d1)%Z → (1000 ≤ year d2)%Z →
  String.compare (Calendar.strftime_Ymd d1) (Calendar.strftime_Ymd d2)
  = match (year d1 ?= year d2)%Z with
    | Eq => match (month d1 ?= month d2)%Z with
            | Eq => (day d1 ?= day d2)%Z
            | c => c
            end
    | c => c
    end.
Proof.
  intros (Hy1 & Hm1 & Hd1) (Hy2 & Hm2 & Hd2) Hc1 Hc2.
  destruct years_ascending as [Hya Hyw]. destruct days_ascending as [Hda Hdw].
  unfold Calendar.strftime_Ymd.
  rewrite compare_app
    by (rewrite !(num_length 4 1000 8999 Hyw) by lia; done).
  rewrite (num_compare 4 1000 8999 Hya) by lia.
  rewrite (compare_app "-" "-") by done. cbn [String.compare Ascii.compare].
  change (Ascii.compare "-" "-") with Eq. cbv iota.
  rewrite compare_app
    by (rewrite !(num_length 2 1 30 Hdw) by lia; done).
  rewrite (num_compare 2 1 30 Hda) by lia.
  rewrite (compare_app "-" "-") by done.
  change (String.compare "-" "-") with Eq. cbv iota.
  rewrite (num_compare 2 1 30 Hda) by lia. done.
Qed.

Lemma days_in_month_le y m : (1 ≤ m ≤ 12)%Z → (Calendar.days_in_month y m ≤ 31)%Z.
Proof.
  intros Hm. unfold Calendar.days_in_month.
  destruct ((m =? 2)%Z && Calendar.is_leap y); [lia|].
  assert (m = 1 ∨ m = 2 ∨ m = 3 ∨ m = 4 ∨ m = 5 ∨ m = 6 ∨ m = 7 ∨ m = 8 ∨ m = 9
          ∨ m = 10 ∨ m = 11 ∨ m = 12)%Z as Hc by lia.
  repeat (destruct Hc as [Hc|Hc]); subst m; by vm_compute.
Qed.

Lemma make_date_valid y m d dt : Calendar.make_date y m d = Return dt → valid_date dt.
Proof.
  unfold Calendar.make_date, Calendar.MINYEAR, Calendar.MAXYEAR.
  destruct (_ && _) eqn:Hc; [|done]. intros [= <-].
  repeat (apply andb_true_iff in Hc as [Hc ?]).
  unfold valid_date. cbn. pose proof (days_in_month_le y m). lia.
Qed.

Lemma strptime_valid text fmt dt : Strptime.strptime text fmt = Return dt → valid_date dt.
Proof.
  unfold Strptime.strptime. destruct (Strptime.match_format _ _ _) as [|[f rest] ?]; [done|].
  case_bool_decide; [|done]. apply make_date_valid.
Qed.

Lemma try_formats_some text fmts s :
  try_formats text fmts = Some s →
  ∃ fmt dt, fmt ∈ fmts ∧ Strptime.strptime text fmt = Return dt ∧
            s = Calendar.strftime_Ymd dt.
Proof.
  induction fmts as [|fmt fmts IH]; [done|]. cbn [try_formats].
  destruct (Strptime.strptime text fmt) as [dt|] eqn:Hp.
  - intros [= <-]. exists fmt, dt. split; [left|done].
  - intros (fmt' & dt & ? & ? & ?)%IH. exists fmt', dt. split; [by right|done].
Qed.

Lemma ord2ymd_range o :
  (1 ≤ o ≤ Calendar.MAXORDINAL)%Z →
  (1 ≤ (Calendar.ord2ymd o).1.1 ≤ 9999 ∧ 1 ≤ (Calendar.ord2ymd o).1.2 ≤ 12 ∧
   1 ≤ (Calendar.ord2ymd o).2 ≤ 31)%Z.
Proof.
  unfold Calendar.MAXORDINAL. intros Ho. unfold Calendar.ord2ymd.
  unfold Calendar.DI400Y, Calendar.DI100Y, Calendar.DI4Y. cbv zeta.
  pose proof (Z.div_mod (o - 1) 146097 ltac:(lia)) as E400.
  pose proof (Z.mod_pos_bound (o - 1) 146097 ltac:(lia)) as B400.
  set (n400 := ((o - 1) / 146097)%Z) in *. set (r400 := ((o - 1) mod 146097)%Z) in *.
  pose proof (Z.div_mod r400 36524 ltac:(lia)) as E100.
  pose proof (Z.mod_pos_bound r400 36524 ltac:(lia)) as B100.
  set (n100 := (r400 / 36524)%Z) in *. set (r100 := (r400 mod 36524)%Z) in *.
  pose proof (Z.div_mod r100 1461 ltac:(lia)) as E4.
  pose proof (Z.mod_pos_bound r100 1461 ltac:(lia)) as B4.
  set (n4 := (r100 / 1461)%Z) in *. set (r4 := (r100 mod 1461)%Z) in *.
  pose proof (Z.div_mod r4 365 ltac:(lia)) as E1.
  pose proof (Z.mod_pos_bound r4 365 ltac:(lia)) as B1.
  set (n1 := (r4 / 365)%Z) in *. set (r1 := (r4 mod 365)%Z) in *.
  clearbody n400 r400 n100 r100 n4 r4 n1 r1.
  destruct ((n1 =? 4)%Z || (n100 =? 4)%Z) eqn:Hlast.
  - cbn [fst snd]. apply orb_true_iff in Hlast as [H%Z.eqb_eq|H%Z.eqb_eq]; lia.
  - apply orb_false_iff in Hlast as [H1%Z.eqb_neq H100%Z.eqb_neq].
    rewrite Z.shiftr_div_pow2 by lia. change (2 ^ 5)%Z with 32%Z.
    pose proof (Z.div_mod (r1 + 50) 32 ltac:(lia)) as Em.
    pose proof (Z.mod_pos_bound (r1 + 50) 32 ltac:(lia)) as Bm.
    set (m := ((r1 + 50) / 32)%Z) in *. set (rm := ((r1 + 50) mod 32)%Z) in *.
    clearbody m rm.
    set (leapyear := ((n1 =? 3)%Z && (negb (n4 =? 24)%Z || (n100 =? 3)%Z))).
    clearbody leapyear.
    assert (m = 1 ∨ m = 2 ∨ m = 3 ∨ m = 4 ∨ m = 5 ∨ m = 6 ∨ m = 7 ∨ m = 8 ∨ m = 9
            ∨ m = 10 ∨ m = 11 ∨ m = 12)%Z as Hc by lia.
    assert (1 ≤ n400 * 400 + 1 + n100 * 100 + n4 * 4 + n1 ≤ 9999)%Z as Hy by lia.
    repeat (destruct Hc as [Hc|Hc]); subst m;
      destruct leapyear;
      repeat match goal with
             | |- context [nth (Z.to_nat ?k) ?t ?d] =>
                 let v := eval vm_compute in (nth (Z.to_nat k) t d) in
                 change (nth (Z.to_nat k) t d) with v
             | |- context [(?a <? ?b)%Z && ?c] =>
                 let v := eval vm_compute in ((a <? b)%Z && c) in
                 change ((a <? b)%Z && c) with v
             | |- context [(?a =? ?b)%Z && ?c] =>
                 let v := eval vm_compute in ((a =? b)%Z && c) in
                 change ((a =? b)%Z && c) with v
             end;
      cbv iota;
      match goal with |- context [(r1 <? ?p)%Z] =>
        destruct (Z.ltb_spec r1 p); cbn [fst snd]; lia end.
Qed.

Lemma date_of_ordinal_valid o s :
  date_of_ordinal o = Some s → ∃ dt, valid_date dt ∧ s = Calendar.strftime_Ymd dt.
Proof.
  unfold date_of_ordinal. destruct (_ && _)%Z eqn:Hc; [|done].
  apply andb_true_iff in Hc as [H1%Z.leb_le H2%Z.leb_le].
  pose proof (ord2ymd_range o (conj H1 H2)) as Hr.
  destruct (Calendar.ord2ymd o) as [[y m] d]. cbn [fst snd] in Hr.
  intros [= <-].
  by exists {| year := y; month := m; day := d;
               hour := 0; minute := 0; second := 0; microsecond := 0 |}.
Qed.

(** X18. The dates are compared as texts, and the texts are made for it.
    Whatever the cell held, a date [parse_excel_date] returns is the one it
    returns for a date of the calendar, with a year from 1 to 9999, a month
    from 1 to 12 and a day from 1 to 31. For dates from the year 1000 on,
    where the year is written with four digits, the order of the texts
    returned, by which the first and last dates of clients and suppliers are
    chosen, is the order of the calendar, and two dates with the same text
    are the same day. *)
Theorem date_texts_order_as_dates :
  (∀ v s, valid_cell v → parse_excel_date v = Return (Some s) →
     ∃ dt, valid_date dt ∧ parse_excel_date (VDatetime dt) = Return (Some s)) ∧
  (∀ d1 d2 s1 s2, valid_date d1 → valid_date d2 →
     (1000 ≤ year d1)%Z → (1000 ≤ year d2)%Z →
     parse_excel_date (VDatetime d1) = Return (Some s1) →
     parse_excel_date (VDatetime d2) = Return (Some s2) →
     String.ltb s1 s2 = date_before d1 d2 ∧
     (s1 = s2 → year d1 = year d2 ∧ month d1 = month d2 ∧ day d1 = day d2)).
Proof.
  split.
  - intros v s Hv Hp.
    assert (∀ dt, valid_date dt → s = Calendar.strftime_Ymd dt →
              ∃ dt, valid_date dt ∧ parse_excel_date (VDatetime dt) = Return (Some s)) as Hdate.
    { intros dt Hdt ->. by exists dt. }
    assert (∀ n, py_int v = Return n →
              match v with VBool _ | VInt _ | VFloat _ => True | _ => False end →
              ∃ dt, valid_date dt ∧ parse_excel_date (VDatetime dt) = Return (Some s)) as Hnum.
    { intros n Hn Hk. rewrite (parse_excel_date_days v n) in Hp; [|by destruct v|done..].
      injection Hp as Hp. apply date_of_ordinal_valid in Hp as (dt & Hdt & Hs).
      by apply (Hdate dt). }
    assert (∀ e, py_int v = Raise e →
              match v with VBool _ | VInt _ | VFloat _ => True | _ => False end →
              ∃ dt, valid_date dt ∧ parse_excel_date (VDatetime dt) = Return (Some s)) as Hnone.
    { intros e He Hk. rewrite (parse_excel_date_no_days v e) in Hp; [done|by destruct v|done..]. }
    destruct v as [|b|n|f|s0|dt|t txt].
    + done.
    + by apply (Hnum (if b then 1 else 0)%Z).
    + by apply (Hnum n).
    + destruct (py_int (VFloat f)) as [n|e] eqn:Hf; [by apply (Hnum n)|by apply (Hnone e)].
    + unfold parse_excel_date in Hp. cbn [none_or_empty] in Hp.
      case_bool_decide; [done|].
      assert (try_formats (Str.strip s0) date_formats = Some s) as Ht by congruence.
      clear Hp. rename Ht into Hp.
      apply try_formats_some in Hp as (fmt & dt & _ & Hdt & ->).
      apply (Hdate dt); [by eapply strptime_valid|done].
    + by exists dt.
    + done.
  - intros d1 d2 s1 s2 H1 H2 Hy1 Hy2 Hs1 Hs2.
    assert (s1 = Calendar.strftime_Ymd d1) as -> by (cbn in Hs1; congruence).
    assert (s2 = Calendar.strftime_Ymd d2) as -> by (cbn in Hs2; congruence).
    pose proof (strftime_compare d1 d2 H1 H2 Hy1 Hy2) as Hc. split.
    + unfold String.ltb. rewrite Hc. unfold date_before.
      destruct (Z.compare_spec (year d1) (year d2)), (Z.compare_spec (month d1) (month d2)),
        (Z.compare_spec (day d1) (day d2)),
        (Z.ltb_spec (year d1) (year d2)), (Z.eqb_spec (year d1) (year d2)),
        (Z.ltb_spec (month d1) (month d2)), (Z.eqb_spec (month d1) (month d2)),
        (Z.ltb_spec (day d1) (day d2)); cbn; try done; lia.
    + intros Heq. rewrite Heq, compare_refl in Hc.
      destruct (Z.compare_spec (year d1) (year d2)), (Z.compare_spec (month d1) (month d2)),
        (Z.compare_spec (day d1) (day d2)); done.
Qed.

Lemma date_texts_order_as_dates_witness :
  (∃ dt, valid_date dt ∧ parse_excel_date (VDatetime dt) = Return (Some "2021-01-01")) ∧
  String.ltb "2020-12-31" "2021-01-01" = true.
Proof.
  destruct date_texts_order_as_dates as (Hparse & Horder). split.
  - apply (Hparse (VInt 44197) "2021-01-01"); [exact I|reflexivity].
  - apply (Horder {| year := 2020; month := 12; day := 31;
                     hour := 0; minute := 0; second := 0; microsecond := 0 |}
                  {| year := 2021; month := 1; day := 1;
                     hour := 0; minute := 0; second := 0; microsecond := 0 |});
      [unfold valid_date; cbn; lia..|reflexivity|reflexivity].
Defined.

(** ** Order of the entities *)

Section order_facts.
Context {R E : Type} (key : R → string) (init : R → E) (upd : R → E → E).

Lemma group_step_keys d r :
  od_keys (group_step key init upd d r)
  = if decide (key r ∈ od_keys d) then od_keys d else (od_keys d ++ [key r])%list.
Proof.
  unfold group_step. rewrite od_keys_alter.
  destruct (od_get (key r) d) as [e|] eqn:Hget.
  - rewrite decide_True; [done|].
    apply od_get_Some_elem in Hget. apply list_elem_of_fmap. by exists (key r, e).
  - rewrite od_keys_set_new by done. rewrite decide_False; [done|].
    by apply od_get_None.
Qed.

Lemma group_fold_keys rows d :
  od_keys (foldl (group_step key init upd) d rows)
  = (od_keys d
     ++ filter (fun k => k ∉ od_keys d) (first_occurrences (key <$> rows)))%list.
Proof.
  revert d. induction rows as [|r rows IH]; intros d.
  - cbn. by rewrite app_nil_r.
  - cbn [foldl fmap list_fmap first_occurrences]. rewrite IH, group_step_keys.
    rewrite filter_cons. destruct (decide (key r ∈ od_keys d)) as [Hin|Hin].
    + rewrite decide_False by (intros ?; done). f_equal.
      rewrite list_filter_filter. apply list_filter_iff. intros k. split; [|tauto].
      intros Hk. split; [done|]. by intros ->.
    + rewrite decide_True by done. rewrite <- app_assoc. f_equal. cbn. f_equal.
      rewrite list_filter_filter. apply list_filter_iff. intros k.
      rewrite elem_of_app, list_elem_of_singleton. tauto.
Qed.

End order_facts.

Lemma first_occurrences_ext {A} (f g : A → string) l :
  (∀ x, f x = g x) → first_occurrences (f <$> l) = first_occurrences (g <$> l).
Proof. intros Hfg. f_equal. apply list_fmap_ext. intros _ x _. apply Hfg. Qed.

(** X19. The entities keep the order of the rows. The entries of the two
    audits, and with them the records of [legacy_suppliers] and of
    [legacy_clients], come in the order in which their canonical names first
    occur in the rows, each name once. *)
Theorem entities_in_order_of_first_occurrence (uuid4 : nat → string)
    (all_rows : list RawRow) :
  SupplierAudit.clean_name <$> od_values (build_supplier_data all_rows).2
    = first_occurrences (trade_supplier_key <$> all_rows) ∧
  ClientAudit.client_clean <$> od_values (build_client_data all_rows)
    = first_occurrences (trade_client_key <$> all_rows) ∧
  (∀ ls lc lt, pipeline uuid4 all_rows = Return (ls, lc, lt) →
     LegacySupplier.supplier_clean <$> ls
       = first_occurrences (trade_supplier_key <$> all_rows) ∧
     LegacyClient.client_clean <$> lc
       = first_occurrences (trade_client_key <$> all_rows)).
Proof.
  assert (SupplierAudit.clean_name <$> od_values (build_supplier_data all_rows).2
          = first_occurrences (trade_supplier_key <$> all_rows)) as Hs.
  { rewrite supplier_audit_names, build_supplier_data_eq. cbn [snd].
    rewrite od_keys_fmap, group_fold_keys. cbn [od_keys fmap list_fmap app].
    rewrite (first_occurrences_ext supplier_key trade_supplier_key)
      by apply supplier_key_join.
    generalize (first_occurrences (trade_supplier_key <$> all_rows)). intros l.
    induction l as [|k l IH]; [done|]. rewrite filter_cons.
    rewrite decide_True by apply not_elem_of_nil. by rewrite IH. }
  assert (ClientAudit.client_clean <$> od_values (build_client_data all_rows)
          = first_occurrences (trade_client_key <$> all_rows)) as Hc.
  { rewrite client_audit_names. unfold build_client_data.
    rewrite od_keys_fmap, client_fold_group, group_fold_keys.
    cbn [od_keys fmap list_fmap app].
    rewrite (first_occurrences_ext client_key trade_client_key)
      by apply client_key_join.
    generalize (first_occurrences (trade_client_key <$> all_rows)). intros l.
    induction l as [|k l IH]; [done|]. rewrite filter_cons.
    rewrite decide_True by apply not_elem_of_nil. by rewrite IH. }
  split; [exact Hs|]. split; [exact Hc|].
  intros ls lc lt (Hls & Hlc & _)%pipeline_tables. split.
  - rewrite <- Hs. eapply for_each_fmap; [|exact Hls].
    intros e s Hrec. by apply legacy_supplier_fields in Hrec as (_ & ? & _).
  - rewrite <- Hc. eapply for_each_fmap; [|exact Hlc].
    intros e c Hrec. by apply legacy_client_fields in Hrec as (_ & ? & _).
Qed.

Lemma entities_in_order_of_first_occurrence_witness :
  let uuid4 := fun n : nat => "id-" +:+ pretty n in
  let rows := [sample_row "Bolt" "" "STOCK" "Hope" 2;
               sample_row "Acme" "" "Galaxy" "Hope" 3;
               sample_row "bolt " "" "In Stock" "MC" 2] in
  ∃ ls lc lt, pipeline uuid4 rows = Return (ls, lc, lt) ∧
    LegacySupplier.supplier_clean <$> ls = ["Stock (Internal)"; "Galaxy VIC"] ∧
    LegacyClient.client_clean <$> lc = ["bolt"; "acme"].
Proof.
  intros uuid4 rows.
  destruct (pipeline uuid4 rows) as [[[ls lc] lt]|] eqn:Hp; [|by vm_compute in Hp].
  exists ls, lc, lt. split; [reflexivity|].
  destruct (entities_in_order_of_first_occurrence uuid4 rows) as (_ & _ & H).
  destruct (H ls lc lt Hp) as [-> ->]. split; reflexivity.
Defined.

(** ** Sets of an audit entry *)

(** X20. The set-valued fields of an audit entry collect the rows of the
    entity and nothing else: a source is listed for a supplier or a client
    exactly when some row of the entity comes from it, and a label is a raw
    variant of a client exactly when some row of the client bears it (an
    empty label counting as ["Unknown"]); the trade count of a client entry
    is the number of its rows. *)
Theorem audit_sets_collect_rows (all_rows : list RawRow) :
  (∀ k e, od_get k (build_supplier_data all_rows).2 = Some e →
     ∀ s, s ∈ SupplierAudit.sources e
          ↔ ∃ r, r ∈ all_rows ∧ trade_supplier_key r = k ∧ source r = s) ∧
  (∀ k e, od_get k (build_client_data all_rows) = Some e →
     (∀ s, s ∈ ClientAudit.sources e
           ↔ ∃ r, r ∈ all_rows ∧ trade_client_key r = k ∧ source r = s) ∧
     (∀ v, v ∈ ClientAudit.raw_variants e
           ↔ ∃ r, r ∈ all_rows ∧ trade_client_key r = k ∧ client_raw_or_unknown r = v) ∧
     ClientAudit.trade_count e
       = length (filter (fun r => trade_client_key r = k) all_rows)).
Proof.
  split.
  - intros k e (r0 & g & Hg & ->)%supplier_audit_entry s.
    cbn [SupplierAudit.sources]. rewrite <- Hg.
    rewrite sorted_elem, elem_of_list_to_set, list_elem_of_fmap. split.
    + intros (r & -> & [Hr Hk]%group_of_elem). exists r.
      by rewrite <- supplier_key_join.
    + intros (r & Hr & Hk & <-). exists r. split; [done|].
      apply group_of_elem. by rewrite supplier_key_join.
  - intros k e (r0 & g & Hg & ->)%client_audit_entry.
    cbn [client_emit client_group_entry ClientAudit.sources ClientAudit.raw_variants
           ClientAudit.trade_count].
    rewrite <- Hg. split; [|split].
    + intros s. rewrite sorted_elem, elem_of_list_to_set, list_elem_of_fmap. split.
      * intros (r & -> & [Hr Hk]%group_of_elem). exists r.
        by rewrite <- client_key_join.
      * intros (r & Hr & Hk & <-). exists r. split; [done|].
        apply group_of_elem. by rewrite client_key_join.
    + intros v. rewrite sorted_elem, elem_of_list_to_set, list_elem_of_fmap. split.
      * intros (r & -> & [Hr Hk]%group_of_elem). exists r.
        by rewrite <- client_key_join.
      * intros (r & Hr & Hk & <-). exists r. split; [done|].
        apply group_of_elem. by rewrite client_key_join.
    + unfold group_of. f_equal. apply list_filter_iff. intros r.
      by rewrite client_key_join.
Qed.

Lemma audit_sets_collect_rows_witness :
  let rows := [sample_row "Acme" "" "Galaxy" "Hope" 2;
               sample_row "Bolt" "" "LOCAL" "Hope" 3;
               sample_row "Acme" "" "Galaxy Vic" "MC" 2] in
  ∃ e, od_get "LOCAL" (build_supplier_data rows).2 = Some e ∧
       "Hope" ∈ SupplierAudit.sources e.
Proof.
  intros rows.
  destruct (od_get "LOCAL" (build_supplier_data rows).2) as [e|] eqn:He;
    [|by vm_compute in He].
  exists e. split; [reflexivity|].
  destruct (audit_sets_collect_rows rows) as [Hs _].
  apply (Hs "LOCAL" e He "Hope"). exists (sample_row "Bolt" "" "LOCAL" "Hope" 3).
  split; [right; left|split; reflexivity].
Defined.

(** ** The live supplier seed *)

Lemma NoDup_fmap_elem {A B} (f : A → B) (l : list A) x y :
  NoDup (f <$> l) → x ∈ l → y ∈ l → f x = f y → x = y.
Proof.
  intros Hnd [i Hi]%list_elem_of_lookup_1 [j Hj]%list_elem_of_lookup_1 Hf.
  assert (i = j) as ->.
  { apply (NoDup_lookup (f <$> l) i j (f x)); [done|..].
    - by rewrite list_lookup_fmap, Hi.
    - by rewrite list_lookup_fmap, Hj, Hf. }
  congruence.
Qed.

(** X21. The live supplier seed has one record for each legacy supplier,
    marked as legacy, with the fixed origin and currency and no type or
    notes, and at least one trade. Every trade finds its supplier in the
    seed: some record of the seed has the [supplier_id] of the trade as
    identifier and the canonical name of the label of the trade as name;
    with pairwise distinct tokens no two records of the seed share an
    identifier. *)
Theorem live_seed_resolves (uuid4 : nat → string) (all_rows : list RawRow)
    (ls : list LegacySupplier.t) (lc : list LegacyClient.t) (lt : list LegacyTrade.t) :
  pipeline uuid4 all_rows = Return (ls, lc, lt) →
  length (build_live_supplier_seed ls) = length ls ∧
  (∀ v, v ∈ build_live_supplier_seed ls →
     LiveSupplier.is_legacy v = true ∧
     LiveSupplier.created_from v = "legacy-import-v1" ∧
     LiveSupplier.default_currency v = "GBP" ∧
     LiveSupplier.supplier_type v = None ∧ LiveSupplier.notes v = None ∧
     (1 ≤ LiveSupplier.trade_count v)%nat) ∧
  (∀ t, t ∈ lt →
     ∃ v, v ∈ build_live_supplier_seed ls ∧
          LiveSupplier.id v = LegacyTrade.supplier_id t ∧
          LiveSupplier.supplier_name v = trade_supplier_key (LegacyTrade.raw_row t)) ∧
  (Inj (=) (=) uuid4 →
   ∀ v v', v ∈ build_live_supplier_seed ls → v' ∈ build_live_supplier_seed ls →
           LiveSupplier.id v = LiveSupplier.id v' → v = v').
Proof.
  intros Hp. pose proof Hp as (Hls & Hlc & Hlt)%pipeline_tables.
  split; [apply length_fmap|]. split; [|split].
  - intros v (s & -> & Hs)%list_elem_of_fmap. cbn. repeat split.
    destruct (for_each_elem _ _ _ _ Hls Hs) as (e & He & Hrec).
    apply od_values_elem in He as [k Hk]; [|apply supplier_audit_NoDup].
    destruct (legacy_supplier_rows _ _ _ _ _ Hk Hrec) as (_ & -> & Hne).
    destruct (SupplierAudit.rows e); [done|cbn; lia].
  - intros t Ht.
    destruct (legacy_trades_elem _ _ _ _ _ _ _ Hlt Ht) as (i & row & Hi & Hrow).
    assert (row ∈ all_rows) as Hin by (by eapply list_elem_of_lookup_2).
    destruct (supplier_record_of_key uuid4 all_rows ls (trade_supplier_key row) Hls)
      as (s & Hs & Hname & Hid); [by apply supplier_audit_complete|].
    exists (live_supplier s). split; [by apply list_elem_of_fmap_2|].
    unfold legacy_trade in Hrow. destruct (infer_category row); [|done].
    cbn in Hrow. injection Hrow as <-. cbn. by rewrite Hid.
  - intros Hinj v v' Hv Hv' Hid.
    apply (NoDup_fmap_elem LiveSupplier.id (build_live_supplier_seed ls)); try done.
    unfold build_live_supplier_seed. rewrite <- list_fmap_compose.
    change (LiveSupplier.id ∘ live_supplier) with LegacySupplier.id.
    rewrite (legacy_supplier_ids uuid4 all_rows ls Hls).
    apply NoDup_fmap_2; [done|]. apply NoDup_seq.
Qed.

Lemma live_seed_resolves_witness :
  let uuid4 := fun n : nat => pretty n in
  let rows := [sample_row "Acme" "" "Galaxy" "Hope" 2;
               sample_row "Bolt" "" "Galaxy Vic" "MC" 2] in
  ∃ ls lc lt, pipeline uuid4 rows = Return (ls, lc, lt) ∧
    length (build_live_supplier_seed ls) = 1 ∧
    ∀ t, t ∈ lt →
      ∃ v, v ∈ build_live_supplier_seed ls ∧
           LiveSupplier.id v = LegacyTrade.supplier_id t ∧
           LiveSupplier.supplier_name v = "Galaxy VIC".
Proof.
  intros uuid4 rows.
  destruct (pipeline uuid4 rows) as [[[ls lc] lt]|] eqn:Hp; [|by vm_compute in Hp].
  exists ls, lc, lt. split; [reflexivity|].
  destruct (live_seed_resolves uuid4 rows ls lc lt Hp) as (Hlen & _ & Hres & _).
  assert (length ls = 1 ∧
          ∀ t, t ∈ lt → trade_supplier_key (LegacyTrade.raw_row t) = "Galaxy VIC")
    as [Hls Hkey].
  { vm_compute in Hp. injection Hp as <- <- <-. split; [reflexivity|].
    intros t Ht. repeat (apply elem_of_cons in Ht as [->|Ht]; [reflexivity|]).
    by apply elem_of_nil in Ht. }
  split; [by rewrite Hlen|].
  intros t Ht. destruct (Hres t Ht) as (v & Hv & Hid & Hname).
  exists v. split; [exact Hv|]. split; [exact Hid|]. by rewrite Hname, Hkey.
Defined.

(** ** Errors of the assembler *)

Lemma legacy_trades_raise uuid4 sid cid rows n e :
  legacy_trades uuid4 sid cid rows n = Raise e →
  ∃ row, row ∈ rows ∧ infer_category row = Raise e.
Proof.
  revert n. induction rows as [|row rows IH]; intros n; cbn [legacy_trades]; [done|].
  destruct (legacy_trade uuid4 sid cid row n) as [t|e'] eqn:Ht; cbn.
  - destruct (legacy_trades uuid4 sid cid rows (S n)) as [ts|e''] eqn:Hts; cbn; [done|].
    intros [= ->]. destruct (IH _ Hts) as (row' & ? & ?). exists row'. split; [by right|done].
  - intros [= ->]. exists row. split; [left|].
    unfold legacy_trade in Ht.
    destruct (infer_category row) as [c|e1]; cbn in Ht; [done|congruence].
Qed.

Lemma infer_category_raise row e :
  infer_category row = Raise e →
  e = IndexError ∧ category_raw row = "" ∧ brand_raw row = "" ∧
  item_raw row ≠ "" ∧ Str.split (item_raw row) = [].
Proof.
  unfold infer_category.
  case_bool_decide as Hc; [|done].
  case_bool_decide as Hb; cbn [negb]; [|done].
  case_bool_decide as Hi; cbn [negb]; [done|].
  destruct (Str.split (item_raw row)) as [|w ws] eqn:Hs; [|done].
  cbn. by intros [= <-].
Qed.

Lemma pipeline_raise uuid4 all_rows e :
  pipeline uuid4 all_rows = Raise e →
  ∃ row, row ∈ all_rows ∧ infer_category row = Raise e.
Proof.
  rewrite pipeline_eq. unfold build_legacy_tables.
  rewrite supplier_audit_names, client_audit_names.
  fold (supplier_ids uuid4 all_rows). fold (client_ids uuid4 all_rows).
  destruct (for_each_returns (legacy_supplier all_rows (supplier_ids uuid4 all_rows))
              (od_values (build_supplier_data all_rows).2)) as [ls ->].
  { intros a Ha. unfold legacy_supplier, od_index.
    destruct (supplier_ids_get uuid4 all_rows (SupplierAudit.clean_name a)) as [i ->].
    - rewrite <- supplier_audit_names. by apply list_elem_of_fmap_2.
    - by eexists. }
  destruct (for_each_returns (legacy_client (client_ids uuid4 all_rows))
              (od_values (build_client_data all_rows))) as [lc ->].
  { intros a Ha. unfold legacy_client, od_index.
    destruct (client_ids_get uuid4 all_rows (ClientAudit.client_clean a)) as [i ->].
    - rewrite <- client_audit_names. by apply list_elem_of_fmap_2.
    - by eexists. }
  cbn. destruct (legacy_trades _ _ _ _ _) as [lt|e'] eqn:Hlt; cbn; [done|].
  intros [= ->]. by eapply legacy_trades_raise.
Qed.

(** X22. The assembler never fails on a lookup: an entity always finds its
    identifier. Run on rows of any making, it raises for one reason only,
    [IndexError], when some row has no category and no brand and an item
    text that is not empty but holds white space only, of which the first
    word is asked for. The rows of the two loaders are trimmed, so in [main]
    this cannot happen: before the files are written [main] can only stop
    with the [OverflowError] of the ingestor. *)
Theorem assembler_raises_only_index_error (uuid4 : nat → string) :
  (∀ all_rows e, pipeline uuid4 all_rows = Raise e →
     e = IndexError ∧
     ∃ row, row ∈ all_rows ∧ category_raw row = "" ∧ brand_raw row = "" ∧
            item_raw row ≠ "" ∧ Str.split (item_raw row) = []) ∧
  (∀ float_of_str str_of_float hope_sheet mc_sheet e,
     build_outputs float_of_str str_of_float uuid4 hope_sheet mc_sheet = Raise e →
     e = OverflowError).
Proof.
  split.
  - intros all_rows e (row & Hin & (-> & H)%infer_category_raise)%pipeline_raise.
    split; [done|]. by exists row.
  - intros fos sof hope_sheet mc_sheet e. unfold build_outputs.
    destruct (load_hope_sheet fos sof hope_sheet) as [h|e1] eqn:Hh; cbn.
    + destruct (load_mc_sheet fos sof mc_sheet) as [m|e2] eqn:Hm; cbn.
      * destruct (pipeline_returns uuid4 (h ++ m)) as [[[ls lc] lt] Hp].
        { apply Forall_app. split; by eapply load_sheet_trimmed. }
        rewrite pipeline_eq in Hp.
        destruct (build_supplier_data (h ++ m)) as [sm sa]. cbn [fst snd] in Hp.
        by rewrite Hp.
      * intros [= ->].
        by destruct (load_sheet_only_overflow fos sof "MC" mc_sheet e Hm).
    + intros [= ->].
      by destruct (load_sheet_only_overflow fos sof "Hope" hope_sheet e Hh).
Qed.

Lemma assembler_raises_only_index_error_witness :
  pipeline (fun n => pretty n) [item_row "" "" "  "] = Raise IndexError ∧
  ∃ row, row ∈ [item_row "" "" "  "] ∧ Str.split (item_raw row) = [].
Proof.
  destruct (assembler_raises_only_index_error (fun n => pretty n)) as [H _].
  destruct (H [item_row "" "" "  "] IndexError eq_refl) as (_ & row & Hin & _ & _ & _ & Hs).
  split; [reflexivity|]. by exists row.
Defined.

(** * The rows of a sheet in another order *)

Section reorder_ingest.
Variable float_of_str : string → option float.
Variable str_of_float : float → string.

Lemma load_sheet_tail src sheet :
  load_sheet float_of_str str_of_float src sheet
  = load_rows float_of_str str_of_float src 2 (tail sheet).
Proof. by destruct sheet. Qed.

Lemma row_dict_without_number src idx cells :
  without_number <$> row_dict float_of_str str_of_float src idx cells
  = row_dict float_of_str str_of_float src 0 cells.
Proof.
  unfold row_dict.
  destruct (cell cells 0 _ _) as [d|]; [|done]. cbn.
  destruct (cell cells 8 _ _) as [b|]; [|done]. cbn.
  destruct (cell cells 9 _ _) as [s|]; [|done]. cbn.
  by destruct (cell cells 10 _ _) as [m|].
Qed.

Lemma load_rows_without_number src idx body :
  (2 ≤ idx)%nat →
  (fun rows : list RawRow => without_number <$> rows) <$> load_rows float_of_str str_of_float src idx body
  = for_each (row_dict float_of_str str_of_float src 0)
      (filter (fun cells => existsb truthy cells = true) body).
Proof.
  revert idx. induction body as [|cells body IH]; intros idx Hidx; [done|].
  cbn [load_rows]. destruct (Nat.eqb_spec idx 1) as [?|_]; [lia|].
  rewrite filter_cons. destruct (existsb truthy cells) eqn:Hc; cbn [negb].
  - rewrite decide_True by done. cbn [for_each].
    rewrite <- row_dict_without_number with (idx := idx).
    rewrite <- (IH (S idx)) by lia.
    destruct (row_dict _ _ src idx cells) as [r|]; [|done]. cbn.
    by destruct (load_rows _ _ src (S idx) body).
  - rewrite decide_False by done. apply IH. lia.
Qed.

End reorder_ingest.

Lemma for_each_Permutation {A B} (f : A → outcome B) l l' a :
  l ≡ₚ l' → for_each f l = Return a →
  ∃ a', for_each f l' = Return a' ∧ a ≡ₚ a'.
Proof.
  intros Hp. revert a.
  induction Hp as [|x l l' Hp IH|x y l|l l' l'' Hp IH Hp' IH']; intros a; cbn [for_each].
  - intros [= <-]. by exists [].
  - destruct (f x) as [b|]; [|done]. cbn.
    destruct (for_each f l) as [bs|]; [|done]. cbn. intros [= <-].
    destruct (IH bs eq_refl) as (bs' & -> & Hbs). cbn.
    exists (b :: bs'). split; [done|]. by constructor.
  - destruct (f y) as [b|]; [|done]. cbn.
    destruct (f x) as [c|]; [|done]. cbn.
    destruct (for_each f l) as [bs|]; [|done]. cbn. intros [= <-].
    exists (c :: b :: bs). split; [done|]. apply perm_swap.
  - intros Ha. destruct (IH a Ha) as (a' & Ha' & Hpa).
    destruct (IH' a' Ha') as (a'' & Ha'' & Hpa').
    exists a''. split; [done|]. by etrans.
Qed.

Lemma group_of_without_number (key : RawRow → string) k rows :
  (∀ r, key (without_number r) = key r) →
  group_of key k (without_number <$> rows) = without_number <$> group_of key k rows.
Proof.
  intros Hkey. unfold group_of. induction rows as [|r rows IH]; [done|].
  rewrite fmap_cons, !filter_cons, Hkey, IH. by destruct (decide (key r = k)).
Qed.

Lemma supplier_map_without_number all_rows :
  (build_supplier_data (without_number <$> all_rows)).1 = (build_supplier_data all_rows).1.
Proof. rewrite !build_supplier_data_eq. cbn [fst]. by rewrite foldl_fmap. Qed.

Lemma client_data_without_number all_rows :
  build_client_data (without_number <$> all_rows) = build_client_data all_rows.
Proof. unfold build_client_data. by rewrite foldl_fmap. Qed.

Lemma supplier_audit_get_without_number all_rows k :
  without_rows <$> od_get k (build_supplier_data (without_number <$> all_rows)).2
  = without_rows <$> od_get k (build_supplier_data all_rows).2.
Proof.
  rewrite !supplier_audit_get, group_of_without_number by done.
  destruct (group_of supplier_key k all_rows) as [|r0 g]; [done|].
  cbn [fmap option_fmap option_map list_fmap]. unfold without_rows.
  cbn [SupplierAudit.clean_name SupplierAudit.raw_variants SupplierAudit.sources
       SupplierAudit.requires_review SupplierAudit.reason].
  change (list_fmap RawRow RawRow without_number g) with (without_number <$> g).
  rewrite <- !list_fmap_compose. done.
Qed.

Lemma supplier_trail_length all_rows k e :
  od_get k (build_supplier_data all_rows).2 = Some e →
  SupplierAudit.clean_name e = k ∧
  length (SupplierAudit.rows e) = length (group_of supplier_key k all_rows).
Proof.
  rewrite supplier_audit_get. destruct (group_of supplier_key k all_rows) as [|r0 g]; [done|].
  intros [= <-]. cbn [SupplierAudit.clean_name SupplierAudit.rows]. split; [done|].
  apply (length_fmap row_number (r0 :: g)).
Qed.

Lemma omap_without_number {A} (f : RawRow → option A) (l : list RawRow) :
  (∀ r, f (without_number r) = f r) →
  omap f (without_number <$> l) = omap f l.
Proof.
  intros Hf. induction l as [|r l IH]; csimpl; [done|]. by rewrite Hf, IH.
Qed.

Lemma supplier_record_without_number all_rows e :
  supplier_record (without_number <$> all_rows) e = supplier_record all_rows e.
Proof.
  unfold supplier_record.
  pose proof (group_of_without_number trade_supplier_key (SupplierAudit.clean_name e) all_rows
                (fun _ => eq_refl)) as Hg.
  unfold group_of in Hg. rewrite Hg, length_fmap.
  by rewrite (omap_without_number dated) by done.
Qed.

Lemma trade_record_without_number (all_rows : list RawRow) :
  omap trade_record (without_number <$> all_rows)
  = trade_without_number <$> omap trade_record all_rows.
Proof.
  induction all_rows as [|r l IH]; csimpl; [done|]. rewrite IH.
  unfold trade_record.
  change (infer_category (without_number r)) with (infer_category r).
  by destruct (infer_category r).
Qed.

(** The collections of two lists of rows that are reorderings of each
    other, the positions of the rows apart. *)
Section renumbered.
Variables all_rows all_rows' : list RawRow.
Hypothesis Hrows : without_number <$> all_rows ≡ₚ without_number <$> all_rows'.

Lemma supplier_map_renumbered :
  (build_supplier_data all_rows).1 ≡ₚ (build_supplier_data all_rows').1.
Proof using Hrows.
  rewrite <- (supplier_map_without_number all_rows), <- (supplier_map_without_number all_rows').
  by apply supplier_map_Permutation.
Qed.

Lemma supplier_audit_renumbered :
  without_rows <$> od_values (build_supplier_data all_rows).2
  ≡ₚ without_rows <$> od_values (build_supplier_data all_rows').2.
Proof using Hrows.
  assert (prod_map id without_rows <$> (build_supplier_data all_rows).2
          ≡ₚ prod_map id without_rows <$> (build_supplier_data all_rows').2) as Hd.
  { apply od_Permutation.
    - rewrite od_keys_fmap. apply supplier_audit_NoDup.
    - rewrite od_keys_fmap. apply supplier_audit_NoDup.
    - intros k. rewrite !od_get_fmap.
      rewrite <- (supplier_audit_get_without_number all_rows),
        <- (supplier_audit_get_without_number all_rows').
      by apply supplier_audit_get_Permutation. }
  apply (fmap_Permutation snd) in Hd. unfold od_values.
  rewrite <- !list_fmap_compose in *. exact Hd.
Qed.

Lemma supplier_trail_renumbered k e e' :
  od_get k (build_supplier_data all_rows).2 = Some e →
  od_get k (build_supplier_data all_rows').2 = Some e' →
  length (SupplierAudit.rows e) = length (SupplierAudit.rows e').
Proof using Hrows.
  intros [_ ->]%supplier_trail_length [_ ->]%supplier_trail_length.
  rewrite <- (length_fmap without_number (group_of supplier_key k all_rows)),
    <- (length_fmap without_number (group_of supplier_key k all_rows')).
  rewrite <- !group_of_without_number by done.
  apply Permutation_length. unfold group_of. by rewrite Hrows.
Qed.

Lemma client_audit_renumbered :
  build_client_data all_rows ≡ₚ build_client_data all_rows'.
Proof using Hrows.
  rewrite <- (client_data_without_number all_rows), <- (client_data_without_number all_rows').
  apply od_Permutation; try apply client_audit_NoDup.
  intros k. by apply client_audit_get_Permutation.
Qed.

Lemma supplier_record_renumbered e :
  supplier_record all_rows e = supplier_record all_rows' e.
Proof using Hrows.
  rewrite <- (supplier_record_without_number all_rows),
    <- (supplier_record_without_number all_rows').
  by apply supplier_record_Permutation.
Qed.

Lemma trade_records_renumbered :
  trade_without_number <$> omap trade_record all_rows
  ≡ₚ trade_without_number <$> omap trade_record all_rows'.
Proof using Hrows.
  rewrite <- !trade_record_without_number. by apply omap_Permutation.
Qed.

End renumbered.

Section reorder_sheets.
Variable float_of_str : string → option float.
Variable str_of_float : float → string.

Lemma load_sheet_reordered src sheet sheet' rows :
  tail sheet ≡ₚ tail sheet' →
  load_sheet float_of_str str_of_float src sheet = Return rows →
  ∃ rows', load_sheet float_of_str str_of_float src sheet' = Return rows' ∧
           without_number <$> rows ≡ₚ without_number <$> rows'.
Proof.
  intros Hp Hl. rewrite load_sheet_tail in Hl |- *.
  pose proof (load_rows_without_number float_of_str str_of_float src 2 (tail sheet)
                (le_n 2)) as Hn.
  rewrite Hl in Hn. cbn in Hn. symmetry in Hn.
  assert (filter (fun cells => existsb truthy cells = true) (tail sheet)
          ≡ₚ filter (fun cells => existsb truthy cells = true) (tail sheet')) as Hf
    by (by rewrite Hp).
  destruct (for_each_Permutation _ _ _ _ Hf Hn) as (a' & Ha' & Hpa).
  rewrite <- (load_rows_without_number float_of_str str_of_float src 2) in Ha' by lia.
  destruct (load_rows float_of_str str_of_float src 2 (tail sheet')) as [rows'|]; [|done].
  cbn in Ha'. injection Ha' as <-. by exists rows'.
Qed.

Lemma build_outputs_returns uuid4 hope_sheet mc_sheet hope_rows mc_rows :
  load_hope_sheet float_of_str str_of_float hope_sheet = Return hope_rows →
  load_mc_sheet float_of_str str_of_float mc_sheet = Return mc_rows →
  returns (build_outputs float_of_str str_of_float uuid4 hope_sheet mc_sheet).
Proof.
  intros Hh Hm. unfold build_outputs. rewrite Hh, Hm. cbn.
  assert (Forall row_trimmed (hope_rows ++ mc_rows)) as Ht.
  { apply Forall_app. split; by eapply load_sheet_trimmed. }
  destruct (pipeline_returns uuid4 _ Ht) as [[[ls lc] lt] Hp]. unfold pipeline in Hp.
  destruct (build_supplier_data (hope_rows ++ mc_rows)) as [sm sa].
  rewrite Hp. cbn. by eexists.
Qed.

Lemma build_outputs_reordered uuid4 uuid4' hope_sheet hope_sheet' mc_sheet mc_sheet' :
  tail hope_sheet ≡ₚ tail hope_sheet' → tail mc_sheet ≡ₚ tail mc_sheet' →
  returns (build_outputs float_of_str str_of_float uuid4 hope_sheet mc_sheet) →
  returns (build_outputs float_of_str str_of_float uuid4' hope_sheet' mc_sheet').
Proof.
  intros Hh Hm [[[h m] out] (Hlh & Hlm & _)%build_outputs_eq].
  destruct (load_sheet_reordered _ _ _ _ Hh Hlh) as (h' & Hlh' & _).
  destruct (load_sheet_reordered _ _ _ _ Hm Hlm) as (m' & Hlm' & _).
  by eapply build_outputs_returns.
Qed.

End reorder_sheets.

(** C4, as the code has it. Take two runs whose sheets hold the same rows
    after the header, in any order within each sheet. One run returns when
    the other does. The lists of raw variants and of sources are sorted and
    without duplicates in every emitted record. The emitted collections hold
    the same records, up to the order of the records, the positions of the
    rows and the generated identifiers: the rows of each source, the
    entries of the normalisation map, the supplier audit entries (their
    trails of row numbers apart, which have the same length), the client
    audit entries and the legacy suppliers, clients and trades and the live
    supplier seed. *)
Theorem reordered_sheets_same_records
    (float_of_str : string → option float) (str_of_float : float → string)
    (uuid4 uuid4' : nat → string)
    (hope_sheet hope_sheet' mc_sheet mc_sheet' : list (list pyval)) :
  tail hope_sheet ≡ₚ tail hope_sheet' → tail mc_sheet ≡ₚ tail mc_sheet' →
  (returns (build_outputs float_of_str str_of_float uuid4 hope_sheet mc_sheet) ↔
   returns (build_outputs float_of_str str_of_float uuid4' hope_sheet' mc_sheet')) ∧
  ∀ hope_rows mc_rows out hope_rows' mc_rows' out',
    build_outputs float_of_str str_of_float uuid4 hope_sheet mc_sheet
      = Return (hope_rows, mc_rows, out) →
    build_outputs float_of_str str_of_float uuid4' hope_sheet' mc_sheet'
      = Return (hope_rows', mc_rows', out') →
    (∀ e, e ∈ Outputs.supplier_audit_table out →
       StronglySorted String.le (SupplierAudit.raw_variants e) ∧
       NoDup (SupplierAudit.raw_variants e) ∧
       StronglySorted String.le (SupplierAudit.sources e) ∧
       NoDup (SupplierAudit.sources e)) ∧
    (∀ e, e ∈ od_values (build_client_data (hope_rows ++ mc_rows)) →
       StronglySorted String.le (ClientAudit.raw_variants e) ∧
       NoDup (ClientAudit.raw_variants e) ∧
       StronglySorted String.le (ClientAudit.sources e) ∧
       NoDup (ClientAudit.sources e)) ∧
    (∀ s, s ∈ Outputs.legacy_suppliers out →
       StronglySorted String.le (LegacySupplier.raw_variants s) ∧
       NoDup (LegacySupplier.raw_variants s)) ∧
    (∀ c, c ∈ Outputs.legacy_clients out →
       StronglySorted String.le (LegacyClient.raw_variants c) ∧
       NoDup (LegacyClient.raw_variants c)) ∧
    without_number <$> hope_rows ≡ₚ without_number <$> hope_rows' ∧
    without_number <$> mc_rows ≡ₚ without_number <$> mc_rows' ∧
    Outputs.supplier_normalisation_map out ≡ₚ Outputs.supplier_normalisation_map out' ∧
    without_rows <$> Outputs.supplier_audit_table out
      ≡ₚ without_rows <$> Outputs.supplier_audit_table out' ∧
    (∀ e e', e ∈ Outputs.supplier_audit_table out →
       e' ∈ Outputs.supplier_audit_table out' →
       SupplierAudit.clean_name e = SupplierAudit.clean_name e' →
       length (SupplierAudit.rows e) = length (SupplierAudit.rows e')) ∧
    od_values (build_client_data (hope_rows ++ mc_rows))
      ≡ₚ od_values (build_client_data (hope_rows' ++ mc_rows')) ∧
    supplier_without_id <$> Outputs.legacy_suppliers out
      ≡ₚ supplier_without_id <$> Outputs.legacy_suppliers out' ∧
    client_without_id <$> Outputs.legacy_clients out
      ≡ₚ client_without_id <$> Outputs.legacy_clients out' ∧
    trade_without_number <$> (trade_without_ids <$> Outputs.legacy_trades out)
      ≡ₚ trade_without_number <$> (trade_without_ids <$> Outputs.legacy_trades out') ∧
    live_without_id <$> Outputs.suppliers_live_seed out
      ≡ₚ live_without_id <$> Outputs.suppliers_live_seed out'.
Proof.
  intros Hhs Hms. split.
  { split; apply build_outputs_reordered; done. }
  intros h m out h' m' out' (Hlh & Hlm & Hp & Hmap & Htab & Hseed)%build_outputs_eq
    (Hlh' & Hlm' & Hp' & Hmap' & Htab' & Hseed')%build_outputs_eq.
  destruct (load_sheet_reordered _ _ _ _ _ _ Hhs Hlh) as (h0 & Hh0 & Hph).
  destruct (load_sheet_reordered _ _ _ _ _ _ Hms Hlm) as (m0 & Hm0 & Hpm).
  assert (h0 = h') as -> by (unfold load_hope_sheet in Hlh'; congruence).
  assert (m0 = m') as -> by (unfold load_mc_sheet in Hlm'; congruence).
  clear Hh0 Hm0.
  assert (without_number <$> (h ++ m)%list ≡ₚ without_number <$> (h' ++ m')%list) as Hrows
    by (rewrite !fmap_app; by apply Permutation_app).
  set (all_rows := (h ++ m)%list) in *. set (all_rows' := (h' ++ m')%list) in *.
  apply pipeline_tables in Hp as (Hls & Hlc & Hlt).
  apply pipeline_tables in Hp' as (Hls' & Hlc' & Hlt').
  rewrite Hmap, Hmap', Htab, Htab', Hseed, Hseed'.
  assert (supplier_without_id <$> Outputs.legacy_suppliers out
          ≡ₚ supplier_without_id <$> Outputs.legacy_suppliers out') as Hsup.
  { rewrite (for_each_fmap _ supplier_without_id (supplier_record all_rows) _ _
               (legacy_supplier_record all_rows _) Hls).
    rewrite (for_each_fmap _ supplier_without_id (supplier_record all_rows') _ _
               (legacy_supplier_record all_rows' _) Hls').
    transitivity (supplier_record all_rows <$>
                    (without_rows <$> od_values (build_supplier_data all_rows).2)).
    { by rewrite <- list_fmap_compose. }
    rewrite (supplier_audit_renumbered _ _ Hrows). rewrite <- list_fmap_compose.
    erewrite (list_fmap_ext (supplier_record all_rows ∘ without_rows)
                (supplier_record all_rows')); [done|].
    intros i e _. unfold compose. rewrite supplier_record_without_rows.
    by apply supplier_record_renumbered. }
  split; [apply supplier_audit_sorted|]. split; [apply client_audit_sorted|].
  split.
  { intros s Hs. destruct (for_each_elem _ _ _ _ Hls Hs) as (e & He & Hrec).
    apply legacy_supplier_fields in Hrec as (_ & _ & -> & _).
    destruct (supplier_audit_sorted all_rows e He) as (? & ? & _). done. }
  split.
  { intros c Hc. destruct (for_each_elem _ _ _ _ Hlc Hc) as (e & He & Hrec).
    apply legacy_client_fields in Hrec as (_ & _ & -> & _).
    destruct (client_audit_sorted all_rows e He) as (? & ? & _). done. }
  split; [done|]. split; [done|].
  split; [by apply supplier_map_renumbered|].
  split; [by apply supplier_audit_renumbered|].
  split.
  { intros e e' [k Hk]%od_values_elem [k' Hk']%od_values_elem Hname;
      try apply supplier_audit_NoDup.
    destruct (supplier_trail_length _ _ _ Hk) as [Hn _].
    destruct (supplier_trail_length _ _ _ Hk') as [Hn' _].
    assert (k' = k) as -> by congruence.
    by eapply supplier_trail_renumbered. }
  split; [unfold od_values; by apply fmap_Permutation, client_audit_renumbered|].
  split; [done|].
  split.
  { rewrite (for_each_fmap _ client_without_id client_record _ _
               (legacy_client_record _) Hlc).
    rewrite (for_each_fmap _ client_without_id client_record _ _
               (legacy_client_record _) Hlc').
    unfold od_values. by apply fmap_Permutation, fmap_Permutation, client_audit_renumbered. }
  split.
  { rewrite (legacy_trades_records _ _ _ _ _ _ Hlt).
    rewrite (legacy_trades_records _ _ _ _ _ _ Hlt').
    by apply trade_records_renumbered. }
  rewrite !live_seed_without_id. by apply fmap_Permutation.
Qed.

Lemma reordered_sheets_same_records_witness :
  let hdr := [VStr "Date"] in
  let a := [VNone; VStr "INV-1"; VStr "Acme"; VStr "Active"; VStr "Galaxy"] in
  let b := [VNone; VStr "INV-2"; VStr "Bolt"; VStr "Active"; VStr "LOCAL"] in
  ∃ h m out h' m' out',
    build_outputs (fun _ => None) (fun _ => "") (fun n => pretty n) [hdr; a; b] []
      = Return (h, m, out) ∧
    build_outputs (fun _ => None) (fun _ => "") (fun n => pretty n) [hdr; b; a] []
      = Return (h', m', out') ∧
    without_rows <$> Outputs.supplier_audit_table out
      ≡ₚ without_rows <$> Outputs.supplier_audit_table out' ∧
    trade_without_number <$> (trade_without_ids <$> Outputs.legacy_trades out)
      ≡ₚ trade_without_number <$> (trade_without_ids <$> Outputs.legacy_trades out').
Proof.
  intros hdr a b.
  destruct (build_outputs (fun _ => None) (fun _ => "") (fun n => pretty n) [hdr; a; b] [])
    as [[[h m] out]|] eqn:Hb; [|by vm_compute in Hb].
  destruct (build_outputs (fun _ => None) (fun _ => "") (fun n => pretty n) [hdr; b; a] [])
    as [[[h' m'] out']|] eqn:Hb'; [|by vm_compute in Hb'].
  exists h, m, out, h', m', out'. split; [reflexivity|]. split; [reflexivity|].
  destruct (reordered_sheets_same_records (fun _ => None) (fun _ => "")
              (fun n => pretty n) (fun n => pretty n) [hdr; a; b] [hdr; b; a] [] []
              (perm_swap b a []) (Permutation_refl [])) as [_ Hsame].
  destruct (Hsame h m out h' m' out' Hb Hb')
    as (_ & _ & _ & _ & _ & _ & _ & Haudit & _ & _ & _ & _ & Htrades & _).
  split; [exact Haudit|exact Htrades].
Defined.

(** C4 fails on the order of the records and on the positions of the
    rows: two rows of Hope's sheet, taken in either order, give the same
    audit entries and the same trades in different orders, and each row is
    recorded with the position it had. *)
Lemma sheet_order_shows_in_output :
  let hdr := [VStr "Date"] in
  let a := [VNone; VStr "INV-1"; VStr "Acme"; VStr "Active"; VStr "Galaxy"] in
  let b := [VNone; VStr "INV-2"; VStr "Bolt"; VStr "Active"; VStr "LOCAL"] in
  tail [hdr; a; b] ≡ₚ tail [hdr; b; a] ∧
  ∃ h m out h' m' out',
    build_outputs (fun _ => None) (fun _ => "") (fun n => pretty n) [hdr; a; b] []
      = Return (h, m, out) ∧
    build_outputs (fun _ => None) (fun _ => "") (fun n => pretty n) [hdr; b; a] []
      = Return (h', m', out') ∧
    (fun e => (SupplierAudit.clean_name e, SupplierAudit.rows e))
      <$> Outputs.supplier_audit_table out = [("Galaxy VIC", [2]); ("LOCAL", [3])] ∧
    (fun e => (SupplierAudit.clean_name e, SupplierAudit.rows e))
      <$> Outputs.supplier_audit_table out' = [("LOCAL", [2]); ("Galaxy VIC", [3])] ∧
    (fun t => (LegacyTrade.invoice_number t, row_number (LegacyTrade.raw_row t)))
      <$> Outputs.legacy_trades out = [("INV-1", 2); ("INV-2", 3)] ∧
    (fun t => (LegacyTrade.invoice_number t, row_number (LegacyTrade.raw_row t)))
      <$> Outputs.legacy_trades out' = [("INV-2", 2); ("INV-1", 3)] ∧
    LegacySupplier.supplier_clean <$> Outputs.legacy_suppliers out = ["Galaxy VIC"; "LOCAL"] ∧
    LegacySupplier.supplier_clean <$> Outputs.legacy_suppliers out' = ["LOCAL"; "Galaxy VIC"] ∧
    LegacyClient.client_clean <$> Outputs.legacy_clients out = ["acme"; "bolt"] ∧
    LegacyClient.client_clean <$> Outputs.legacy_clients out' = ["bolt"; "acme"] ∧
    Outputs.supplier_audit_table out ≠ Outputs.supplier_audit_table out' ∧
    supplier_without_id <$> Outputs.legacy_suppliers out
      ≠ supplier_without_id <$> Outputs.legacy_suppliers out' ∧
    client_without_id <$> Outputs.legacy_clients out
      ≠ client_without_id <$> Outputs.legacy_clients out' ∧
    trade_without_ids <$> Outputs.legacy_trades out
      ≠ trade_without_ids <$> Outputs.legacy_trades out'.
Proof.
  intros hdr a b. split; [apply perm_swap|].
  destruct (build_outputs (fun _ => None) (fun _ => "") (fun n => pretty n) [hdr; a; b] [])
    as [[[h m] out]|] eqn:Hb; [|by vm_compute in Hb].
  destruct (build_outputs (fun _ => None) (fun _ => "") (fun n => pretty n) [hdr; b; a] [])
    as [[[h' m'] out']|] eqn:Hb'; [|by vm_compute in Hb'].
  exists h, m, out, h', m', out'. split; [reflexivity|]. split; [reflexivity|].
  vm_compute in Hb, Hb'. injection Hb as <- <- <-. injection Hb' as <- <- <-.
  repeat (split; [reflexivity|]).
  repeat split; intros H; vm_compute in H; discriminate H.
Qed.
